(** * INVEST analyzer: sanitization and normalization of a model response

    A shallow embedding of [ReRefine.py] (the guided analyzer) and
    [Refinement.py] (the baseline analyzer).  Python text is a list of code
    points, a parsed JSON document is a [value], a [dict] keeps its insertion
    order, and every operation that can raise returns in the [exc] monad, so
    that the [try]/[except] of [analyze_user_story] is an ordinary [match]. *)

From Stdlib Require Import ZArith NArith List Bool Ascii String Lia.
From Stdlib Require Import DecimalString.
From Equations Require Import Equations.
Import ListNotations.

Set Implicit Arguments.
Set Warnings "-register-all".

(** ** Python text *)

Module Text.

(** A Python [str] is a sequence of Unicode code points. *)
Definition char := N.
Definition str := list char.

(** ASCII literals of the source are written as Rocq strings. *)
Definition lit (s : string) : str :=
  List.map N_of_ascii (list_ascii_of_string s).

Definition dquote : char := 34%N.
Definition backslash : char := 92%N.
Definition newline : char := 10%N.
Definition tab : char := 9%N.
Definition creturn : char := 13%N.

Fixpoint str_eqb (a b : str) : bool :=
  match a, b with
  | [], [] => true
  | x :: a', y :: b' => N.eqb x y && str_eqb a' b'
  | _, _ => false
  end.

Definition between (lo hi c : N) : bool := (N.leb lo c && N.leb c hi)%bool.

(** [a.startswith(p)]: the rest of [a] after the prefix [p]. *)
Fixpoint strip_prefix (p a : str) : option str :=
  match p, a with
  | [], _ => Some a
  | x :: p', y :: a' => if N.eqb x y then strip_prefix p' a' else None
  | _ :: _, [] => None
  end.

(** [p in a] for two strings: substring test. *)
Fixpoint substring (p a : str) : bool :=
  match strip_prefix p a with
  | Some _ => true
  | None => match a with
            | [] => false
            | _ :: a' => substring p a'
            end
  end.

(** [str.isspace] of one character (Unicode 14). *)
Definition is_space (c : char) : bool :=
  (between 9 13 c || between 28 32 c || N.eqb c 133 || N.eqb c 160
   || N.eqb c 5760 || between 8192 8202 c || between 8232 8233 c
   || N.eqb c 8239 || N.eqb c 8287 || N.eqb c 12288)%N%bool.

Fixpoint lstrip (s : str) : str :=
  match s with
  | c :: s' => if is_space c then lstrip s' else s
  | [] => []
  end.

Definition rstrip (s : str) : str := rev (lstrip (rev s)).

(** [s.strip()] *)
Definition strip (s : str) : str := rstrip (lstrip s).

(** [s.replace(c, by)] for a one-character [c]. *)
Definition replace_char (c : char) (by_ : str) (s : str) : str :=
  flat_map (fun x => if N.eqb x c then by_ else [x]) s.

(** First code points of the runs of ten decimal digits (category Nd,
    Unicode 14): the characters that [\d] matches and that [int] reads. *)
Definition decimal_runs : list N :=
  [48; 1632; 1776; 1984; 2406; 2534; 2662; 2790; 2918; 3046; 3174; 3302;
   3430; 3558; 3664; 3792; 3872; 4160; 4240; 6112; 6160; 6470; 6608; 6784;
   6800; 6992; 7088; 7232; 7248; 42528; 43216; 43264; 43472; 43504; 43600;
   44016; 65296; 66720; 68912; 69734; 69872; 69942; 70096; 70384; 70736;
   70864; 71248; 71360; 71472; 71904; 72016; 72784; 73040; 73120; 92768;
   92864; 93008; 120782; 120792; 120802; 120812; 120822; 123200; 123632;
   125264; 130032]%N.

Fixpoint decimal_in (runs : list N) (c : char) : option N :=
  match runs with
  | [] => None
  | r :: runs' =>
      if between r (r + 9) c then Some (c - r)%N else decimal_in runs' c
  end.

(** The value of a decimal digit, [None] for any other character. *)
Definition decimal_value (c : char) : option N := decimal_in decimal_runs c.

Definition is_decimal (c : char) : bool :=
  match decimal_value c with Some _ => true | None => false end.

Definition is_ascii_digit (c : char) : bool := between 48 57 c.

(** A value together with the equation that names it, for the recursive
    definitions that match on an intermediate result. *)
Definition inspect {A} (a : A) : {b | a = b} := exist _ a eq_refl.

(** An optional sign at the head of [s]: whether it is a minus, and the
    text after it. *)
Definition opt_sign (s : str) : bool * str :=
  match s with
  | c :: r =>
      if N.eqb c 45 then (true, r)
      else if N.eqb c 43 then (false, r)
      else (false, s)
  | [] => (false, s)
  end.

(** [str(n)] of an integer. *)
Definition str_of_int (n : Z) : str :=
  lit (NilZero.string_of_int (Z.to_int n)).

End Text.
Export Text.

(** ** Python values and exceptions *)

Module Py.

(** A [float]: not-a-number, an infinity, or the finite value
    [(-1)^neg * m * 2^e]. *)
Inductive pyfloat :=
| FNan
| FInf (neg : bool)
| FFin (neg : bool) (m : N) (e : Z).

(** What [json.loads] builds, and what the analyzers store into it:
    [None], [bool], [int], [float], [str], [list] and a [dict] with string
    keys, in insertion order. *)
Inductive value :=
| VNone
| VBool (b : bool)
| VInt (n : Z)
| VFloat (f : pyfloat)
| VStr (s : str)
| VList (items : list value)
| VDict (entries : list (str * value)).

Definition dict := list (str * value).

(** The exception classes that the code tells apart, below [Exception]. *)
Inductive exn_class :=
| ValueError
| TypeError
| KeyError
| OverflowError
| AttributeError
| JSONDecodeError
| OtherError.

(** An exception with its [str(e)].  The texts given to exceptions that
    library code raises are indicative: no theorem depends on them. *)
Record exn := Exn { exn_class_of : exn_class; exn_str : str }.

Inductive exc (A : Type) :=
| Ok (a : A)
| Raise (e : exn).
Arguments Ok {A} a.
Arguments Raise {A} e.

Definition bind {A B} (c : exc A) (k : A -> exc B) : exc B :=
  match c with
  | Ok a => k a
  | Raise e => Raise e
  end.

Definition raise {A} (c : exn_class) (msg : string) : exc A :=
  Raise (Exn c (lit msg)).

(** *** dict *)

Fixpoint dict_get (d : dict) (k : str) : option value :=
  match d with
  | [] => None
  | (k', v) :: d' => if str_eqb k' k then Some v else dict_get d' k
  end.

Definition dict_mem (d : dict) (k : str) : bool :=
  match dict_get d k with Some _ => true | None => false end.

(** [d[k] = v]: an existing key keeps its place, a new one goes last. *)
Fixpoint dict_set (d : dict) (k : str) (v : value) : dict :=
  match d with
  | [] => [(k, v)]
  | (k', v') :: d' =>
      if str_eqb k' k then (k', v) :: d' else (k', v') :: dict_set d' k v
  end.

(** *** Operators on values, with a string on the left or as the key *)

(** [k in c] *)
Definition py_in (k : str) (c : value) : exc bool :=
  match c with
  | VDict d => Ok (dict_mem d k)
  | VList l =>
      Ok (existsb (fun v => match v with
                            | VStr s => str_eqb s k
                            | _ => false
                            end) l)
  | VStr s => Ok (substring k s)
  | _ => raise TypeError "argument is not iterable"
  end.

(** [c[k]] *)
Definition py_getitem (c : value) (k : str) : exc value :=
  match c with
  | VDict d =>
      match dict_get d k with
      | Some v => Ok v
      | None => Raise (Exn KeyError (lit "'" ++ k ++ lit "'"))
      end
  | VList _ => raise TypeError "list indices must be integers or slices, not str"
  | VStr _ => raise TypeError "string indices must be integers"
  | _ => raise TypeError "object is not subscriptable"
  end.

(** [c[k] = v]; the container after the assignment. *)
Definition py_setitem (c : value) (k : str) (v : value) : exc value :=
  match c with
  | VDict d => Ok (VDict (dict_set d k v))
  | VList _ => raise TypeError "list indices must be integers or slices, not str"
  | _ => raise TypeError "object does not support item assignment"
  end.

(** [c.get(k, default)] *)
Definition py_get (c : value) (k : str) (default : value) : exc value :=
  match c with
  | VDict d =>
      match dict_get d k with
      | Some v => Ok v
      | None => Ok default
      end
  | _ => raise AttributeError "object has no attribute 'get'"
  end.

(** [isinstance(v, (int, float))]; [bool] is a subclass of [int]. *)
Definition is_number (v : value) : bool :=
  match v with
  | VInt _ | VBool _ | VFloat _ => true
  | _ => false
  end.

(** [isinstance(v, str)] *)
Definition is_str (v : value) : bool :=
  match v with
  | VStr _ => true
  | _ => false
  end.

(** *** int() *)

(** [int] of a float truncates toward zero. *)
Definition int_of_float (f : pyfloat) : exc Z :=
  match f with
  | FNan => raise ValueError "cannot convert float NaN to integer"
  | FInf _ => raise OverflowError "cannot convert float infinity to integer"
  | FFin neg m e =>
      let mag := if (0 <=? e)%Z
                 then (Z.of_N m * 2 ^ e)%Z
                 else (Z.of_N m / 2 ^ (- e))%Z in
      Ok (if neg then (- mag)%Z else mag)
  end.

(** White space that [int] skips around the digits of a string. *)
Definition is_int_space (c : char) : bool :=
  (is_space c && negb (between 28 31 c))%bool.

Fixpoint skip_int_space (s : str) : str :=
  match s with
  | c :: s' => if is_int_space c then skip_int_space s' else s
  | [] => []
  end.

(** Digits, with single underscores between them, up to trailing white
    space and the end of the string: [acc] is the number read so far and
    [after_digit] tells whether the last character was a digit. *)
Fixpoint int_digits (acc : N) (after_digit : bool) (s : str) : option N :=
  match s with
  | [] => if after_digit then Some acc else None
  | c :: s' =>
      match decimal_value c with
      | Some d => int_digits (10 * acc + d) true s'
      | None =>
          if negb after_digit then None
          else if N.eqb c 95 then
            match s' with
            | c' :: _ => if is_decimal c' then int_digits acc false s' else None
            | [] => None
            end
          else match skip_int_space s with
               | [] => Some acc
               | _ :: _ => None
               end
      end
  end.

(** [int(s)] of a string, base ten. *)
Definition int_of_str (s : str) : exc Z :=
  let body := skip_int_space s in
  let '(neg, digits) := opt_sign body in
  match int_digits 0 false digits with
  | Some n => Ok (if neg then (- Z.of_N n)%Z else Z.of_N n)
  | None => raise ValueError "invalid literal for int() with base 10"
  end.

(** [int(v)] *)
Definition py_int (v : value) : exc Z :=
  match v with
  | VInt n => Ok n
  | VBool b => Ok (if b then 1 else 0)%Z
  | VFloat f => int_of_float f
  | VStr s => int_of_str s
  | _ => raise TypeError "int() argument must be a string, a bytes-like object or a real number"
  end.

End Py.
Export Py.

Declare Scope exc_scope.
Delimit Scope exc_scope with exc.
Notation "x <- c ;; k" := (bind c (fun x => k))
  (at level 61, c at next level, right associativity) : exc_scope.
Notation "c ;;; k" := (bind c (fun _ => k))
  (at level 61, right associativity) : exc_scope.
Open Scope exc_scope.

Example int_of_str_ex1 : int_of_str (lit " +1_0 ") = Ok 10%Z.
Proof. reflexivity. Qed.
Example int_of_str_ex2 : int_of_str (lit "-007") = Ok (-7)%Z.
Proof. reflexivity. Qed.
Example int_of_str_ex3 :
  map (fun s => match int_of_str (lit s) with Ok _ => true | Raise _ => false end)
      ["1__0"; "_1"; "1_"; "+ 1"; "1 2"; ""; " "; "+"; "0x10"; "1.0"; "00"; "1_2_3"]%string
  = [false; false; false; false; false; false; false; false; false; false; true; true].
Proof. reflexivity. Qed.

(** ** The text sanitizer (the same function in both files) *)

Module Sanitizer.

(** The class [[\x00-\x09\x0B\x0C\x0E-\x1F\x7F-\x9F]]. *)
Definition is_control (c : char) : bool :=
  (between 0 9 c || N.eqb c 11 || N.eqb c 12 || between 14 31 c
   || between 127 159 c)%N%bool.

(** [re.sub(r'[\x00-\x09\x0B\x0C\x0E-\x1F\x7F-\x9F]', '', json_str)] *)
Definition remove_control (json_str : str) : str :=
  filter (fun c => negb (is_control c)) json_str.

(** The inner function of [sanitize_json_string]: [match.group(1)] with
    its three replacements, between two quotes. *)
Definition clean_string_value (value : str) : str :=
  let value := replace_char newline (lit "\n") value in
  let value := replace_char tab (lit "\t") value in
  let value := replace_char creturn (lit "\r") value in
  dquote :: value ++ [dquote].

(** A match of the string-literal pattern (a quote, a greedy run of escape
    pairs [\\.] and of characters other than quote and backslash, a
    quote), taken just after its opening quote: group 1 and the text after
    the closing quote.  Each step of the star is forced
    by the next character (a backslash takes the character after it, which
    [.] refuses when it is a newline; any other character but the quote
    goes alone), so the match ends at the first quote outside an escape and
    backtracking cannot find another one. *)
Fixpoint literal_body (s : str) : option (str * str) :=
  match s with
  | [] => None
  | c :: r =>
      if N.eqb c dquote then Some ([], r)
      else if N.eqb c backslash then
        match r with
        | d :: r' =>
            if N.eqb d newline then None
            else match literal_body r' with
                 | Some (v, rest) => Some (c :: d :: v, rest)
                 | None => None
                 end
        | [] => None
        end
      else match literal_body r with
           | Some (v, rest) => Some (c :: v, rest)
           | None => None
           end
  end.

(** The pattern tried at the head of [s]. *)
Definition match_literal (s : str) : option (str * str) :=
  match s with
  | c :: r => if N.eqb c dquote then literal_body r else None
  | [] => None
  end.

Lemma literal_body_shorter s v rest :
  literal_body s = Some (v, rest) -> (List.length rest < List.length s)%nat.
Proof.
  revert v rest. induction s as [s IH] using (well_founded_induction
    (Wf_nat.well_founded_ltof _ (@List.length char))).
  unfold Wf_nat.ltof in IH. intros v rest H. destruct s as [|c r]; [discriminate|].
  simpl in H. destruct (N.eqb c dquote).
  - inversion H; subst. simpl. lia.
  - destruct (N.eqb c backslash).
    + destruct r as [|d r']; [discriminate|].
      destruct (N.eqb d newline); [discriminate|].
      destruct (literal_body r') as [[v' rest']|] eqn:E; [|discriminate].
      inversion H; subst. apply IH in E; simpl in *; lia.
    + destruct (literal_body r) as [[v' rest']|] eqn:E; [|discriminate].
      inversion H; subst. apply IH in E; simpl in *; lia.
Qed.

Lemma match_literal_shorter s v rest :
  match_literal s = Some (v, rest) -> (List.length rest < List.length s)%nat.
Proof.
  destruct s as [|c r]; simpl; [discriminate|].
  destruct (N.eqb c dquote); [|discriminate].
  intros H. apply literal_body_shorter in H. lia.
Qed.

(** [re.sub] of the string-literal pattern with [clean_string_value]: the
    leftmost match is replaced and the scan goes on after it; where the
    pattern does not match, the character is kept. *)
Equations? sub_literals (s : str) : str by wf (List.length s) lt :=
  sub_literals [] := [];
  sub_literals (c :: r) with inspect (match_literal (c :: r)) := {
    | exist _ (Some (v, rest)) _ => clean_string_value v ++ sub_literals rest;
    | exist _ None _ => c :: sub_literals r }.
Proof.
  apply (match_literal_shorter (c :: r) e).
Qed.

Definition sanitize_json_string (json_str : str) : str :=
  let json_str := remove_control json_str in
  sub_literals json_str.

End Sanitizer.
Export Sanitizer.

Example sanitize_ex1 :
  sanitize_json_string ([dquote] ++ lit "a" ++ [newline] ++ lit "b" ++ [dquote])
  = [dquote] ++ lit "a\nb" ++ [dquote].
Proof. reflexivity. Qed.

(** ** json.loads

    A model of the library function as CPython's C scanner behaves (strict
    mode, the constants [NaN], [Infinity] and [-Infinity] accepted), in two
    passes: the text is cut into tokens, then a stack automaton builds the
    value.  A failure is a [JSONDecodeError]; limits of the interpreter
    (recursion depth, length of integer literals) are outside the model. *)

Module Json.

Inductive token :=
| TLBrace | TRBrace | TLBracket | TRBracket | TColon | TComma
| TAtom (v : value).

Definition is_json_space (c : char) : bool :=
  (N.eqb c 32 || N.eqb c 9 || N.eqb c 10 || N.eqb c 13)%N%bool.

(** *** Strings *)

Definition hex_value (c : char) : option N :=
  if between 48 57 c then Some (c - 48)%N
  else if between 97 102 c then Some (c - 87)%N
  else if between 65 70 c then Some (c - 55)%N
  else None.

Definition hex4 (a b c d : char) : option N :=
  match hex_value a, hex_value b, hex_value c, hex_value d with
  | Some x, Some y, Some z, Some w => Some (((x * 16 + y) * 16 + z) * 16 + w)%N
  | _, _, _, _ => None
  end.

(** The character of [\c] for the one-letter escapes. *)
Definition simple_escape (c : char) : option char :=
  (if N.eqb c 34 then Some 34          (* quote *)
   else if N.eqb c 92 then Some 92     (* backslash *)
   else if N.eqb c 47 then Some 47     (* slash *)
   else if N.eqb c 98 then Some 8      (* b *)
   else if N.eqb c 102 then Some 12    (* f *)
   else if N.eqb c 110 then Some 10    (* n *)
   else if N.eqb c 114 then Some 13    (* r *)
   else if N.eqb c 116 then Some 9     (* t *)
   else None)%N.

Definition consed (c : char) (r : option (str * str)) : option (str * str) :=
  match r with
  | Some (v, rest) => Some (c :: v, rest)
  | None => None
  end.

(** Four hexadecimal digits at the head of [s]. *)
Definition take_hex4 (s : str) : option (N * str) :=
  match s with
  | a :: b :: c :: d :: r =>
      match hex4 a b c d with
      | Some u => Some (u, r)
      | None => None
      end
  | _ => None
  end.

(** After [\u]: the code point, a surrogate pair being joined. *)
Definition scan_unicode (s : str) : option (char * str) :=
  match take_hex4 s with
  | None => None
  | Some (uni, r2) =>
      if between 55296 56319 uni then                 (* high surrogate *)
        match r2 with
        | x :: y :: r2' =>
            if (N.eqb x backslash && N.eqb y 117)%bool then
              match take_hex4 r2' with
              | None => None
              | Some (uni2, r3) =>
                  if between 56320 57343 uni2
                  then Some (65536 + (uni - 55296) * 1024 + (uni2 - 56320), r3)%N
                  else Some (uni, r2)
              end
            else Some (uni, r2)
        | _ => Some (uni, r2)
        end
      else Some (uni, r2)
  end.

(** After a backslash. *)
Definition scan_escape (s : str) : option (char * str) :=
  match s with
  | [] => None
  | e :: r =>
      if N.eqb e 117 then scan_unicode r
      else match simple_escape e with
           | Some x => Some (x, r)
           | None => None
           end
  end.

(** One step inside a string: its closing quote, one character of its
    value, or an error (a wrong escape, the end of the text). *)
Inductive scanned :=
| Closing (rest : str)
| Char (x : char) (rest : str)
| Bad.

Definition scan_char (s : str) : scanned :=
  match s with
  | [] => Bad
  | c :: r =>
      if N.eqb c dquote then Closing r
      else if N.eqb c backslash then
        match scan_escape r with
        | Some (x, rest) => Char x rest
        | None => Bad
        end
      else Char c r
  end.

Lemma take_hex4_length s u r :
  take_hex4 s = Some (u, r) -> List.length s = (4 + List.length r)%nat.
Proof.
  unfold take_hex4. destruct s as [|a [|b [|c [|d r']]]]; try discriminate.
  destruct (hex4 a b c d); [|discriminate].
  intros H; inversion H; subst. reflexivity.
Qed.

Lemma some_pair_snd {A B} (a c : A) (b d : B) :
  Some (a, b) = Some (c, d) -> b = d.
Proof. intros H. inversion H. reflexivity. Qed.

Lemma scan_unicode_shorter s x rest :
  scan_unicode s = Some (x, rest) -> (List.length rest < List.length s)%nat.
Proof.
  unfold scan_unicode.
  destruct (take_hex4 s) as [[uni r2]|] eqn:E; [|discriminate].
  apply take_hex4_length in E.
  assert (K : forall c, Some (c, r2) = Some (x, rest) ->
              (List.length rest < List.length s)%nat).
  { intros c H. apply some_pair_snd in H. subst. lia. }
  destruct (between 55296 56319 uni); [|apply K].
  destruct r2 as [|x0 [|y0 r2']]; try apply K.
  destruct (N.eqb x0 backslash && N.eqb y0 117)%bool; [|apply K].
  destruct (take_hex4 r2') as [[uni2 r3]|] eqn:E2; [|discriminate].
  apply take_hex4_length in E2.
  destruct (between 56320 57343 uni2); [|apply K].
  intros H. apply some_pair_snd in H. subst. cbn [List.length] in E. lia.
Qed.

Lemma scan_char_shorter s x rest :
  scan_char s = Char x rest -> (List.length rest < List.length s)%nat.
Proof.
  unfold scan_char. destruct s as [|c r]; [discriminate|].
  destruct (N.eqb c dquote); [discriminate|].
  destruct (N.eqb c backslash).
  - destruct (scan_escape r) as [[x0 rest0]|] eqn:E; [|discriminate].
    intros H; inversion H; subst. unfold scan_escape in E.
    destruct r as [|e r1]; [discriminate|].
    destruct (N.eqb e 117).
    + apply scan_unicode_shorter in E. simpl. lia.
    + destruct (simple_escape e); [|discriminate].
      inversion E; subst. simpl. lia.
  - intros H; inversion H; subst. simpl. lia.
Qed.

(** The characters of a string, decoded, up to its closing quote, and the
    text after that quote. *)
Equations? scan_string (s : str) : option (str * str) by wf (List.length s) lt :=
  scan_string s with inspect (scan_char s) := {
    | exist _ (Closing rest) _ => Some ([], rest);
    | exist _ (Char x rest) _ => consed x (scan_string rest);
    | exist _ Bad _ => None }.
Proof.
  apply (scan_char_shorter s e).
Qed.

(** The extent of the string whose opening quote has just been read: the
    text up to the first quote that no backslash escapes, and the text after
    that quote. *)
Fixpoint raw_string (s : str) : option (str * str) :=
  match s with
  | [] => None
  | c :: r =>
      if N.eqb c dquote then Some ([], r)
      else if N.eqb c backslash then
        match r with
        | d :: r' => consed c (consed d (raw_string r'))
        | [] => None
        end
      else consed c (raw_string r)
  end.

(** The value of a string from the text between its quotes: strict mode
    refuses a control character, and the escapes have to be right. *)
Definition decode_string (raw : str) : option str :=
  if existsb (fun c => N.ltb c 32) raw then None
  else match scan_string (raw ++ [dquote]) with
       | Some (v, []) => Some v
       | _ => None
       end.

(** The string whose opening quote has just been read. *)
Definition string_token (s : str) : option (str * str) :=
  match raw_string s with
  | Some (raw, rest) =>
      match decode_string raw with
      | Some v => Some (v, rest)
      | None => None
      end
  | None => None
  end.

(** *** Numbers *)

Fixpoint span_digits (s : str) : str * str :=
  match s with
  | c :: r =>
      if is_ascii_digit c
      then let '(ds, rest) := span_digits r in (c :: ds, rest)
      else ([], s)
  | [] => ([], [])
  end.

Definition digits_value (ds : str) : N :=
  fold_left (fun acc c => (10 * acc + (c - 48))%N) ds 0%N.

(** [n / d] rounded to the nearest integer, ties to even. *)
Definition round_half_even (n d : Z) : Z :=
  let q := (n / d)%Z in
  match (2 * (n mod d) ?= d)%Z with
  | Lt => q
  | Gt => (q + 1)%Z
  | Eq => if Z.even q then q else (q + 1)%Z
  end.

(** [float(...)] of the decimal [digits * 10^e10]: the nearest binary64
    number, ties to even, an infinity past the largest one. *)
Definition float_of_decimal (neg : bool) (digits : N) (e10 : Z) : pyfloat :=
  if N.eqb digits 0 then FFin neg 0 0
  else
    let num := (if 0 <=? e10 then Z.of_N digits * 10 ^ e10 else Z.of_N digits)%Z in
    let den := (if 0 <=? e10 then 1 else 10 ^ (- e10))%Z in
    let k := (Z.log2 num - Z.log2 den)%Z in
    let above := (if 0 <=? k then den * 2 ^ k <=? num
                  else den <=? num * 2 ^ (- k))%Z in
    let lg := (if above then k else k - 1)%Z in
    let e := Z.max (lg - 52) (-1074) in
    let q := (if 0 <=? e then round_half_even num (den * 2 ^ e)
              else round_half_even (num * 2 ^ (- e)) den)%Z in
    let '(q, e) := (if 2 ^ 53 <=? q then (q / 2, e + 1) else (q, e))%Z in
    if (q =? 0)%Z then FFin neg 0 0
    else if (971 <? e)%Z then FInf neg
    else FFin neg (Z.to_N q) e.

(** An optional minus sign. *)
Definition opt_minus (s : str) : bool * str :=
  match s with
  | c :: r => if N.eqb c 45 then (true, r) else (false, s)
  | [] => (false, s)
  end.

(** The integer part: [0], or a digit from 1 to 9 followed by digits. *)
Definition int_part (s : str) : option (str * str) :=
  match s with
  | c :: r =>
      if N.eqb c 48 then Some ([c], r)
      else if between 49 57 c
           then let '(ds, rest) := span_digits r in Some (c :: ds, rest)
           else None
  | [] => None
  end.

(** The optional fraction: a dot and at least one digit. *)
Definition frac_part (s : str) : str * str :=
  match s with
  | c :: r =>
      if N.eqb c 46 then
        match span_digits r with
        | ([], _) => ([], s)
        | (fs, rest) => (fs, rest)
        end
      else ([], s)
  | [] => ([], s)
  end.

(** The optional exponent: [e] or [E], an optional sign, at least one
    digit. *)
Definition exp_part (s : str) : option Z * str :=
  match s with
  | c :: r =>
      if (N.eqb c 101 || N.eqb c 69)%bool then
        let '(eneg, r') := opt_sign r in
        match span_digits r' with
        | ([], _) => (None, s)
        | (es, rest) =>
            let x := Z.of_N (digits_value es) in
            (Some (if eneg then - x else x)%Z, rest)
        end
      else (None, s)
  | [] => (None, s)
  end.

(** Without fraction and exponent the number is an [int], else a
    [float]. *)
Definition number_value (neg : bool) (ip frac : str) (expo : option Z) : value :=
  match frac, expo with
  | [], None =>
      let n := Z.of_N (digits_value ip) in
      VInt (if neg then - n else n)%Z
  | _, _ =>
      let x := match expo with Some x => x | None => 0%Z end in
      VFloat (float_of_decimal neg (digits_value (ip ++ frac))
                (x - Z.of_nat (List.length frac)))
  end.

(** The number at the head of [s]. *)
Definition scan_number (s : str) : option (value * str) :=
  let '(neg, s1) := opt_minus s in
  match int_part s1 with
  | None => None
  | Some (ip, s2) =>
      let '(frac, s3) := frac_part s2 in
      let '(expo, s4) := exp_part s3 in
      Some (number_value neg ip frac expo, s4)
  end.

(** *** Tokens *)

Definition keyword (name : string) (v : value) (s : str)
  : option (token * str) :=
  match strip_prefix (lit name) s with
  | Some rest => Some (TAtom v, rest)
  | None => None
  end.

Definition first_of {A} (a b : option A) : option A :=
  match a with
  | Some _ => a
  | None => b
  end.

(** The token at the head of [s], which does not start with white space. *)
Definition lex1 (s : str) : option (token * str) :=
  match s with
  | [] => None
  | c :: r =>
      if N.eqb c dquote then
        match string_token r with
        | Some (v, rest) => Some (TAtom (VStr v), rest)
        | None => None
        end
      else if N.eqb c 123 then Some (TLBrace, r)
      else if N.eqb c 125 then Some (TRBrace, r)
      else if N.eqb c 91 then Some (TLBracket, r)
      else if N.eqb c 93 then Some (TRBracket, r)
      else if N.eqb c 58 then Some (TColon, r)
      else if N.eqb c 44 then Some (TComma, r)
      else
        first_of (keyword "null" VNone s)
        (first_of (keyword "true" (VBool true) s)
        (first_of (keyword "false" (VBool false) s)
        (first_of (match scan_number s with
                   | Some (v, rest) => Some (TAtom v, rest)
                   | None => None
                   end)
        (first_of (keyword "NaN" (VFloat FNan) s)
        (first_of (keyword "Infinity" (VFloat (FInf false)) s)
                  (keyword "-Infinity" (VFloat (FInf true)) s))))))
  end.

(** *** Every token takes at least one character *)

Lemma strip_prefix_length p a r :
  strip_prefix p a = Some r -> List.length a = (List.length p + List.length r)%nat.
Proof.
  revert a. induction p as [|x p IH]; intros a H; simpl in *.
  - inversion H; reflexivity.
  - destruct a as [|y a]; [discriminate|].
    destruct (N.eqb x y); [|discriminate].
    apply IH in H. simpl. lia.
Qed.

Lemma scan_char_closing s rest :
  scan_char s = Closing rest -> s = dquote :: rest.
Proof.
  unfold scan_char. destruct s as [|c r]; [discriminate|].
  destruct (N.eqb c dquote) eqn:Ec.
  - intros H; inversion H; subst. apply N.eqb_eq in Ec. subst. reflexivity.
  - destruct (N.eqb c backslash).
    + destruct (scan_escape r) as [[? ?]|]; discriminate.
    + discriminate.
Qed.

Lemma scan_string_shorter s v rest :
  scan_string s = Some (v, rest) -> (List.length rest < List.length s)%nat.
Proof.
  revert v rest. funelim (scan_string s); intros v rest0 Hs.
  - inversion Hs; subst. clear - e. apply scan_char_closing in e. subst. simpl. lia.
  - destruct (scan_string rest) as [[v' rest']|] eqn:E; [|discriminate].
    simpl in Hs. inversion Hs; subst.
    match goal with
    | IH : forall _ _, Some _ = Some _ -> _ |- _ => specialize (IH _ _ eq_refl)
    end.
    pose proof (scan_char_shorter _ e). lia.
  - discriminate.
Qed.

Lemma span_digits_length s :
  List.length s
  = (List.length (fst (span_digits s)) + List.length (snd (span_digits s)))%nat.
Proof.
  induction s as [|c r IH]; simpl; [reflexivity|].
  destruct (is_ascii_digit c); [|reflexivity].
  destruct (span_digits r) as [ds rest]; simpl in *. lia.
Qed.

Lemma opt_sign_length s :
  (List.length (snd (opt_sign s)) <= List.length s)%nat.
Proof.
  destruct s as [|c r]; simpl; [lia|].
  destruct (N.eqb c 45); [simpl; lia|].
  destruct (N.eqb c 43); simpl; lia.
Qed.

Lemma opt_minus_length s :
  (List.length (snd (opt_minus s)) <= List.length s)%nat.
Proof.
  destruct s as [|c r]; simpl; [lia|]. destruct (N.eqb c 45); simpl; lia.
Qed.

Lemma int_part_shorter s ip rest :
  int_part s = Some (ip, rest) -> (List.length rest < List.length s)%nat.
Proof.
  destruct s as [|c r]; simpl; [discriminate|].
  destruct (N.eqb c 48); [intros H; inversion H; subst; lia|].
  destruct (between 49 57 c); [|discriminate].
  pose proof (span_digits_length r) as L.
  destruct (span_digits r) as [ds rest0]; simpl in L.
  intros H; inversion H; subst. lia.
Qed.

Lemma frac_part_length s :
  (List.length (snd (frac_part s)) <= List.length s)%nat.
Proof.
  destruct s as [|c r]; simpl; [lia|].
  destruct (N.eqb c 46); simpl; [|lia].
  pose proof (span_digits_length r) as L.
  destruct (span_digits r) as [[|f fs] rest0]; simpl in *; lia.
Qed.

Lemma exp_part_length s :
  (List.length (snd (exp_part s)) <= List.length s)%nat.
Proof.
  destruct s as [|c r]; simpl; [lia|].
  destruct (N.eqb c 101 || N.eqb c 69)%bool; simpl; [|lia].
  pose proof (opt_sign_length r) as L1.
  destruct (opt_sign r) as [eneg r']; simpl in L1.
  pose proof (span_digits_length r') as L.
  destruct (span_digits r') as [[|f fs] rest0]; simpl in *; lia.
Qed.

Lemma scan_number_shorter s v rest :
  scan_number s = Some (v, rest) -> (List.length rest < List.length s)%nat.
Proof.
  unfold scan_number. pose proof (opt_minus_length s) as L1.
  destruct (opt_minus s) as [neg s1]; simpl in L1.
  destruct (int_part s1) as [[ip s2]|] eqn:E; [|discriminate].
  apply int_part_shorter in E.
  pose proof (frac_part_length s2) as L3.
  destruct (frac_part s2) as [frac s3]; simpl in L3.
  pose proof (exp_part_length s3) as L4.
  destruct (exp_part s3) as [expo s4]; simpl in L4.
  intros H. apply some_pair_snd in H. subst. lia.
Qed.

Lemma raw_string_shorter s raw rest :
  raw_string s = Some (raw, rest) -> (List.length rest < List.length s)%nat.
Proof.
  revert raw rest. induction s as [s IH] using (well_founded_induction
    (Wf_nat.well_founded_ltof _ (@List.length char))).
  unfold Wf_nat.ltof in IH. intros raw rest H.
  destruct s as [|c r]; [discriminate|]. simpl in H.
  destruct (N.eqb c dquote); [inversion H; subst; simpl; lia|].
  destruct (N.eqb c backslash).
  - destruct r as [|d r']; [discriminate|].
    destruct (raw_string r') as [[raw' rest']|] eqn:E; [|discriminate].
    simpl in H. inversion H; subst. apply IH in E; simpl in *; lia.
  - destruct (raw_string r) as [[raw' rest']|] eqn:E; [|discriminate].
    simpl in H. inversion H; subst. apply IH in E; simpl in *; lia.
Qed.

Lemma string_token_shorter s v rest :
  string_token s = Some (v, rest) -> (List.length rest < List.length s)%nat.
Proof.
  unfold string_token.
  destruct (raw_string s) as [[raw rest0]|] eqn:E; [|discriminate].
  destruct (decode_string raw); [|discriminate].
  intros H; inversion H; subst. apply raw_string_shorter in E. exact E.
Qed.

Lemma keyword_shorter name v s t rest :
  keyword name v s = Some (t, rest) -> lit name <> [] ->
  (List.length rest < List.length s)%nat.
Proof.
  unfold keyword. intros H Hn.
  destruct (strip_prefix (lit name) s) as [r|] eqn:E; [|discriminate].
  inversion H; subst. apply strip_prefix_length in E.
  destruct (lit name); [congruence|]. simpl in E. lia.
Qed.

Lemma lex1_shorter s t rest :
  lex1 s = Some (t, rest) -> (List.length rest < List.length s)%nat.
Proof.
  destruct s as [|c r]; [discriminate|]. unfold lex1.
  destruct (N.eqb c dquote).
  { destruct (string_token r) as [[v rest0]|] eqn:E; [|discriminate].
    intros H; inversion H; subst. apply string_token_shorter in E. simpl. lia. }
  repeat match goal with
         | |- (if ?b then Some (_, r) else _) = _ -> _ =>
             destruct b; [intros H; inversion H; subst; simpl; lia|]
         end.
  unfold first_of.
  repeat match goal with
         | |- match keyword ?n ?v ?s with _ => _ end = _ -> _ =>
             let E := fresh "E" in
             destruct (keyword n v s) as [[? ?]|] eqn:E;
             [intros H; inversion H; subst;
              apply keyword_shorter in E; [exact E|discriminate] |]
         | |- match match scan_number ?s with _ => _ end with _ => _ end = _ -> _ =>
             let E := fresh "E" in
             destruct (scan_number s) as [[? ?]|] eqn:E;
             [intros H; inversion H; subst;
              apply scan_number_shorter in E; exact E |]
         end.
  intros E'. apply keyword_shorter in E'; [exact E'|discriminate].
Qed.

(** *** The two passes *)

(** The tokens of a text, [None] when some character starts no token. *)
Equations? tokenize (s : str) : option (list token) by wf (List.length s) lt :=
  tokenize [] := Some [];
  tokenize (c :: r) with inspect (is_json_space c) := {
    | exist _ true _ => tokenize r;
    | exist _ false _ with inspect (lex1 (c :: r)) := {
        | exist _ (Some (t, rest)) _ =>
            match tokenize rest with
            | Some ts => Some (t :: ts)
            | None => None
            end;
        | exist _ None _ => None } }.
Proof.
  apply (lex1_shorter (c :: r) e0).
Qed.

(** An open container: the elements read so far, and for a dict the key
    whose value is being read. *)
Inductive frame :=
| InList (items : list value)
| InDict (entries : dict) (key : str).

(** What the automaton waits for. *)
Inductive pstate :=
| PValue (stack : list frame)                 (* a value *)
| PListOpen (stack : list frame)              (* a value or the closing bracket *)
| PDictOpen (stack : list frame)              (* a key or the closing brace *)
| PKey (entries : dict) (stack : list frame)  (* a key *)
| PColon (entries : dict) (key : str) (stack : list frame)
| PListNext (items : list value) (stack : list frame)   (* comma or bracket *)
| PDictNext (entries : dict) (stack : list frame)       (* comma or brace *)
| PDone (v : value).

(** The value [v] is complete below [stack]. *)
Definition reduce (v : value) (stack : list frame) : pstate :=
  match stack with
  | [] => PDone v
  | InList items :: stack' => PListNext (items ++ [v]) stack'
  | InDict entries key :: stack' => PDictNext (dict_set entries key v) stack'
  end.

Definition start_value (stack : list frame) (t : token) : option pstate :=
  match t with
  | TAtom v => Some (reduce v stack)
  | TLBracket => Some (PListOpen stack)
  | TLBrace => Some (PDictOpen stack)
  | _ => None
  end.

Definition step (st : pstate) (t : token) : option pstate :=
  match st, t with
  | PValue stack, _ => start_value stack t
  | PListOpen stack, TRBracket => Some (reduce (VList []) stack)
  | PListOpen stack, _ => start_value (InList [] :: stack) t
  | PDictOpen stack, TRBrace => Some (reduce (VDict []) stack)
  | PDictOpen stack, TAtom (VStr k) => Some (PColon [] k stack)
  | PKey entries stack, TAtom (VStr k) => Some (PColon entries k stack)
  | PColon entries k stack, TColon => Some (PValue (InDict entries k :: stack))
  | PListNext items stack, TComma => Some (PValue (InList items :: stack))
  | PListNext items stack, TRBracket => Some (reduce (VList items) stack)
  | PDictNext entries stack, TComma => Some (PKey entries stack)
  | PDictNext entries stack, TRBrace => Some (reduce (VDict entries) stack)
  | _, _ => None
  end.

Fixpoint run (st : pstate) (ts : list token) : option pstate :=
  match ts with
  | [] => Some st
  | t :: ts' =>
      match step st t with
      | Some st' => run st' ts'
      | None => None
      end
  end.

Definition parse_tokens (ts : list token) : option value :=
  match run (PValue []) ts with
  | Some (PDone v) => Some v
  | _ => None
  end.

(** [json.loads(s)] *)
Definition json_loads (s : str) : exc value :=
  match tokenize s with
  | Some ts =>
      match parse_tokens ts with
      | Some v => Ok v
      | None => raise JSONDecodeError "Expecting value"
      end
  | None => raise JSONDecodeError "Expecting value"
  end.

End Json.
Export Json.

Example json_loads_ex1 :
  json_loads (lit "{" ++ [dquote] ++ lit "a" ++ [dquote] ++ lit ": [1, -2.5e0, true, null], "
              ++ [dquote] ++ lit "a" ++ [dquote] ++ lit ":4.99999999999999999999}")
  = Ok (VDict [(lit "a", VFloat (FFin false 5629499534213120 (-50)))]).
Proof. vm_compute. reflexivity. Qed.
Example json_loads_ex2 :
  map (fun s => match json_loads (lit s) with Ok _ => true | Raise _ => false end)
      ["[1,]"; "01"; "-"; "1."; ".5"; "nul"; "true false"; ""; "  "; "[[]]"; "{}";
       " [ 1 , 2 ] "; "-Infinity"; "NaN"; "1e400"; "-0"; "[1 2]"; "[,1]"; "{1:2}"]%string
  = [false; false; false; false; false; false; false; false; false; true; true;
     true; true; true; true; true; false; false; false].
Proof. vm_compute. reflexivity. Qed.
Example json_loads_ex3 :
  json_loads (lit "[1.5e3, 1e400, -0.0, 5e-324, 2.5e-324, 1e-400, 0.1]")
  = Ok (VList [VFloat (FFin false 6597069766656000 (-42)); VFloat (FInf false);
               VFloat (FFin true 0 0); VFloat (FFin false 1 (-1074));
               VFloat (FFin false 1 (-1074)); VFloat (FFin false 0 0);
               VFloat (FFin false 7205759403792794 (-56))]).
Proof. vm_compute. reflexivity. Qed.

Example json_loads_ex4 :
  map (fun s => match json_loads ([dquote] ++ lit s ++ [dquote]) with
                | Ok (VStr v) => Some v
                | _ => None
                end)
      ["\ud83d\ude00"; "\ud83d"; "\ud83dx"; "\ud83d\u0041"; "\/"; "\x";
       "\u00e9"; "\u00E9"; "\u 0e9"; "\u+123"; "a\"; "\ud83d\u"]%string
  = [Some [128512]; Some [55357]; Some [55357; 120]; Some [55357; 65];
     Some [47]; None; Some [233]; Some [233]; None; None; None; None]%N.
Proof. vm_compute. reflexivity. Qed.
Example json_loads_ex5 :
  json_loads ([dquote; 127; dquote])%N = Ok (VStr [127%N])
  /\ (exists e, json_loads [dquote; tab; dquote] = Raise e)
  /\ json_loads ([tab] ++ lit "1" ++ [newline]) = Ok (VInt 1)
  /\ (exists e, json_loads (11%N :: lit "1") = Raise e).
Proof. vm_compute. repeat split; eexists; reflexivity. Qed.

(** ** What both analyzers share *)

Module Common.

(** A chat message: [SystemMessage(content=...)] or
    [HumanMessage(content=...)]. *)
Inductive role := System | Human.
Definition message := (role * str)%type.

(** What [self.initialize_chat_model()] followed by
    [chat_model.invoke(prompt)] comes to: a response with its [content],
    or an exception (below [Exception]) raised on the way. *)
Inductive reply :=
| Replied (content : str)
| Failed (e : exn).

Definition q : str := [dquote].
Definition nl : str := [newline].

Definition required_sections : list str :=
  map lit ["OriginalUserStory"; "ImprovedUserStory"; "Independent";
           "Negotiable"; "Valuable"; "Estimable"; "Small"; "Testable";
           "overall"]%string.

Definition criteria : list str :=
  map lit ["Independent"; "Negotiable"; "Valuable"; "Estimable"; "Small";
           "Testable"]%string.

Definition story_sections : list str :=
  map lit ["OriginalUserStory"; "ImprovedUserStory"]%string.

(** [x in names] for a list of strings. *)
Definition str_in (x : str) (names : list str) : bool :=
  existsb (str_eqb x) names.

Definition empty_story : value :=
  VDict [(lit "Title", VStr []); (lit "Description", VStr []);
         (lit "AcceptanceCriteria", VList []);
         (lit "AdditionalInformation", VStr [])].

(** [result[section][field]] *)
Definition get_field (result : value) (section field : str) : exc value :=
  sec <- py_getitem result section ;;
  py_getitem sec field.

(** [result[section][field] = v]: the dict [result[section]] is updated
    in place, which is rendered by storing it back into [result]. *)
Definition set_field (result : value) (section field : str) (v : value)
  : exc value :=
  sec <- py_getitem result section ;;
  sec' <- py_setitem sec field v ;;
  py_setitem result section sec'.

(** [field not in result[section] or
     not isinstance(result[section][field], (int, float))] *)
Definition missing_or_not_number (result : value) (section field : str)
  : exc bool :=
  sec <- py_getitem result section ;;
  present <- py_in field sec ;;
  if negb present then Ok true
  else v <- get_field result section field ;;
       Ok (negb (is_number v)).

(** An [int] read back from [result]; the analyzers read this way only
    fields in which they have just stored an [int]. *)
Definition int_value (v : value) : exc Z :=
  match v with
  | VInt n => Ok n
  | _ => raise TypeError "unsupported operand type"
  end.

(** [sum(result[c][field] for c in names)] *)
Fixpoint sum_fields (result : value) (field : str) (names : list str)
  : exc Z :=
  match names with
  | [] => Ok 0%Z
  | c :: names' =>
      n <- (v <- get_field result c field ;; int_value v) ;;
      rest <- sum_fields result field names' ;;
      Ok (n + rest)%Z
  end.

(** A [for] loop over [names] whose body updates [result]. *)
Fixpoint for_each (names : list str) (body : value -> str -> exc value)
  (result : value) : exc value :=
  match names with
  | [] => Ok result
  | x :: names' =>
      result' <- body result x ;;
      for_each names' body result'
  end.

(** [isinstance(e, cls)] for the two classes of an [except] clause;
    [JSONDecodeError] derives from [ValueError]. *)
Definition is_value_or_type_error (e : exn) : bool :=
  match exn_class_of e with
  | ValueError | JSONDecodeError | TypeError => true
  | _ => false
  end.

End Common.
Export Common.

(** ** ReRefine.py: the guided analyzer *)

Module ReRefine.

Definition system_text : str :=
  lit "You are an expert agile coach specializing in analyzing user stories using the INVEST criteria. " ++ nl
  ++ lit "Your task is twofold:" ++ nl
  ++ lit "1. Analyze the original user story and calculate its INVEST score." ++ nl
  ++ lit "2. Create an improved version and provide a detailed refinement summary, considering the provided refinement guidance." ++ nl
  ++ nl
  ++ lit "Follow this structured approach:" ++ nl
  ++ lit "- Extract the original components (Title, Description, AcceptanceCriteria, AdditionalInformation)." ++ nl
  ++ lit "- Score the original story against each INVEST criterion (1-5 scale), considering all provided details accurately." ++ nl
  ++ lit "- Identify specific weaknesses in the original story." ++ nl
  ++ lit "- Create an improved version addressing those weaknesses, incorporating the aspects to enhance and additional context provided." ++ nl
  ++ lit "- If the aspects to enhance or additional context indicate " ++ q ++ lit "No specific aspects provided." ++ q ++ lit " or " ++ q ++ lit "No additional context provided." ++ q ++ lit ", perform a general refinement of the user story based on the INVEST criteria, focusing on common areas of improvement such as clarity, testability, and estimability." ++ nl
  ++ lit "- Re-score each INVEST criterion for the improved user story (1-5 scale)." ++ nl
  ++ lit "- Calculate the improved INVEST score by summing the improved scores." ++ nl
  ++ lit "- Generate a detailed refinement summary comparing the two versions.".

Definition human_text (user_story aspects_to_enhance additional_context
                       input_score : str) : str :=
  nl
  ++ lit "            # User Story: " ++ user_story ++ nl
  ++ nl
  ++ lit "            ## Refinement Guidance" ++ nl
  ++ nl
  ++ lit "            ### Aspects of the user story to enhance:" ++ nl
  ++ lit "            " ++ aspects_to_enhance ++ nl
  ++ nl
  ++ lit "            ### Additional information or context to consider:" ++ nl
  ++ lit "            " ++ additional_context ++ nl
  ++ nl
  ++ lit "            ## Task Overview" ++ nl
  ++ nl
  ++ lit "            Perform a complete INVEST analysis on the provided user story with these steps:" ++ nl
  ++ nl
  ++ lit "            ### Step 1: Analyze the Original User Story" ++ nl
  ++ lit "            - Extract or identify all components (Title, Description, AcceptanceCriteria, AdditionalInformation)." ++ nl
  ++ lit "            - Score each INVEST criterion (1-5 scale) for the ORIGINAL story AS IS, using all provided details (e.g., evaluate existing acceptance criteria accurately)." ++ nl
  ++ lit "            - The user has provided an input score of " ++ input_score ++ lit "/30 for the original story. Use this as the baseline for comparison, but still provide your own scoring for each criterion based on your analysis." ++ nl
  ++ nl
  ++ lit "            ### Step 2: Create an Improved Version" ++ nl
  ++ lit "            - Generate an improved user story (Title, Description, AcceptanceCriteria, AdditionalInformation) addressing each weakness." ++ nl
  ++ lit "            - Consider the aspects to enhance and additional context provided to guide the refinement." ++ nl
  ++ lit "            - Re-score each INVEST criterion for the IMPROVED version (1-5 scale)." ++ nl
  ++ lit "            - Calculate the new total INVEST score for the improved version by summing the improved scores." ++ nl
  ++ nl
  ++ lit "            ### Step 3: Generate Analysis Output" ++ nl
  ++ lit "            - Include both original and improved user story components." ++ nl
  ++ lit "            - For each INVEST criterion, provide the original score, the improved score, an explanation of the original score, and specific recommendations for improvement." ++ nl
  ++ lit "            - Ensure explanations reflect the actual content (e.g., don" ++ [8217%N] ++ lit "t claim missing acceptance criteria if they" ++ [8217%N] ++ lit "re present)." ++ nl
  ++ nl
  ++ lit "            ### Step 4: Create a Dynamic Refinement Summary" ++ nl
  ++ lit "            - List specific improvements as bullet points (using '*' on new lines)." ++ nl
  ++ lit "            - Include concrete examples of changes between versions." ++ nl
  ++ lit "            - End with " ++ q ++ lit "INVEST Score improved from " ++ input_score ++ lit "/30 to Y/30" ++ q ++ lit ", where Y is the total improved score." ++ nl
  ++ nl
  ++ lit "            ## Response Format:" ++ nl
  ++ nl
  ++ lit "            Return a structured JSON:" ++ nl
  ++ nl
  ++ lit "            {" ++ nl
  ++ lit "              " ++ q ++ lit "OriginalUserStory" ++ q ++ lit ": {" ++ nl
  ++ lit "                " ++ q ++ lit "Title" ++ q ++ lit ": " ++ q ++ lit "string" ++ q ++ lit "," ++ nl
  ++ lit "                " ++ q ++ lit "Description" ++ q ++ lit ": " ++ q ++ lit "string" ++ q ++ lit "," ++ nl
  ++ lit "                " ++ q ++ lit "AcceptanceCriteria" ++ q ++ lit ": [" ++ q ++ lit "string" ++ q ++ lit ", ...]," ++ nl
  ++ lit "                " ++ q ++ lit "AdditionalInformation" ++ q ++ lit ": " ++ q ++ lit "string" ++ q ++ nl
  ++ lit "              }," ++ nl
  ++ lit "              " ++ q ++ lit "ImprovedUserStory" ++ q ++ lit ": {" ++ nl
  ++ lit "                " ++ q ++ lit "Title" ++ q ++ lit ": " ++ q ++ lit "string" ++ q ++ lit "," ++ nl
  ++ lit "                " ++ q ++ lit "Description" ++ q ++ lit ": " ++ q ++ lit "string" ++ q ++ lit "," ++ nl
  ++ lit "                " ++ q ++ lit "AcceptanceCriteria" ++ q ++ lit ": [" ++ q ++ lit "string" ++ q ++ lit ", ...]," ++ nl
  ++ lit "                " ++ q ++ lit "AdditionalInformation" ++ q ++ lit ": " ++ q ++ lit "string" ++ q ++ nl
  ++ lit "              }," ++ nl
  ++ lit "              " ++ q ++ lit "Independent" ++ q ++ lit ": {" ++ nl
  ++ lit "                " ++ q ++ lit "score" ++ q ++ lit ": number," ++ nl
  ++ lit "                " ++ q ++ lit "improved_score" ++ q ++ lit ": number," ++ nl
  ++ lit "                " ++ q ++ lit "explanation" ++ q ++ lit ": " ++ q ++ lit "string" ++ q ++ lit "," ++ nl
  ++ lit "                " ++ q ++ lit "recommendation" ++ q ++ lit ": " ++ q ++ lit "string" ++ q ++ nl
  ++ lit "              }," ++ nl
  ++ lit "              " ++ q ++ lit "Negotiable" ++ q ++ lit ": {" ++ nl
  ++ lit "                " ++ q ++ lit "score" ++ q ++ lit ": number," ++ nl
  ++ lit "                " ++ q ++ lit "improved_score" ++ q ++ lit ": number," ++ nl
  ++ lit "                " ++ q ++ lit "explanation" ++ q ++ lit ": " ++ q ++ lit "string" ++ q ++ lit "," ++ nl
  ++ lit "                " ++ q ++ lit "recommendation" ++ q ++ lit ": " ++ q ++ lit "string" ++ q ++ nl
  ++ lit "              }," ++ nl
  ++ lit "              " ++ q ++ lit "Valuable" ++ q ++ lit ": {" ++ nl
  ++ lit "                " ++ q ++ lit "score" ++ q ++ lit ": number," ++ nl
  ++ lit "                " ++ q ++ lit "improved_score" ++ q ++ lit ": number," ++ nl
  ++ lit "                " ++ q ++ lit "explanation" ++ q ++ lit ": " ++ q ++ lit "string" ++ q ++ lit "," ++ nl
  ++ lit "                " ++ q ++ lit "recommendation" ++ q ++ lit ": " ++ q ++ lit "string" ++ q ++ nl
  ++ lit "              }," ++ nl
  ++ lit "              " ++ q ++ lit "Estimable" ++ q ++ lit ": {" ++ nl
  ++ lit "                " ++ q ++ lit "score" ++ q ++ lit ": number," ++ nl
  ++ lit "                " ++ q ++ lit "improved_score" ++ q ++ lit ": number," ++ nl
  ++ lit "                " ++ q ++ lit "explanation" ++ q ++ lit ": " ++ q ++ lit "string" ++ q ++ lit "," ++ nl
  ++ lit "                " ++ q ++ lit "recommendation" ++ q ++ lit ": " ++ q ++ lit "string" ++ q ++ nl
  ++ lit "              }," ++ nl
  ++ lit "              " ++ q ++ lit "Small" ++ q ++ lit ": {" ++ nl
  ++ lit "                " ++ q ++ lit "score" ++ q ++ lit ": number," ++ nl
  ++ lit "                " ++ q ++ lit "improved_score" ++ q ++ lit ": number," ++ nl
  ++ lit "                " ++ q ++ lit "explanation" ++ q ++ lit ": " ++ q ++ lit "string" ++ q ++ lit "," ++ nl
  ++ lit "                " ++ q ++ lit "recommendation" ++ q ++ lit ": " ++ q ++ lit "string" ++ q ++ nl
  ++ lit "              }," ++ nl
  ++ lit "              " ++ q ++ lit "Testable" ++ q ++ lit ": {" ++ nl
  ++ lit "                " ++ q ++ lit "score" ++ q ++ lit ": number," ++ nl
  ++ lit "                " ++ q ++ lit "improved_score" ++ q ++ lit ": number," ++ nl
  ++ lit "                " ++ q ++ lit "explanation" ++ q ++ lit ": " ++ q ++ lit "string" ++ q ++ lit "," ++ nl
  ++ lit "                " ++ q ++ lit "recommendation" ++ q ++ lit ": " ++ q ++ lit "string" ++ q ++ nl
  ++ lit "              }," ++ nl
  ++ lit "              " ++ q ++ lit "overall" ++ q ++ lit ": {" ++ nl
  ++ lit "                " ++ q ++ lit "input_score" ++ q ++ lit ": number," ++ nl
  ++ lit "                " ++ q ++ lit "improved_score" ++ q ++ lit ": number," ++ nl
  ++ lit "                " ++ q ++ lit "summary" ++ q ++ lit ": " ++ q ++ lit "string" ++ q ++ lit "," ++ nl
  ++ lit "                " ++ q ++ lit "refinement_summary" ++ q ++ lit ": " ++ q ++ lit "string with '*' bullets on new lines" ++ q ++ nl
  ++ lit "              }" ++ nl
  ++ lit "            }" ++ nl
  ++ nl
  ++ lit "            IMPORTANT:" ++ nl
  ++ lit "            - Return ONLY raw JSON without markdown or backticks." ++ nl
  ++ lit "            - Ensure scores are integers (1-5), overall scores sum correctly (max 30)." ++ nl
  ++ lit "            - Use the provided input_score (" ++ input_score ++ lit "/30) as the overall.input_score in the response." ++ nl
  ++ lit "            - Use simple '*' bullets on new lines in refinement_summary." ++ nl
  ++ lit "            - Accurately reflect provided acceptance criteria in scoring." ++ nl
  ++ lit "            ".

(** *** The trailing sentence of the refinement summary *)

Fixpoint span_decimal (s : str) : str * str :=
  match s with
  | c :: r =>
      if is_decimal c
      then let '(ds, rest) := span_decimal r in (c :: ds, rest)
      else ([], s)
  | [] => ([], [])
  end.

(** [\d+] at the head of [s]: the text after the digits. *)
Definition some_digits (s : str) : option str :=
  match span_decimal s with
  | ([], _) => None
  | (_ :: _, rest) => Some rest
  end.

(** The pattern [INVEST Score improved from \d+/30 to \d+/30] at the head
    of [s]: the text after the match. *)
Definition match_score (s : str) : option str :=
  match strip_prefix (lit "INVEST Score improved from ") s with
  | None => None
  | Some r1 =>
      match some_digits r1 with
      | None => None
      | Some r2 =>
          match strip_prefix (lit "/30 to ") r2 with
          | None => None
          | Some r3 =>
              match some_digits r3 with
              | None => None
              | Some r4 => strip_prefix (lit "/30") r4
              end
          end
      end
  end.

Lemma span_decimal_length s :
  List.length s
  = (List.length (fst (span_decimal s)) + List.length (snd (span_decimal s)))%nat.
Proof.
  induction s as [|c r IH]; simpl; [reflexivity|].
  destruct (is_decimal c); [|reflexivity].
  destruct (span_decimal r) as [ds rest]; simpl in *. lia.
Qed.

Lemma some_digits_shorter s r :
  some_digits s = Some r -> (List.length r < List.length s)%nat.
Proof.
  unfold some_digits. pose proof (span_decimal_length s) as L.
  destruct (span_decimal s) as [[|d ds] rest]; [discriminate|].
  intros H; inversion H; subst. simpl in L. lia.
Qed.

Lemma match_score_shorter s rest :
  match_score s = Some rest -> (List.length rest < List.length s)%nat.
Proof.
  unfold match_score.
  destruct (strip_prefix _ s) as [r1|] eqn:E1; [|discriminate].
  destruct (some_digits r1) as [r2|] eqn:E2; [|discriminate].
  destruct (strip_prefix _ r2) as [r3|] eqn:E3; [|discriminate].
  destruct (some_digits r3) as [r4|] eqn:E4; [|discriminate].
  intros E5.
  apply strip_prefix_length in E1, E3, E5.
  apply some_digits_shorter in E2, E4. lia.
Qed.

(** [re.sub(score_pattern, repl, s)] *)
Equations? sub_score (repl : str) (s : str) : str by wf (List.length s) lt :=
  sub_score repl [] := [];
  sub_score repl (c :: r) with inspect (match_score (c :: r)) := {
    | exist _ (Some rest) _ => repl ++ sub_score repl rest;
    | exist _ None _ => c :: sub_score repl r }.
Proof.
  apply (match_score_shorter (c :: r) e).
Qed.

(** [re.sub] accepts a [str] only. *)
Definition re_sub_score (repl : str) (current : value) : exc str :=
  match current with
  | VStr s => Ok (sub_score repl s)
  | _ => raise TypeError "expected string or bytes-like object"
  end.

(** The sentence [f"INVEST Score improved from {a}/30 to {b}/30"]. *)
Definition score_sentence (a b : Z) : str :=
  lit "INVEST Score improved from " ++ str_of_int a ++ lit "/30 to "
  ++ str_of_int b ++ lit "/30".

Definition default_criterion : value :=
  VDict [(lit "score", VInt 0); (lit "improved_score", VInt 0);
         (lit "explanation", VStr []); (lit "recommendation", VStr [])].

(** The result of the [except Exception as e] clause. *)
Definition error_result (e : exn) (input_score : Z) : value :=
  VDict [(lit "error", VStr (lit "Analysis failed: " ++ exn_str e));
         (lit "OriginalUserStory", empty_story);
         (lit "ImprovedUserStory", empty_story);
         (lit "Independent", default_criterion);
         (lit "Negotiable", default_criterion);
         (lit "Valuable", default_criterion);
         (lit "Estimable", default_criterion);
         (lit "Small", default_criterion);
         (lit "Testable", default_criterion);
         (lit "overall",
          VDict [(lit "input_score", VInt input_score);
                 (lit "improved_score", VInt 0);
                 (lit "summary", VStr (lit "Error in analysis"));
                 (lit "refinement_summary", VStr [])])].

Section Analyzer.

(** [json.dumps], which serialises a user story that is not a [str]. *)
Variable json_dumps : value -> str.
(** The chat model of the analyzer ([self.chat_model]). *)
Variable chat_model : list message -> reply.

Definition create_analysis_prompt (user_story : value)
  (aspects_to_enhance additional_context : str) (input_score : Z)
  : list message :=
  let user_story := match user_story with
                    | VStr s => s
                    | _ => json_dumps user_story
                    end in
  [(System, system_text);
   (Human, human_text user_story aspects_to_enhance additional_context
             (str_of_int input_score))].

(** The body of the first loop: a missing section gets its default. *)
Definition fill_section (input_score : Z) (result : value) (section : str)
  : exc value :=
  present <- py_in section result ;;
  if negb present then
    if str_in section story_sections then
      py_setitem result section empty_story
    else if str_eqb section (lit "overall") then
      py_setitem result section
        (VDict [(lit "input_score", VInt input_score);
                (lit "improved_score", VInt 0);
                (lit "summary", VStr []);
                (lit "refinement_summary", VStr [])])
    else py_setitem result section default_criterion
  else Ok result.

(** One of the two validations of the second loop, for [field] either
    [score] or [improved_score]. *)
Definition validate_score (field : str) (result : value) (criterion : str)
  : exc value :=
  bad <- missing_or_not_number result criterion field ;;
  if bad then set_field result criterion field (VInt 0)
  else
    match (v <- get_field result criterion field ;;
           score <- py_int v ;;
           set_field result criterion field (VInt (Z.max 1 (Z.min 5 score))))
    with
    | Ok result' => Ok result'
    | Raise e =>
        if is_value_or_type_error e
        then set_field result criterion field (VInt 0)
        else Raise e
    end.

Definition validate_criterion (result : value) (criterion : str)
  : exc value :=
  result <- validate_score (lit "score") result criterion ;;
  validate_score (lit "improved_score") result criterion.

(** The [try] block of [analyze_user_story]. *)
Definition analysis_body (user_story : value)
  (aspects_to_enhance additional_context : str) (input_score : Z)
  : exc value :=
  let analysis_prompt :=
    create_analysis_prompt user_story aspects_to_enhance
      additional_context input_score in
  match chat_model analysis_prompt with
  | Failed e => Raise e
  | Replied content =>
      let content := strip content in
      let json_content := sanitize_json_string content in
      result <- json_loads json_content ;;
      result <- for_each required_sections (fill_section input_score) result ;;
      result <- for_each criteria validate_criterion result ;;
      calculated_improved_score <-
        sum_fields result (lit "improved_score") criteria ;;
      bad <- missing_or_not_number result (lit "overall") (lit "input_score") ;;
      result <- (if bad
                 then set_field result (lit "overall") (lit "input_score")
                        (VInt input_score)
                 else Ok result) ;;
      n <- (v <- get_field result (lit "overall") (lit "input_score") ;;
            py_int v) ;;
      result <- set_field result (lit "overall") (lit "input_score")
                  (VInt (Z.max 0 (Z.min 30 n))) ;;
      bad <- missing_or_not_number result (lit "overall") (lit "improved_score") ;;
      result <- (if bad
                 then set_field result (lit "overall") (lit "improved_score")
                        (VInt calculated_improved_score)
                 else Ok result) ;;
      n <- (v <- get_field result (lit "overall") (lit "improved_score") ;;
            py_int v) ;;
      result <- set_field result (lit "overall") (lit "improved_score")
                  (VInt (Z.max 0 (Z.min 30 n))) ;;
      reported <- (v <- get_field result (lit "overall") (lit "improved_score") ;;
                   int_value v) ;;
      if negb (Z.eqb reported calculated_improved_score) then
        result <- set_field result (lit "overall") (lit "improved_score")
                    (VInt calculated_improved_score) ;;
        current_refinement_summary <-
          (overall <- py_getitem result (lit "overall") ;;
           py_get overall (lit "refinement_summary") (VStr [])) ;;
        shown <- (v <- get_field result (lit "overall") (lit "input_score") ;;
                  int_value v) ;;
        let sentence := score_sentence shown calculated_improved_score in
        updated_refinement_summary <-
          re_sub_score sentence current_refinement_summary ;;
        set_field result (lit "overall") (lit "refinement_summary")
          (VStr (match updated_refinement_summary with
                 | _ :: _ => updated_refinement_summary
                 | [] => sentence
                 end))
      else Ok result
  end.

Definition analyze_user_story (user_story : value)
  (aspects_to_enhance additional_context : str) (input_score : Z) : value :=
  match analysis_body user_story aspects_to_enhance additional_context
          input_score with
  | Ok result => result
  | Raise e => error_result e input_score
  end.

End Analyzer.

(** *** preprocess_input *)

Definition no_aspects : str := lit "No specific aspects provided.".
Definition no_context : str := lit "No additional context provided.".

(** [s if s else placeholder] *)
Definition or_placeholder (s placeholder : str) : str :=
  match s with
  | _ :: _ => s
  | [] => placeholder
  end.

Definition require_field (user_story : value) (field : str) : exc value :=
  present <- py_in field user_story ;;
  if negb present
  then Raise (Exn ValueError (lit "UserStory must contain the field: " ++ field))
  else Ok user_story.

(** A hint of the envelope, which has to be a string. *)
Definition hint (data : value) (name : str) (complaint : string) : exc str :=
  v <- py_get data name (VStr []) ;;
  match v with
  | VStr s => Ok s
  | _ => raise ValueError complaint
  end.

(** The [try] block of [preprocess_input], after [json.loads]. *)
Definition preprocess_body (data : value) : exc (value * str * str * Z) :=
  present <- py_in (lit "UserStory") data ;;
  if negb present then
    raise ValueError
      "Input JSON must contain a 'UserStory' field with Title, Description, AcceptanceCriteria, and AdditionalInformation."
  else
    user_story <- py_getitem data (lit "UserStory") ;;
    for_each (map lit ["Title"; "Description"; "AcceptanceCriteria";
                       "AdditionalInformation"]%string)
             require_field user_story ;;;
    aspects_to_enhance <-
      hint data (lit "aspects_to_enhance") "'aspects_to_enhance' must be a string." ;;
    let aspects_to_enhance_str := or_placeholder aspects_to_enhance no_aspects in
    additional_context <-
      hint data (lit "additional_context") "'additional_context' must be a string." ;;
    let additional_context_str := or_placeholder additional_context no_context in
    input_score <- (overall <- py_get data (lit "overall") (VDict []) ;;
                    py_get overall (lit "score") (VInt 0)) ;;
    let input_score := if is_number input_score then input_score else VInt 0 in
    n <- py_int input_score ;;
    Ok (user_story, aspects_to_enhance_str, additional_context_str,
        Z.max 0 (Z.min 30 n)).

Definition preprocess_input (user_input : str)
  : exc (value * str * str * Z) :=
  match json_loads user_input with
  | Raise _ =>
      raise ValueError
        "Invalid JSON format. Please ensure the input is a properly structured JSON object."
  | Ok data =>
      match preprocess_body data with
      | Ok r => Ok r
      | Raise e =>
          Raise (Exn ValueError (lit "Error processing input: " ++ exn_str e))
      end
  end.

End ReRefine.

(** ** Refinement.py: the baseline analyzer *)

Module Refinement.

Definition system_text : str :=
  lit "You are an expert agile coach specializing in analyzing user stories using the INVEST criteria. " ++ nl
  ++ lit "Your task is twofold:" ++ nl
  ++ lit "1. Analyze the original user story and calculate its INVEST score." ++ nl
  ++ lit "2. Create an improved version and provide a detailed refinement summary." ++ nl
  ++ nl
  ++ lit "Follow this structured approach:" ++ nl
  ++ lit "- Extract the original components (Title, Description, AcceptanceCriteria, AdditionalInformation)." ++ nl
  ++ lit "- Score the original story against each INVEST criterion (1-5 scale), considering all provided details accurately." ++ nl
  ++ lit "- Identify specific weaknesses in the original story." ++ nl
  ++ lit "- Create an improved version addressing those weaknesses, including all components." ++ nl
  ++ lit "- Calculate the improved INVEST score." ++ nl
  ++ lit "- Generate a detailed refinement summary comparing the two versions.".

Definition human_text (user_story : str) : str :=
  nl
  ++ lit "            # User Story: " ++ user_story ++ nl
  ++ nl
  ++ lit "            ## Task Overview" ++ nl
  ++ nl
  ++ lit "            Perform a complete INVEST analysis on the provided user story with these steps:" ++ nl
  ++ nl
  ++ lit "            ### Step 1: Analyze the Original User Story" ++ nl
  ++ lit "            - Extract or identify all components (Title, Description, AcceptanceCriteria, AdditionalInformation)." ++ nl
  ++ lit "            - Score each INVEST criterion (1-5 scale) for the ORIGINAL story AS IS, using all provided details (e.g., evaluate existing acceptance criteria accurately)." ++ nl
  ++ lit "            - Calculate the total INVEST score for the original story." ++ nl
  ++ lit "            - Identify specific weaknesses and areas for improvement." ++ nl
  ++ nl
  ++ lit "            ### Step 2: Create an Improved Version" ++ nl
  ++ lit "            - Generate an improved user story (Title, Description, AcceptanceCriteria, AdditionalInformation) addressing each weakness." ++ nl
  ++ lit "            - Re-score each INVEST criterion for the IMPROVED version." ++ nl
  ++ lit "            - Calculate the new total INVEST score." ++ nl
  ++ nl
  ++ lit "            ### Step 3: Generate Analysis Output" ++ nl
  ++ lit "            - Include both original and improved user story components." ++ nl
  ++ lit "            - For each INVEST criterion, explain the original score and provide specific recommendations." ++ nl
  ++ lit "            - Ensure explanations reflect the actual content (e.g., don" ++ [8217%N] ++ lit "t claim missing acceptance criteria if they" ++ [8217%N] ++ lit "re present)." ++ nl
  ++ nl
  ++ lit "            ### Step 4: Create a Dynamic Refinement Summary" ++ nl
  ++ lit "            - List specific improvements as bullet points (using '*' on new lines)." ++ nl
  ++ lit "            - Include concrete examples of changes between versions." ++ nl
  ++ lit "            - End with " ++ q ++ lit "INVEST Score improved from X/30 to Y/30" ++ q ++ lit "." ++ nl
  ++ nl
  ++ lit "            ## Response Format:" ++ nl
  ++ nl
  ++ lit "            Return a structured JSON:" ++ nl
  ++ nl
  ++ lit "            {" ++ nl
  ++ lit "              " ++ q ++ lit "OriginalUserStory" ++ q ++ lit ": {" ++ nl
  ++ lit "                " ++ q ++ lit "Title" ++ q ++ lit ": " ++ q ++ lit "string" ++ q ++ lit "," ++ nl
  ++ lit "                " ++ q ++ lit "Description" ++ q ++ lit ": " ++ q ++ lit "string" ++ q ++ lit "," ++ nl
  ++ lit "                " ++ q ++ lit "AcceptanceCriteria" ++ q ++ lit ": [" ++ q ++ lit "string" ++ q ++ lit ", ...]," ++ nl
  ++ lit "                " ++ q ++ lit "AdditionalInformation" ++ q ++ lit ": " ++ q ++ lit "string" ++ q ++ nl
  ++ lit "              }," ++ nl
  ++ lit "              " ++ q ++ lit "ImprovedUserStory" ++ q ++ lit ": {" ++ nl
  ++ lit "                " ++ q ++ lit "Title" ++ q ++ lit ": " ++ q ++ lit "string" ++ q ++ lit "," ++ nl
  ++ lit "                " ++ q ++ lit "Description" ++ q ++ lit ": " ++ q ++ lit "string" ++ q ++ lit "," ++ nl
  ++ lit "                " ++ q ++ lit "AcceptanceCriteria" ++ q ++ lit ": [" ++ q ++ lit "string" ++ q ++ lit ", ...]," ++ nl
  ++ lit "                " ++ q ++ lit "AdditionalInformation" ++ q ++ lit ": " ++ q ++ lit "string" ++ q ++ nl
  ++ lit "              }," ++ nl
  ++ lit "              " ++ q ++ lit "Independent" ++ q ++ lit ": {" ++ nl
  ++ lit "                " ++ q ++ lit "score" ++ q ++ lit ": number," ++ nl
  ++ lit "                " ++ q ++ lit "explanation" ++ q ++ lit ": " ++ q ++ lit "string" ++ q ++ lit "," ++ nl
  ++ lit "                " ++ q ++ lit "recommendation" ++ q ++ lit ": " ++ q ++ lit "string" ++ q ++ nl
  ++ lit "              }," ++ nl
  ++ lit "              " ++ q ++ lit "Negotiable" ++ q ++ lit ": {" ++ nl
  ++ lit "                " ++ q ++ lit "score" ++ q ++ lit ": number," ++ nl
  ++ lit "                " ++ q ++ lit "explanation" ++ q ++ lit ": " ++ q ++ lit "string" ++ q ++ lit "," ++ nl
  ++ lit "                " ++ q ++ lit "recommendation" ++ q ++ lit ": " ++ q ++ lit "string" ++ q ++ nl
  ++ lit "              }," ++ nl
  ++ lit "              " ++ q ++ lit "Valuable" ++ q ++ lit ": {" ++ nl
  ++ lit "                " ++ q ++ lit "score" ++ q ++ lit ": number," ++ nl
  ++ lit "                " ++ q ++ lit "explanation" ++ q ++ lit ": " ++ q ++ lit "string" ++ q ++ lit "," ++ nl
  ++ lit "                " ++ q ++ lit "recommendation" ++ q ++ lit ": " ++ q ++ lit "string" ++ q ++ nl
  ++ lit "              }," ++ nl
  ++ lit "              " ++ q ++ lit "Estimable" ++ q ++ lit ": {" ++ nl
  ++ lit "                " ++ q ++ lit "score" ++ q ++ lit ": number," ++ nl
  ++ lit "                " ++ q ++ lit "explanation" ++ q ++ lit ": " ++ q ++ lit "string" ++ q ++ lit "," ++ nl
  ++ lit "                " ++ q ++ lit "recommendation" ++ q ++ lit ": " ++ q ++ lit "string" ++ q ++ nl
  ++ lit "              }," ++ nl
  ++ lit "              " ++ q ++ lit "Small" ++ q ++ lit ": {" ++ nl
  ++ lit "                " ++ q ++ lit "score" ++ q ++ lit ": number," ++ nl
  ++ lit "                " ++ q ++ lit "explanation" ++ q ++ lit ": " ++ q ++ lit "string" ++ q ++ lit "," ++ nl
  ++ lit "                " ++ q ++ lit "recommendation" ++ q ++ lit ": " ++ q ++ lit "string" ++ q ++ nl
  ++ lit "              }," ++ nl
  ++ lit "              " ++ q ++ lit "Testable" ++ q ++ lit ": {" ++ nl
  ++ lit "                " ++ q ++ lit "score" ++ q ++ lit ": number," ++ nl
  ++ lit "                " ++ q ++ lit "explanation" ++ q ++ lit ": " ++ q ++ lit "string" ++ q ++ lit "," ++ nl
  ++ lit "                " ++ q ++ lit "recommendation" ++ q ++ lit ": " ++ q ++ lit "string" ++ q ++ nl
  ++ lit "              }," ++ nl
  ++ lit "              " ++ q ++ lit "overall" ++ q ++ lit ": {" ++ nl
  ++ lit "                " ++ q ++ lit "score" ++ q ++ lit ": number," ++ nl
  ++ lit "                " ++ q ++ lit "improved_score" ++ q ++ lit ": number," ++ nl
  ++ lit "                " ++ q ++ lit "summary" ++ q ++ lit ": " ++ q ++ lit "string" ++ q ++ lit "," ++ nl
  ++ lit "                " ++ q ++ lit "refinement_summary" ++ q ++ lit ": " ++ q ++ lit "string with '*' bullets on new lines" ++ q ++ nl
  ++ lit "              }" ++ nl
  ++ lit "            }" ++ nl
  ++ nl
  ++ lit "            IMPORTANT:" ++ nl
  ++ lit "            - Return ONLY raw JSON without markdown or backticks." ++ nl
  ++ lit "            - Ensure scores are integers (1-5), overall scores sum correctly (max 30)." ++ nl
  ++ lit "            - Use simple '*' bullets on new lines in refinement_summary." ++ nl
  ++ lit "            - Accurately reflect provided acceptance criteria in scoring." ++ nl
  ++ lit "            ".

Definition default_criterion : value :=
  VDict [(lit "score", VInt 0); (lit "explanation", VStr []);
         (lit "recommendation", VStr [])].

(** The result of the [except Exception as e] clause. *)
Definition error_result (e : exn) : value :=
  VDict [(lit "error", VStr (lit "Analysis failed: " ++ exn_str e));
         (lit "OriginalUserStory", empty_story);
         (lit "ImprovedUserStory", empty_story);
         (lit "Independent", default_criterion);
         (lit "Negotiable", default_criterion);
         (lit "Valuable", default_criterion);
         (lit "Estimable", default_criterion);
         (lit "Small", default_criterion);
         (lit "Testable", default_criterion);
         (lit "overall",
          VDict [(lit "score", VInt 0);
                 (lit "improved_score", VInt 0);
                 (lit "summary", VStr (lit "Error in analysis"));
                 (lit "refinement_summary", VStr [])])].

Section Analyzer.

Variable json_dumps : value -> str.
Variable chat_model : list message -> reply.

Definition create_analysis_prompt (user_story : value) : list message :=
  let user_story := match user_story with
                    | VStr s => s
                    | _ => json_dumps user_story
                    end in
  [(System, system_text); (Human, human_text user_story)].

Definition fill_section (result : value) (section : str) : exc value :=
  present <- py_in section result ;;
  if negb present then
    if str_in section story_sections then
      py_setitem result section empty_story
    else if str_eqb section (lit "overall") then
      py_setitem result section
        (VDict [(lit "score", VInt 0);
                (lit "improved_score", VInt 0);
                (lit "summary", VStr []);
                (lit "refinement_summary", VStr [])])
    else py_setitem result section default_criterion
  else Ok result.

(** The body of the second loop. *)
Definition validate_criterion (result : value) (criterion : str)
  : exc value :=
  n <- (v <- get_field result criterion (lit "score") ;; py_int v) ;;
  set_field result criterion (lit "score") (VInt (Z.max 1 (Z.min 5 n))).

(** The [try] block of [analyze_user_story]. *)
Definition analysis_body (user_story : value) : exc value :=
  let analysis_prompt := create_analysis_prompt user_story in
  match chat_model analysis_prompt with
  | Failed e => Raise e
  | Replied content =>
      let content := strip content in
      let json_content := sanitize_json_string content in
      result <- json_loads json_content ;;
      result <- for_each required_sections fill_section result ;;
      result <- for_each criteria validate_criterion result ;;
      total <- sum_fields result (lit "score") criteria ;;
      result <- set_field result (lit "overall") (lit "score") (VInt total) ;;
      n <- (overall <- py_getitem result (lit "overall") ;;
            v <- py_get overall (lit "improved_score") (VInt 0) ;;
            py_int v) ;;
      set_field result (lit "overall") (lit "improved_score")
        (VInt (Z.min 30 n))
  end.

Definition analyze_user_story (user_story : value) : value :=
  match analysis_body user_story with
  | Ok result => result
  | Raise e => error_result e
  end.

End Analyzer.

(** *** preprocess_input *)

(** The text of a key: the name between two quotes, and a colon. *)
Definition key_colon (name : str) : str := q ++ name ++ q ++ lit ":".

(** A quoted text at the head of [s], that is a quote, one or more
    characters other than a quote, and a quote: group 1 and the text after
    the closing quote.  The run is greedy and ends before a quote or at the
    end of the text, so that giving back a character cannot make the
    closing quote match. *)
Fixpoint span_no_quote (s : str) : str * str :=
  match s with
  | c :: r =>
      if N.eqb c dquote then ([], s)
      else let '(g, rest) := span_no_quote r in (c :: g, rest)
  | [] => ([], [])
  end.

Definition quoted (s : str) : option (str * str) :=
  match strip_prefix q s with
  | Some r =>
      match span_no_quote r with
      | ((_ :: _) as g, _ :: rest) => Some (g, rest)
      | _ => None
      end
  | None => None
  end.

(** [(.*?)] followed by the pattern [tail]: the shortest run of characters
    other than a newline after which [tail] matches; group 1 and what
    [tail] gives. *)
Fixpoint lazy_until {A} (tail : str -> option A) (s : str) : option (str * A) :=
  match tail s with
  | Some a => Some ([], a)
  | None =>
      match s with
      | c :: r =>
          if N.eqb c newline then None
          else match lazy_until tail r with
               | Some (g, a) => Some (c :: g, a)
               | None => None
               end
      | [] => None
      end
  end.

(** [re.search]: the match at the leftmost position where the pattern
    matches. *)
Fixpoint search {A} (pattern : str -> option A) (s : str) : option A :=
  match pattern s with
  | Some a => Some a
  | None =>
      match s with
      | _ :: r => search pattern r
      | [] => None
      end
  end.

(** A literal text, then [\s*]: every [\s*] of the two patterns is followed
    by a quote, a bracket or a brace, which is no white space, so the
    greedy run is the only one that can match. *)
Definition text_spaces (p : str) (s : str) : option str :=
  match strip_prefix p s with
  | Some r => Some (lstrip r)
  | None => None
  end.

(** The end of the story pattern, from the closing bracket on: the
    bracket, a comma, white space, the key [AdditionalInformation], white
    space and a quoted text. *)
Definition story_tail (s : str) : option str :=
  match text_spaces (lit "],") s with
  | Some s =>
      match text_spaces (key_colon (lit "AdditionalInformation")) s with
      | Some s =>
          match quoted s with
          | Some (add_info, _) => Some add_info
          | None => None
          end
      | None => None
      end
  | None => None
  end.

(** The story pattern tried at the head of [s]: the four groups. *)
Definition match_story (s : str) : option (str * str * str * str) :=
  match text_spaces (key_colon (lit "UserStory")) s with
  | None => None
  | Some s =>
  match text_spaces (key_colon (lit "Title")) s with
  | None => None
  | Some s =>
  match quoted s with
  | None => None
  | Some (title, s) =>
  match text_spaces (lit ",") s with
  | None => None
  | Some s =>
  match text_spaces (key_colon (lit "Description")) s with
  | None => None
  | Some s =>
  match quoted s with
  | None => None
  | Some (desc, s) =>
  match text_spaces (lit ",") s with
  | None => None
  | Some s =>
  match text_spaces (key_colon (lit "AcceptanceCriteria")) s with
  | None => None
  | Some s =>
  match strip_prefix (lit "[") s with
  | None => None
  | Some s =>
  match lazy_until story_tail s with
  | None => None
  | Some (ac, add_info) => Some (title, desc, ac, add_info)
  end end end end end end end end end end.

(** The pattern of a section tried at the head of [s]: the key, white
    space, an opening brace, [(.*?)] and a closing brace ([{] is a literal
    brace where no repetition count follows it); group 1. *)
Definition match_section (section : str) (s : str) : option str :=
  match text_spaces (key_colon section) s with
  | None => None
  | Some s =>
      match strip_prefix (lit "{") s with
      | None => None
      | Some s =>
          match lazy_until (strip_prefix (lit "}")) s with
          | Some (g, _) => Some g
          | None => None
          end
      end
  end.

(** [s.split(',')] *)
Fixpoint split_comma (s : str) : list str :=
  match s with
  | [] => [[]]
  | c :: r =>
      if N.eqb c 44 then [] :: split_comma r
      else match split_comma r with
           | item :: items => (c :: item) :: items
           | [] => [[c]]
           end
  end.

Fixpoint lstrip_quotes (s : str) : str :=
  match s with
  | c :: r => if N.eqb c dquote then lstrip_quotes r else s
  | [] => []
  end.

(** [s.strip] of the quote character *)
Definition strip_quotes (s : str) : str :=
  rev (lstrip_quotes (rev (lstrip_quotes s))).

Definition repaired_sections : list str :=
  map lit ["Independent"; "Negotiable"; "Valuable"; "Estimable"; "Small";
           "Testable"; "overall"]%string.

(** The body of the loop that appends the sections found in the input. *)
Definition repair_section (cleaned_input : str) (fixed_story : value)
  (section : str) : exc value :=
  match search (match_section section) cleaned_input with
  | Some group =>
      let section_content := lit "{" ++ group ++ lit "}" in
      v <- json_loads section_content ;;
      py_setitem fixed_story section v
  | None => Ok fixed_story
  end.

(** The inner [try] block: nothing when the story pattern does not
    match. *)
Definition repair (cleaned_input : str) : exc (option value) :=
  match search match_story cleaned_input with
  | Some (title, desc, ac, add_info) =>
      let ac_list :=
        map (fun item => VStr (strip_quotes (strip item))) (split_comma ac) in
      let fixed_story :=
        VDict [(lit "UserStory",
                VDict [(lit "Title", VStr title);
                       (lit "Description", VStr desc);
                       (lit "AcceptanceCriteria", VList ac_list);
                       (lit "AdditionalInformation", VStr add_info)])] in
      fixed_story <-
        for_each repaired_sections (repair_section cleaned_input) fixed_story ;;
      Ok (Some fixed_story)
  | None => Ok None
  end.

Definition invalid_json_format : exn :=
  Exn ValueError
    (lit "Invalid JSON format. Please ensure the input is a properly structured JSON object, e.g., {"
     ++ q ++ lit "UserStory" ++ q ++ lit ": {" ++ q ++ lit "Title" ++ q
     ++ lit ": " ++ q ++ lit "..." ++ q ++ lit ", ...}}").

Definition preprocess_input (user_input : str) : exc value :=
  match json_loads user_input with
  | Ok data => Ok data
  | Raise _ =>
      let cleaned_input :=
        replace_char creturn [] (replace_char newline [] (strip user_input)) in
      if (substring (key_colon (lit "UserStory")) cleaned_input
          && substring (key_colon (lit "Title")) cleaned_input)%bool
      then
        match repair cleaned_input with
        | Ok (Some fixed_story) => Ok fixed_story
        | Ok None | Raise _ => Raise invalid_json_format
        end
      else Raise invalid_json_format
  end.

End Refinement.

(** * Properties *)

Unset Implicit Arguments.

(** ** Strings, dicts and the exception monad *)

Lemma str_eqb_eq a b : str_eqb a b = true <-> a = b.
Proof.
  revert b. induction a as [|x a IH]; intros [|y b]; simpl; split;
    try discriminate; try reflexivity.
  - intros H. apply andb_prop in H as [Hx Hr]. apply N.eqb_eq in Hx.
    apply IH in Hr. subst. reflexivity.
  - intros H. inversion H; subst. rewrite N.eqb_refl. simpl.
    apply IH. reflexivity.
Qed.

Lemma str_eqb_refl a : str_eqb a a = true.
Proof. apply str_eqb_eq. reflexivity. Qed.

Lemma str_eqb_neq a b : a <> b -> str_eqb a b = false.
Proof.
  intros H. destruct (str_eqb a b) eqn:E; [|reflexivity].
  apply str_eqb_eq in E. contradiction.
Qed.

Lemma dict_get_set_same d k v : dict_get (dict_set d k v) k = Some v.
Proof.
  induction d as [|[k' v'] d IH]; simpl.
  - rewrite str_eqb_refl. reflexivity.
  - destruct (str_eqb k' k) eqn:E; simpl; rewrite E; [reflexivity|exact IH].
Qed.

Lemma dict_get_set_other d k v k' :
  k' <> k -> dict_get (dict_set d k v) k' = dict_get d k'.
Proof.
  intros Hk. induction d as [|[k0 v0] d IH]; simpl.
  - rewrite (str_eqb_neq _ _ (not_eq_sym Hk)). reflexivity.
  - destruct (str_eqb k0 k) eqn:E; simpl.
    + apply str_eqb_eq in E. subst k0.
      rewrite (str_eqb_neq _ _ (not_eq_sym Hk)). reflexivity.
    + destruct (str_eqb k0 k'); [reflexivity|exact IH].
Qed.

(** Storing again the value that a key already has changes nothing. *)
Lemma dict_set_same_value d k v :
  dict_get d k = Some v -> dict_set d k v = d.
Proof.
  induction d as [|[k0 v0] d IH]; simpl; [discriminate|].
  destruct (str_eqb k0 k).
  - intros H; inversion H; reflexivity.
  - intros H. rewrite (IH H). reflexivity.
Qed.

Lemma bind_ok {A B} (c : exc A) (k : A -> exc B) b :
  bind c k = Ok b -> exists a, c = Ok a /\ k a = Ok b.
Proof. destruct c as [a|e]; simpl; [eauto|discriminate]. Qed.

(** Inversion of a successful sequence of binds. *)
Ltac inv_bind H :=
  let a := fresh "a" in
  let Ha := fresh "Ha" in
  apply bind_ok in H as (a & Ha & H).

Ltac neq_lit :=
  let H := fresh in intro H; vm_compute in H; discriminate H.

(** ** Reading and writing [result[section][field]] *)

Lemma set_field_inv r s f v r' :
  set_field r s f v = Ok r' ->
  exists d sd, r = VDict d /\ dict_get d s = Some (VDict sd)
               /\ r' = VDict (dict_set d s (VDict (dict_set sd f v))).
Proof.
  unfold set_field. intros H. inv_bind H. inv_bind H.
  destruct r as [| | | | | |d]; try discriminate.
  simpl in Ha. destruct (dict_get d s) as [sec|] eqn:E; [|discriminate].
  inversion Ha; subst a.
  destruct sec as [| | | | | |sd]; try discriminate.
  simpl in Ha0. inversion Ha0; subst a0. simpl in H. inversion H; subst.
  exists d, sd. auto.
Qed.

Lemma get_set_field_same r s f v r' :
  set_field r s f v = Ok r' -> get_field r' s f = Ok v.
Proof.
  intros H. apply set_field_inv in H as (d & sd & -> & E & ->).
  unfold get_field. simpl. rewrite dict_get_set_same. simpl.
  rewrite dict_get_set_same. reflexivity.
Qed.

Lemma getitem_set_field_other r s f v r' s' :
  set_field r s f v = Ok r' -> s' <> s -> py_getitem r' s' = py_getitem r s'.
Proof.
  intros H Hs. apply set_field_inv in H as (d & sd & -> & E & ->).
  simpl. rewrite dict_get_set_other by exact Hs. reflexivity.
Qed.

Lemma get_set_field_other_section r s f v r' s' f' :
  set_field r s f v = Ok r' -> s' <> s -> get_field r' s' f' = get_field r s' f'.
Proof.
  intros H Hs. unfold get_field.
  rewrite (getitem_set_field_other _ _ _ _ _ _ H Hs). reflexivity.
Qed.

Lemma get_set_field_other_field r s f v r' f' :
  set_field r s f v = Ok r' -> f' <> f -> get_field r' s f' = get_field r s f'.
Proof.
  intros H Hf. apply set_field_inv in H as (d & sd & -> & E & ->).
  unfold get_field. simpl. rewrite dict_get_set_same, E. simpl.
  rewrite dict_get_set_other by exact Hf. reflexivity.
Qed.

(** The keys of a dict, and that an assignment keeps them. *)
Lemma dict_mem_set d k v k' :
  dict_mem d k' = true -> dict_mem (dict_set d k v) k' = true.
Proof.
  unfold dict_mem. intros H.
  destruct (list_eq_dec N.eq_dec k' k) as [->|Hk].
  - rewrite dict_get_set_same. reflexivity.
  - rewrite dict_get_set_other by exact Hk. exact H.
Qed.

Lemma dict_mem_set_same d k v : dict_mem (dict_set d k v) k = true.
Proof. unfold dict_mem. rewrite dict_get_set_same. reflexivity. Qed.

(** A result in which every required section is present. *)
Definition has_sections (r : value) : Prop :=
  exists d, r = VDict d /\ forall s, In s required_sections -> dict_mem d s = true.

Lemma set_field_has_sections r s f v r' :
  set_field r s f v = Ok r' -> has_sections r -> has_sections r'.
Proof.
  intros H (d0 & -> & Hd). apply set_field_inv in H as (d & sd & E0 & E & ->).
  inversion E0; subst d0. eexists; split; [reflexivity|].
  intros s0 Hs0. apply dict_mem_set, Hd, Hs0.
Qed.

(** A loop whose body establishes [Q x] and keeps [Q y] for the other
    names establishes [Q] for every name of a list without repetition. *)
Lemma for_each_establishes (Q : str -> value -> Prop) body names :
  NoDup names ->
  (forall r x r', In x names -> body r x = Ok r' ->
     Q x r' /\ forall y, y <> x -> Q y r -> Q y r') ->
  forall r r', for_each names body r = Ok r' ->
    (forall x, In x names -> Q x r')
    /\ (forall y, ~ In y names -> Q y r -> Q y r').
Proof.
  intros Hnd. induction names as [|x names IH]; intros Hbody r r' H.
  - simpl in H. inversion H; subst. split; [intros ? []|auto].
  - simpl in H. inv_bind H. inversion Hnd as [|? ? Hx Hnd']; subst.
    destruct (Hbody _ _ _ (or_introl eq_refl) Ha) as [Qx Keep].
    destruct (IH Hnd' (fun r0 y r0' Hy => Hbody r0 y r0' (or_intror Hy)) _ _ H)
      as [All Frame].
    split.
    + intros y [<-|Hy]; [apply Frame; assumption|apply All; assumption].
    + intros y Hy Qy. apply Frame; [intros Hin; apply Hy; right; exact Hin|].
      apply Keep; [intros ->; apply Hy; left; reflexivity|exact Qy].
Qed.

(** A loop keeps what each turn of its body keeps. *)
Lemma for_each_preserves (P : value -> Prop) body names :
  (forall r x r', body r x = Ok r' -> P r -> P r') ->
  forall r r', for_each names body r = Ok r' -> P r -> P r'.
Proof.
  intros Hbody. induction names as [|x names IH]; intros r r' H Hr.
  - simpl in H. inversion H; subst. exact Hr.
  - simpl in H. inv_bind H. eapply IH; [exact H|]. eapply Hbody; eassumption.
Qed.

Lemma criteria_nodup : NoDup criteria.
Proof.
  unfold criteria. simpl.
  repeat (constructor; [simpl; intros H;
    repeat (destruct H as [H|H]; [vm_compute in H; discriminate H|]); exact H|]).
  constructor.
Qed.

Lemma criteria_not_overall c : In c criteria -> c <> lit "overall".
Proof.
  intros H ->. unfold criteria in H. simpl in H.
  repeat (destruct H as [H|H]; [vm_compute in H; discriminate H|]). exact H.
Qed.

Lemma criteria_required c : In c criteria -> In c required_sections.
Proof.
  unfold criteria, required_sections. simpl. intuition.
Qed.

(** ** Scores *)

(** A per-criterion score after normalization: the sentinel or [1..5]. *)
Definition valid_score (n : Z) : Prop := (n = 0 \/ 1 <= n <= 5)%Z.

(** Field [f] of criterion [c] holds a valid score. *)
Definition scored (f c : str) (r : value) : Prop :=
  exists n, get_field r c f = Ok (VInt n) /\ valid_score n.

Definition total (ns : list Z) : Z := fold_right Z.add 0%Z ns.

(** The six scores of field [f], in the order of [criteria]. *)
Definition scores_of (r : value) (f : str) (ns : list Z) : Prop :=
  Forall2 (fun c n => get_field r c f = Ok (VInt n) /\ valid_score n) criteria ns.

(** Only [result["overall"]] differs between [r] and [r']. *)
Definition only_overall (r r' : value) : Prop :=
  forall s, s <> lit "overall" -> py_getitem r' s = py_getitem r s.

Lemma only_overall_refl r : only_overall r r.
Proof. intros s _. reflexivity. Qed.

Lemma only_overall_trans r1 r2 r3 :
  only_overall r1 r2 -> only_overall r2 r3 -> only_overall r1 r3.
Proof. intros H12 H23 s Hs. rewrite (H23 s Hs). apply H12, Hs. Qed.

Lemma set_overall_only r f v r' :
  set_field r (lit "overall") f v = Ok r' -> only_overall r r'.
Proof. intros H s Hs. eapply getitem_set_field_other; eassumption. Qed.

Lemma only_overall_get r r' c f :
  only_overall r r' -> In c criteria -> get_field r' c f = get_field r c f.
Proof.
  intros H Hc. unfold get_field. rewrite (H c (criteria_not_overall c Hc)).
  reflexivity.
Qed.

Lemma only_overall_scores r r' f ns :
  only_overall r r' -> scores_of r f ns -> scores_of r' f ns.
Proof.
  intros H. unfold scores_of.
  assert (G : forall cs, incl cs criteria ->
            Forall2 (fun c n => get_field r c f = Ok (VInt n) /\ valid_score n) cs ns ->
            Forall2 (fun c n => get_field r' c f = Ok (VInt n) /\ valid_score n) cs ns).
  { intros cs. revert ns. induction cs as [|c cs IH]; intros ns Hin F;
      inversion F; subst; constructor.
    - rewrite (only_overall_get r r' c f H); [assumption|].
      apply Hin. left. reflexivity.
    - apply IH; [|assumption]. intros x Hx. apply Hin. right. exact Hx. }
  apply G. apply incl_refl.
Qed.

(** What [sum_fields] computes when every criterion is scored. *)
Lemma sum_fields_scored r f names :
  (forall c, In c names -> scored f c r) ->
  exists ns,
    Forall2 (fun c n => get_field r c f = Ok (VInt n) /\ valid_score n) names ns
    /\ sum_fields r f names = Ok (total ns).
Proof.
  induction names as [|c names IH]; intros H.
  - exists []. split; [constructor|reflexivity].
  - destruct (H c (or_introl eq_refl)) as (n & Hn & Vn).
    destruct IH as (ns & F & S); [intros x Hx; apply H; right; exact Hx|].
    exists (n :: ns). split; [constructor; auto|].
    simpl. rewrite Hn. simpl. rewrite S. reflexivity.
Qed.

Lemma sum_fields_value r f names ns t :
  Forall2 (fun c n => get_field r c f = Ok (VInt n) /\ valid_score n) names ns ->
  sum_fields r f names = Ok t -> t = total ns.
Proof.
  intros F. revert t. induction F as [|c n names ns [Hn _] F IH]; intros t H.
  - simpl in H. inversion H. reflexivity.
  - simpl in H. rewrite Hn in H. simpl in H. inv_bind H.
    inversion H; subst. rewrite (IH _ Ha). reflexivity.
Qed.

Lemma total_bounds ns :
  Forall valid_score ns -> (0 <= total ns <= 5 * Z.of_nat (List.length ns))%Z.
Proof.
  induction 1 as [|n ns Hn _ IH]; simpl; [lia|].
  unfold valid_score in Hn. lia.
Qed.

Lemma scores_of_valid r f ns : scores_of r f ns -> Forall valid_score ns.
Proof.
  unfold scores_of. generalize criteria.
  intros cs F. induction F as [|c n cs ns [_ V] _ IH]; constructor; assumption.
Qed.

Lemma scores_of_length r f ns : scores_of r f ns -> List.length ns = 6%nat.
Proof.
  intros F. apply Forall2_length in F. rewrite <- F. reflexivity.
Qed.

(** ** The guided analyzer, step by step *)

Module GuidedFacts.
Import ReRefine.

Definition clamp (lo hi n : Z) : Z := Z.max lo (Z.min hi n).

(** [validate_score] always ends by storing a valid score. *)
Lemma validate_score_sets field r c r' :
  validate_score field r c = Ok r' ->
  exists n, valid_score n /\ set_field r c field (VInt n) = Ok r'.
Proof.
  unfold validate_score. intros H. inv_bind H. destruct a.
  - exists 0%Z. split; [left; reflexivity|exact H].
  - destruct (bind (get_field r c field) _) as [r0|e] eqn:E.
    + inversion H; subst r0. inv_bind E. inv_bind E.
      exists (Z.max 1 (Z.min 5 a0)). split; [right; lia|exact E].
    + destruct (is_value_or_type_error e); [|discriminate].
      exists 0%Z. split; [left; reflexivity|exact H].
Qed.

Lemma validate_criterion_sets r c r' :
  validate_criterion r c = Ok r' ->
  exists a b r1,
    valid_score a /\ valid_score b
    /\ set_field r c (lit "score") (VInt a) = Ok r1
    /\ set_field r1 c (lit "improved_score") (VInt b) = Ok r'.
Proof.
  unfold validate_criterion. intros H. inv_bind H.
  apply validate_score_sets in Ha as (a0 & Va & Sa).
  apply validate_score_sets in H as (b & Vb & Sb).
  exists a0, b, a. auto.
Qed.

Definition both_scored (c : str) (r : value) : Prop :=
  scored (lit "score") c r /\ scored (lit "improved_score") c r.

Lemma validate_criterion_scored r c r' :
  validate_criterion r c = Ok r' ->
  both_scored c r' /\ forall y, y <> c -> both_scored y r -> both_scored y r'.
Proof.
  intros H. apply validate_criterion_sets in H as (a & b & r1 & Va & Vb & S1 & S2).
  split.
  - split.
    + exists a. split; [|exact Va].
      rewrite (get_set_field_other_field _ _ _ _ _ (lit "score") S2) by neq_lit.
      eapply get_set_field_same; eassumption.
    + exists b. split; [|exact Vb]. eapply get_set_field_same; eassumption.
  - intros y Hy [(n & Hn & Vn) (m & Hm & Vm)]. split; [exists n|exists m];
      (split; [|assumption]);
      rewrite (get_set_field_other_section _ _ _ _ _ y _ S2 Hy),
              (get_set_field_other_section _ _ _ _ _ y _ S1 Hy); assumption.
Qed.

Lemma validate_loop_scored r r' :
  for_each criteria validate_criterion r = Ok r' ->
  forall c, In c criteria -> both_scored c r'.
Proof.
  intros H.
  apply (for_each_establishes both_scored validate_criterion criteria
           criteria_nodup) in H; [apply H|].
  intros r0 x r0' _ Hx. apply validate_criterion_scored. exact Hx.
Qed.

Lemma validate_criterion_is_dict r c r' :
  validate_criterion r c = Ok r' -> exists d d', r = VDict d /\ r' = VDict d'
    /\ forall k, dict_mem d k = true -> dict_mem d' k = true.
Proof.
  intros H. apply validate_criterion_sets in H as (a & b & r1 & _ & _ & S1 & S2).
  apply set_field_inv in S1 as (d & sd & -> & E & ->).
  apply set_field_inv in S2 as (d1 & sd1 & E1 & E2 & ->).
  inversion E1; subst d1. do 2 eexists. split; [reflexivity|].
  split; [reflexivity|]. intros k Hk. apply dict_mem_set, dict_mem_set, Hk.
Qed.

(** The steps of a successful run of the [try] block. *)
Inductive run (json_dumps : value -> str) (chat_model : list message -> reply)
  (user_story : value) (aspects_to_enhance additional_context : str)
  (input_score : Z) (r : value) : Prop :=
| Run (content : str) (parsed r1 r2 r3 r4 r5 r6 : value)
      (calculated n1 n2 : Z) (bad1 bad2 : bool)
    (Hreply : chat_model (create_analysis_prompt json_dumps user_story
                aspects_to_enhance additional_context input_score)
              = Replied content)
    (Hparse : json_loads (sanitize_json_string (strip content)) = Ok parsed)
    (Hfill : for_each required_sections (fill_section input_score) parsed = Ok r1)
    (Hvalid : for_each criteria validate_criterion r1 = Ok r2)
    (Hsum : sum_fields r2 (lit "improved_score") criteria = Ok calculated)
    (Hbad1 : missing_or_not_number r2 (lit "overall") (lit "input_score") = Ok bad1)
    (Hin0 : (if bad1
             then set_field r2 (lit "overall") (lit "input_score") (VInt input_score)
             else Ok r2) = Ok r3)
    (Hn1 : (v <- get_field r3 (lit "overall") (lit "input_score") ;; py_int v) = Ok n1)
    (Hin : set_field r3 (lit "overall") (lit "input_score")
             (VInt (clamp 0 30 n1)) = Ok r4)
    (Hbad2 : missing_or_not_number r4 (lit "overall") (lit "improved_score") = Ok bad2)
    (Himp0 : (if bad2
              then set_field r4 (lit "overall") (lit "improved_score")
                     (VInt calculated)
              else Ok r4) = Ok r5)
    (Hn2 : (v <- get_field r5 (lit "overall") (lit "improved_score") ;; py_int v) = Ok n2)
    (Himp : set_field r5 (lit "overall") (lit "improved_score")
              (VInt (clamp 0 30 n2)) = Ok r6)
    (Hend : if Z.eqb (clamp 0 30 n2) calculated then r = r6
            else exists r7 current updated,
                set_field r6 (lit "overall") (lit "improved_score")
                  (VInt calculated) = Ok r7
                /\ (overall <- py_getitem r7 (lit "overall") ;;
                    py_get overall (lit "refinement_summary") (VStr [])) = Ok current
                /\ re_sub_score (score_sentence (clamp 0 30 n1) calculated) current
                   = Ok updated
                /\ set_field r7 (lit "overall") (lit "refinement_summary")
                     (VStr (match updated with
                            | _ :: _ => updated
                            | [] => score_sentence (clamp 0 30 n1) calculated
                            end)) = Ok r).

Section Guided.
Variable json_dumps : value -> str.
Variable chat_model : list message -> reply.

Lemma analysis_body_run user_story aspects context input_score r :
  analysis_body json_dumps chat_model user_story aspects context input_score
  = Ok r ->
  run json_dumps chat_model user_story aspects context input_score r.
Proof.
  unfold analysis_body. intros H.
  destruct (chat_model _) as [content|e] eqn:Hreply; [|discriminate].
  inv_bind H. rename a into parsed, Ha into Hparse.
  inv_bind H. rename a into r1, Ha into Hfill.
  inv_bind H. rename a into r2, Ha into Hvalid.
  inv_bind H. rename a into calculated, Ha into Hsum.
  inv_bind H. rename a into bad1, Ha into Hbad1.
  inv_bind H. rename a into r3, Ha into Hin0.
  inv_bind H. rename a into n1, Ha into Hn1.
  inv_bind H. rename a into r4, Ha into Hin.
  inv_bind H. rename a into bad2, Ha into Hbad2.
  inv_bind H. rename a into r5, Ha into Himp0.
  inv_bind H. rename a into n2, Ha into Hn2.
  inv_bind H. rename a into r6, Ha into Himp.
  inv_bind H. rename a into reported, Ha into Hrep.
  assert (reported = clamp 0 30 n2) as ->.
  { rewrite (get_set_field_same _ _ _ _ _ Himp) in Hrep. simpl in Hrep.
    inversion Hrep. reflexivity. }
  eapply Run; try eassumption.
  destruct (Z.eqb (clamp 0 30 n2) calculated); simpl in H.
  - inversion H. reflexivity.
  - inv_bind H. rename a into r7, Ha into Hset.
    inv_bind H. rename a into current, Ha into Hcur.
    inv_bind H. rename a into shown, Ha into Hshown.
    inv_bind H. rename a into updated, Ha into Hupd.
    assert (shown = clamp 0 30 n1) as ->.
    { rewrite (get_set_field_other_field _ _ _ _ _ (lit "input_score") Hset)
        in Hshown by neq_lit.
      rewrite (get_set_field_other_field _ _ _ _ _ (lit "input_score") Himp)
        in Hshown by neq_lit.
      assert (G : get_field r5 (lit "overall") (lit "input_score")
                  = Ok (VInt (clamp 0 30 n1))).
      { destruct bad2.
        - rewrite (get_set_field_other_field _ _ _ _ _ (lit "input_score") Himp0)
            by neq_lit.
          eapply get_set_field_same; eassumption.
        - inversion Himp0; subst r5.
          eapply get_set_field_same; eassumption. }
      rewrite G in Hshown. simpl in Hshown. inversion Hshown. reflexivity. }
    exists r7, current, updated. auto.
Qed.

End Guided.

(** *** Sections and scores of a successful run *)

Lemma required_nodup : NoDup required_sections.
Proof.
  unfold required_sections. simpl.
  repeat (constructor; [simpl; intros H;
    repeat (destruct H as [H|H]; [vm_compute in H; discriminate H|]); exact H|]).
  constructor.
Qed.

Definition present_if_dict (s : str) (r : value) : Prop :=
  forall d, r = VDict d -> dict_mem d s = true.

Lemma py_setitem_inv r s v r' :
  py_setitem r s v = Ok r' -> exists d, r = VDict d /\ r' = VDict (dict_set d s v).
Proof.
  destruct r; try discriminate. simpl. intros H; inversion H. eauto.
Qed.

Lemma fill_section_cases input_score r s r' :
  fill_section input_score r s = Ok r' ->
  (py_in s r = Ok true /\ r' = r)
  \/ (exists d v, r = VDict d /\ dict_mem d s = false
                  /\ r' = VDict (dict_set d s v)).
Proof.
  unfold fill_section. intros H. inv_bind H. destruct a; cbn [negb] in H.
  - left. inversion H; subst. split; [exact Ha|reflexivity].
  - right.
    assert (G : exists v, py_setitem r s v = Ok r').
    { destruct (str_in s story_sections); [eexists; exact H|].
      destruct (str_eqb s (lit "overall")); eexists; exact H. }
    destruct G as (v & G). apply py_setitem_inv in G as (d & -> & ->).
    simpl in Ha. inversion Ha. eauto.
Qed.

Lemma fill_section_present input_score r s r' :
  fill_section input_score r s = Ok r' ->
  present_if_dict s r'
  /\ forall y, y <> s -> present_if_dict y r -> present_if_dict y r'.
Proof.
  intros H. apply fill_section_cases in H as [[Hin ->]|(d & v & -> & Hm & ->)].
  - split; [|auto]. intros d ->. simpl in Hin. inversion Hin. reflexivity.
  - split.
    + intros d' E. inversion E; subst. apply dict_mem_set_same.
    + intros y _ Hy d' E. inversion E; subst. apply dict_mem_set.
      apply Hy. reflexivity.
Qed.

Lemma fill_loop_sections input_score r d' :
  for_each required_sections (fill_section input_score) r = Ok (VDict d') ->
  has_sections (VDict d').
Proof.
  intros H.
  apply (for_each_establishes present_if_dict (fill_section input_score)
           required_sections required_nodup) in H.
  - exists d'. split; [reflexivity|]. intros s Hs.
    destruct H as [H _]. apply (H s Hs). reflexivity.
  - intros r0 x r0' _ Hx. apply fill_section_present in Hx. exact Hx.
Qed.

Lemma validate_loop_sections r r' :
  for_each criteria validate_criterion r = Ok r' ->
  has_sections r -> has_sections r'.
Proof.
  apply (for_each_preserves has_sections).
  intros r0 x r0' H (d0 & -> & Hd).
  apply validate_criterion_is_dict in H as (d & d' & E & -> & K).
  inversion E; subst d0. exists d'. split; [reflexivity|].
  intros s Hs. apply K, Hd, Hs.
Qed.

Lemma validate_loop_is_dict r r' :
  for_each criteria validate_criterion r = Ok r' -> exists d, r = VDict d.
Proof.
  unfold criteria. simpl. intros H. inv_bind H.
  apply validate_criterion_is_dict in Ha as (d & _ & -> & _). eauto.
Qed.

Lemma maybe_set_only_overall (b : bool) r f v r' :
  (if b then set_field r (lit "overall") f v else Ok r) = Ok r' ->
  only_overall r r' /\ (has_sections r -> has_sections r')
  /\ forall f', f' <> f ->
       get_field r' (lit "overall") f' = get_field r (lit "overall") f'.
Proof.
  destruct b; intros H.
  - split; [eapply set_overall_only; eassumption|].
    split; [eapply set_field_has_sections; eassumption|].
    intros f' Hf. eapply get_set_field_other_field; eassumption.
  - inversion H; subst. split; [apply only_overall_refl|auto].
Qed.

Lemma scores_of_scored r f :
  (forall c, In c criteria -> scored f c r) -> exists ns, scores_of r f ns.
Proof.
  intros H. destruct (sum_fields_scored r f criteria H) as (ns & F & _).
  exists ns. exact F.
Qed.

(** What a successful run returns: six valid scores of each kind, the
    clamped input score, the improved total equal to the sum of the
    improved scores, and all sections present. *)
Lemma run_summary json_dumps chat_model user_story aspects context input_score r :
  run json_dumps chat_model user_story aspects context input_score r ->
  exists ns_score ns_improved n,
    scores_of r (lit "score") ns_score
    /\ scores_of r (lit "improved_score") ns_improved
    /\ get_field r (lit "overall") (lit "improved_score")
       = Ok (VInt (total ns_improved))
    /\ get_field r (lit "overall") (lit "input_score") = Ok (VInt (clamp 0 30 n))
    /\ has_sections r.
Proof.
  intros [].
  pose proof (validate_loop_scored _ _ Hvalid) as Hsc.
  destruct (scores_of_scored r2 (lit "score")) as (ns_score & Fs);
    [intros c Hc; apply (Hsc c Hc)|].
  destruct (scores_of_scored r2 (lit "improved_score")) as (ns_improved & Fi);
    [intros c Hc; apply (Hsc c Hc)|].
  pose proof (sum_fields_value _ _ _ _ _ Fi Hsum) as ->.
  assert (S2 : has_sections r2).
  { destruct (validate_loop_is_dict _ _ Hvalid) as (d1 & ->).
    eapply validate_loop_sections; [eassumption|].
    eapply fill_loop_sections; eassumption. }
  apply maybe_set_only_overall in Hin0 as (O23 & S23 & _).
  pose proof (set_overall_only _ _ _ _ Hin) as O34.
  pose proof (set_field_has_sections _ _ _ _ _ Hin) as S34.
  pose proof (get_set_field_same _ _ _ _ _ Hin) as G4.
  apply maybe_set_only_overall in Himp0 as (O45 & S45 & G45).
  pose proof (set_overall_only _ _ _ _ Himp) as O56.
  pose proof (set_field_has_sections _ _ _ _ _ Himp) as S56.
  assert (G6 : get_field r6 (lit "overall") (lit "input_score")
               = Ok (VInt (clamp 0 30 n1))).
  { rewrite (get_set_field_other_field _ _ _ _ _ (lit "input_score") Himp)
      by neq_lit.
    rewrite G45 by neq_lit. exact G4. }
  assert (O26 : only_overall r2 r6).
  { eapply only_overall_trans; [|exact O56].
    eapply only_overall_trans; [|exact O45].
    eapply only_overall_trans; [exact O23|exact O34]. }
  assert (S6 : has_sections r6) by auto.
  exists ns_score, ns_improved, n1.
  destruct (Z.eqb (clamp 0 30 n2) (total ns_improved)) eqn:Eq.
  - subst r. apply Z.eqb_eq in Eq.
    split; [|split; [|split; [|split]]].
    + eapply only_overall_scores; eassumption.
    + eapply only_overall_scores; eassumption.
    + rewrite <- Eq. eapply get_set_field_same; eassumption.
    + exact G6.
    + exact S6.
  - destruct Hend as (r7 & current & updated & H7 & _ & _ & Hr).
    pose proof (set_overall_only _ _ _ _ H7) as O67.
    pose proof (set_overall_only _ _ _ _ Hr) as O7r.
    assert (O2r : only_overall r2 r).
    { eapply only_overall_trans; [|exact O7r].
      eapply only_overall_trans; [exact O26|exact O67]. }
    split; [eapply only_overall_scores; eassumption|].
    split; [eapply only_overall_scores; eassumption|].
    split.
    { rewrite (get_set_field_other_field _ _ _ _ _ (lit "improved_score") Hr)
        by neq_lit.
      eapply get_set_field_same; eassumption. }
    split.
    { rewrite (get_set_field_other_field _ _ _ _ _ (lit "input_score") Hr)
        by neq_lit.
      rewrite (get_set_field_other_field _ _ _ _ _ (lit "input_score") H7)
        by neq_lit.
      exact G6. }
    eapply set_field_has_sections; [exact Hr|].
    eapply set_field_has_sections; [exact H7|exact S6].
Qed.

End GuidedFacts.

(** ** The baseline analyzer, step by step *)

Module BaselineFacts.
Import Refinement.
Import GuidedFacts.

Lemma baseline_validate_sets r c r' :
  validate_criterion r c = Ok r' ->
  exists n, (1 <= n <= 5)%Z /\ set_field r c (lit "score") (VInt n) = Ok r'.
Proof.
  unfold validate_criterion. intros H. inv_bind H.
  exists (Z.max 1 (Z.min 5 a)). split; [lia|exact H].
Qed.

Definition scored_1_5 (c : str) (r : value) : Prop :=
  exists n, get_field r c (lit "score") = Ok (VInt n) /\ (1 <= n <= 5)%Z.

Lemma baseline_loop_scored r r' :
  for_each criteria validate_criterion r = Ok r' ->
  forall c, In c criteria -> scored_1_5 c r'.
Proof.
  intros H.
  apply (for_each_establishes scored_1_5 validate_criterion criteria
           criteria_nodup) in H; [apply H|].
  intros r0 x r0' _ Hx. apply baseline_validate_sets in Hx as (n & Vn & S).
  split.
  - exists n. split; [|exact Vn]. eapply get_set_field_same; eassumption.
  - intros y Hy (m & Hm & Vm). exists m. split; [|exact Vm].
    rewrite (get_set_field_other_section _ _ _ _ _ y _ S Hy). exact Hm.
Qed.

Lemma baseline_loop_sections r r' :
  for_each criteria validate_criterion r = Ok r' ->
  has_sections r -> has_sections r'.
Proof.
  apply (for_each_preserves has_sections).
  intros r0 x r0' H Hs. apply baseline_validate_sets in H as (n & _ & S).
  eapply set_field_has_sections; eassumption.
Qed.

Lemma baseline_loop_is_dict r r' :
  for_each criteria validate_criterion r = Ok r' -> exists d, r = VDict d.
Proof.
  unfold criteria. simpl. intros H. inv_bind H.
  apply baseline_validate_sets in Ha as (n & _ & S).
  apply set_field_inv in S as (d & _ & -> & _). eauto.
Qed.

Lemma baseline_fill_cases r s r' :
  fill_section r s = Ok r' ->
  (py_in s r = Ok true /\ r' = r)
  \/ (exists d v, r = VDict d /\ dict_mem d s = false
                  /\ r' = VDict (dict_set d s v)).
Proof.
  unfold fill_section. intros H. inv_bind H. destruct a; cbn [negb] in H.
  - left. inversion H; subst. split; [exact Ha|reflexivity].
  - right.
    assert (G : exists v, py_setitem r s v = Ok r').
    { destruct (str_in s story_sections); [eexists; exact H|].
      destruct (str_eqb s (lit "overall")); eexists; exact H. }
    destruct G as (v & G). apply py_setitem_inv in G as (d & -> & ->).
    simpl in Ha. inversion Ha. eauto.
Qed.

Lemma baseline_fill_sections r d' :
  for_each required_sections fill_section r = Ok (VDict d') ->
  has_sections (VDict d').
Proof.
  intros H.
  apply (for_each_establishes present_if_dict fill_section
           required_sections required_nodup) in H.
  - exists d'. split; [reflexivity|]. intros s Hs.
    destruct H as [H _]. apply (H s Hs). reflexivity.
  - intros r0 x r0' _ Hx.
    apply baseline_fill_cases in Hx as [[Hin ->]|(d & v & -> & Hm & ->)].
    + split; [|auto]. intros d ->. simpl in Hin. inversion Hin. reflexivity.
    + split.
      * intros d0 E. inversion E; subst. apply dict_mem_set_same.
      * intros y _ Hy d0 E. inversion E; subst. apply dict_mem_set.
        apply Hy. reflexivity.
Qed.

(** The steps of a successful run of the [try] block. *)
Inductive run (json_dumps : value -> str) (chat_model : list message -> reply)
  (user_story : value) (r : value) : Prop :=
| Run (content : str) (parsed r1 r2 r3 : value) (sum n : Z)
    (Hreply : chat_model (create_analysis_prompt json_dumps user_story)
              = Replied content)
    (Hparse : json_loads (sanitize_json_string (strip content)) = Ok parsed)
    (Hfill : for_each required_sections fill_section parsed = Ok r1)
    (Hvalid : for_each criteria validate_criterion r1 = Ok r2)
    (Hsum : sum_fields r2 (lit "score") criteria = Ok sum)
    (Hscore : set_field r2 (lit "overall") (lit "score") (VInt sum) = Ok r3)
    (Hn : (overall <- py_getitem r3 (lit "overall") ;;
           v <- py_get overall (lit "improved_score") (VInt 0) ;;
           py_int v) = Ok n)
    (Himp : set_field r3 (lit "overall") (lit "improved_score")
              (VInt (Z.min 30 n)) = Ok r).

Lemma baseline_body_run json_dumps chat_model user_story r :
  analysis_body json_dumps chat_model user_story = Ok r ->
  run json_dumps chat_model user_story r.
Proof.
  unfold analysis_body. intros H.
  destruct (chat_model _) as [content|e] eqn:Hreply; [|discriminate].
  inv_bind H. inv_bind H. inv_bind H. inv_bind H. inv_bind H. inv_bind H.
  eapply Run; eassumption.
Qed.

Lemma valid_of_1_5 n : (1 <= n <= 5)%Z -> valid_score n.
Proof. intros H. right. exact H. Qed.

(** What a successful run returns. *)
Lemma baseline_summary json_dumps chat_model user_story r :
  run json_dumps chat_model user_story r ->
  exists ns n,
    scores_of r (lit "score") ns
    /\ Forall (fun k => 1 <= k <= 5)%Z ns
    /\ get_field r (lit "overall") (lit "score") = Ok (VInt (total ns))
    /\ get_field r (lit "overall") (lit "improved_score") = Ok (VInt (Z.min 30 n))
    /\ has_sections r.
Proof.
  intros [].
  pose proof (baseline_loop_scored _ _ Hvalid) as Hsc.
  assert (F : exists ns,
             Forall2 (fun c k => get_field r2 c (lit "score") = Ok (VInt k)
                                 /\ (1 <= k <= 5)%Z) criteria ns).
  { clear - Hsc. revert Hsc. generalize criteria. induction l as [|c l IH].
    - exists []. constructor.
    - intros H. destruct (H c (or_introl eq_refl)) as (k & Hk & Vk).
      destruct IH as (ns & F); [intros x Hx; apply H; right; exact Hx|].
      exists (k :: ns). constructor; auto. }
  destruct F as (ns & F).
  assert (Fs : scores_of r2 (lit "score") ns).
  { unfold scores_of. eapply Forall2_impl; [|exact F].
    intros c k [Hk Vk]. split; [exact Hk|apply valid_of_1_5, Vk]. }
  assert (Fb : Forall (fun k => 1 <= k <= 5)%Z ns).
  { clear - F. induction F as [|c k l ns [_ V] _ IH]; constructor; assumption. }
  pose proof (sum_fields_value _ _ _ _ _ Fs Hsum) as ->.
  assert (S2 : has_sections r2).
  { destruct (baseline_loop_is_dict _ _ Hvalid) as (d1 & ->).
    eapply baseline_loop_sections; [eassumption|].
    eapply baseline_fill_sections; eassumption. }
  exists ns, n.
  assert (O : only_overall r2 r).
  { eapply only_overall_trans; eapply set_overall_only; eassumption. }
  split; [eapply only_overall_scores; eassumption|].
  split; [exact Fb|].
  split.
  { rewrite (get_set_field_other_field _ _ _ _ _ (lit "score") Himp) by neq_lit.
    eapply get_set_field_same; eassumption. }
  split; [eapply get_set_field_same; eassumption|].
  eapply set_field_has_sections; [exact Himp|].
  eapply set_field_has_sections; [exact Hscore|exact S2].
Qed.

End BaselineFacts.

(** ** The error result *)

Lemma guided_error_scores e n f :
  f = lit "score" \/ f = lit "improved_score" ->
  scores_of (ReRefine.error_result e n) f [0; 0; 0; 0; 0; 0]%Z.
Proof.
  intros [-> | ->]; unfold scores_of, criteria; simpl;
    repeat (constructor; [split; [reflexivity|left; reflexivity]|]); constructor.
Qed.

Lemma baseline_error_scores e :
  scores_of (Refinement.error_result e) (lit "score") [0; 0; 0; 0; 0; 0]%Z.
Proof.
  unfold scores_of, criteria; simpl;
    repeat (constructor; [split; [reflexivity|left; reflexivity]|]); constructor.
Qed.


Lemma in_criteria_cases (P : str -> Prop) :
  P (lit "Independent") -> P (lit "Negotiable") -> P (lit "Valuable") ->
  P (lit "Estimable") -> P (lit "Small") -> P (lit "Testable") ->
  forall c, In c criteria -> P c.
Proof.
  intros. unfold criteria in *. simpl in *.
  repeat match goal with
         | H : _ \/ _ |- _ => destruct H as [<-|H]; [assumption|]
         end.
  contradiction.
Qed.



(** ** C1: the aggregate is the sum of the six scores *)

(** C1.  Every result of normalization has six per-criterion scores in
    [{0} U [1,5]] and an aggregate equal to their sum: in the guided variant
    the six [improved_score] values sum to [overall.improved_score] (and the
    six [score] values are valid too), in the baseline variant the six
    [score] values sum to [overall.score].  This holds of every result that
    [analyze_user_story] returns, so in particular of every non-error one. *)
Theorem C1_aggregate_is_sum :
  forall json_dumps chat_model user_story aspects_to_enhance additional_context
         input_score,
    (exists ns_score ns_improved,
        let r := ReRefine.analyze_user_story json_dumps chat_model user_story
                   aspects_to_enhance additional_context input_score in
        scores_of r (lit "score") ns_score
        /\ scores_of r (lit "improved_score") ns_improved
        /\ get_field r (lit "overall") (lit "improved_score")
           = Ok (VInt (total ns_improved)))
    /\ (exists ns,
        let r := Refinement.analyze_user_story json_dumps chat_model user_story in
        scores_of r (lit "score") ns
        /\ get_field r (lit "overall") (lit "score") = Ok (VInt (total ns))).
Proof.
  intros jd cm us a c n. split.
  - unfold ReRefine.analyze_user_story.
    destruct (ReRefine.analysis_body jd cm us a c n) as [r|e] eqn:E.
    + apply GuidedFacts.analysis_body_run, GuidedFacts.run_summary in E
        as (ns1 & ns2 & k & F1 & F2 & G & _).
      exists ns1, ns2. auto.
    + exists [0; 0; 0; 0; 0; 0]%Z, [0; 0; 0; 0; 0; 0]%Z. cbv zeta.
      split; [apply guided_error_scores; left; reflexivity|].
      split; [apply guided_error_scores; right; reflexivity|reflexivity].
  - unfold Refinement.analyze_user_story.
    destruct (Refinement.analysis_body jd cm us) as [r|e] eqn:E.
    + apply BaselineFacts.baseline_body_run, BaselineFacts.baseline_summary in E
        as (ns & k & F & _ & G & _).
      exists ns. auto.
    + exists [0; 0; 0; 0; 0; 0]%Z. cbv zeta.
      split; [apply baseline_error_scores|reflexivity].
Qed.

(** ** Sample inputs *)

(** JSON texts of the examples are written with an apostrophe wherever the
    text has a double quote. *)
Definition json_text (s : string) : str :=
  map (fun c => if N.eqb c 39 then dquote else c) (lit s).

(** A user story passed as text, so that [json.dumps] is not called. *)
Definition sample_story : value :=
  VStr (lit "As a user I want to log in so that I can see my orders").

Definition no_dumps (v : value) : str := [].

(** A chat model that answers [content] whatever the prompt. *)
Definition answering (content : str) : list message -> reply :=
  fun _ => Replied content.

(** ** C10 and C3: failures become the error result *)

(** C10.  Whenever the [try] block of the guided [analyze_user_story] fails
    with an exception [e], the function returns the error result: its
    [overall.input_score] is the caller's [input_score] argument as it was
    passed, every other number is 0, every text is empty except
    [overall.summary], which is ['Error in analysis'], and [error] is
    ['Analysis failed: '] followed by [str(e)]. *)
Theorem C10_error_result_keeps_input_score :
  forall json_dumps chat_model user_story aspects_to_enhance additional_context
         input_score e,
    ReRefine.analysis_body json_dumps chat_model user_story aspects_to_enhance
      additional_context input_score = Raise e ->
    let r := ReRefine.analyze_user_story json_dumps chat_model user_story
               aspects_to_enhance additional_context input_score in
    py_getitem r (lit "error")
    = Ok (VStr (lit "Analysis failed: " ++ exn_str e))
    /\ get_field r (lit "overall") (lit "input_score") = Ok (VInt input_score)
    /\ get_field r (lit "overall") (lit "improved_score") = Ok (VInt 0)
    /\ get_field r (lit "overall") (lit "summary")
       = Ok (VStr (lit "Error in analysis"))
    /\ get_field r (lit "overall") (lit "refinement_summary") = Ok (VStr [])
    /\ (forall c, In c criteria ->
          py_getitem r c
          = Ok (VDict [(lit "score", VInt 0); (lit "improved_score", VInt 0);
                       (lit "explanation", VStr []);
                       (lit "recommendation", VStr [])]))
    /\ (forall s, In s story_sections ->
          py_getitem r s
          = Ok (VDict [(lit "Title", VStr []); (lit "Description", VStr []);
                       (lit "AcceptanceCriteria", VList []);
                       (lit "AdditionalInformation", VStr [])])).
Proof.
  intros jd cm us a c n e H r. subst r.
  unfold ReRefine.analyze_user_story. rewrite H.
  repeat (split; [reflexivity|]). split.
  - apply in_criteria_cases; reflexivity.
  - intros s Hs. unfold story_sections in Hs. simpl in Hs.
    destruct Hs as [<-|[<-|[]]]; reflexivity.
Qed.

Lemma C10_witness :
  let r := ReRefine.analyze_user_story no_dumps
             (fun _ => Failed (Exn OtherError (lit "connection refused")))
             sample_story [] [] 17 in
  py_getitem r (lit "error")
  = Ok (VStr (lit "Analysis failed: connection refused"))
  /\ get_field r (lit "overall") (lit "input_score") = Ok (VInt 17).
Proof.
  pose proof (C10_error_result_keeps_input_score no_dumps
                (fun _ => Failed (Exn OtherError (lit "connection refused")))
                sample_story [] [] 17
                (Exn OtherError (lit "connection refused")) eq_refl) as H.
  destruct H as (H1 & H2 & _). split; [exact H1|exact H2].
Defined.







(** ** C5 and C8: two places where the code misses what it sets out to do *)

(** A guided response without the [Testable] section. *)
Definition response_without_testable : str :=
  json_text
    "{'OriginalUserStory': {'Title': 'Login', 'Description': 'd', 'AcceptanceCriteria': ['a'], 'AdditionalInformation': ''},
      'ImprovedUserStory': {'Title': 'Login', 'Description': 'd', 'AcceptanceCriteria': ['a', 'b'], 'AdditionalInformation': ''},
      'Independent': {'score': 3, 'improved_score': 4, 'explanation': 'e', 'recommendation': 'r'},
      'Negotiable': {'score': 3, 'improved_score': 4, 'explanation': 'e', 'recommendation': 'r'},
      'Valuable': {'score': 3, 'improved_score': 4, 'explanation': 'e', 'recommendation': 'r'},
      'Estimable': {'score': 3, 'improved_score': 4, 'explanation': 'e', 'recommendation': 'r'},
      'Small': {'score': 3, 'improved_score': 4, 'explanation': 'e', 'recommendation': 'r'},
      'overall': {'input_score': 15, 'improved_score': 20, 'summary': 's', 'refinement_summary': '* clearer'}}".

(** C5, on the code.  For a response without the [Testable] section both
    analyzers return normally (no [error] key, so no exception was caught,
    and none escapes), but the [Testable] section of the result is not the
    injected default: the default's 0 goes through the clamp of the second
    loop and comes out as 1 (both scores in the guided variant). *)
Theorem C5_default_score_is_clamped_to_one :
  (py_in (lit "Testable")
     match json_loads (sanitize_json_string (strip response_without_testable))
     with Ok parsed => parsed | Raise _ => VNone end = Ok false)
  /\ (let r := ReRefine.analyze_user_story no_dumps
                 (answering response_without_testable) sample_story [] [] 15 in
      py_in (lit "error") r = Ok false
      /\ py_getitem r (lit "Testable")
         = Ok (VDict [(lit "score", VInt 1); (lit "improved_score", VInt 1);
                      (lit "explanation", VStr []);
                      (lit "recommendation", VStr [])]))
  /\ (let r := Refinement.analyze_user_story no_dumps
                 (answering response_without_testable) sample_story in
      py_in (lit "error") r = Ok false
      /\ py_getitem r (lit "Testable")
         = Ok (VDict [(lit "score", VInt 1); (lit "explanation", VStr []);
                      (lit "recommendation", VStr [])])).
Proof. vm_compute. repeat split. Qed.

(** A baseline response whose [overall.improved_score] is negative. *)
Definition response_negative_improved : str :=
  json_text
    "{'OriginalUserStory': {'Title': 'Login', 'Description': 'd', 'AcceptanceCriteria': ['a'], 'AdditionalInformation': ''},
      'ImprovedUserStory': {'Title': 'Login', 'Description': 'd', 'AcceptanceCriteria': ['a', 'b'], 'AdditionalInformation': ''},
      'Independent': {'score': 3, 'explanation': 'e', 'recommendation': 'r'},
      'Negotiable': {'score': 3, 'explanation': 'e', 'recommendation': 'r'},
      'Valuable': {'score': 3, 'explanation': 'e', 'recommendation': 'r'},
      'Estimable': {'score': 3, 'explanation': 'e', 'recommendation': 'r'},
      'Small': {'score': 3, 'explanation': 'e', 'recommendation': 'r'},
      'Testable': {'score': 3, 'explanation': 'e', 'recommendation': 'r'},
      'overall': {'score': 18, 'improved_score': -5, 'summary': 's', 'refinement_summary': '* clearer'}}".

(** C8, on the code.  The baseline analyzer bounds [overall.improved_score]
    from above only ([min(30, ...)], where the guided analyzer has
    [max(0, min(30, ...))]): a negative value reported by the model is
    returned as it is, in a result that is not an error result. *)
Theorem C8_baseline_improved_score_negative :
  let r := Refinement.analyze_user_story no_dumps
             (answering response_negative_improved) sample_story in
  py_in (lit "error") r = Ok false
  /\ get_field r (lit "overall") (lit "score") = Ok (VInt 18)
  /\ get_field r (lit "overall") (lit "improved_score") = Ok (VInt (-5)).
Proof. vm_compute. repeat split. Qed.

(** The rest of C8 holds: the guided aggregates and the baseline
    [overall.score] of a normal result are within [0, 30]. *)
Lemma overall_ranges json_dumps chat_model user_story aspects context input_score :
  (forall r,
      ReRefine.analysis_body json_dumps chat_model user_story aspects context
        input_score = Ok r ->
      exists a b,
        get_field r (lit "overall") (lit "input_score") = Ok (VInt a)
        /\ get_field r (lit "overall") (lit "improved_score") = Ok (VInt b)
        /\ (0 <= a <= 30)%Z /\ (0 <= b <= 30)%Z)
  /\ (forall r,
      Refinement.analysis_body json_dumps chat_model user_story = Ok r ->
      exists a b,
        get_field r (lit "overall") (lit "score") = Ok (VInt a)
        /\ get_field r (lit "overall") (lit "improved_score") = Ok (VInt b)
        /\ (6 <= a <= 30)%Z /\ (b <= 30)%Z).
Proof.
  split; intros r E.
  - apply GuidedFacts.analysis_body_run, GuidedFacts.run_summary in E
      as (ns1 & ns2 & k & _ & F2 & G & I & _).
    exists (GuidedFacts.clamp 0 30 k), (total ns2).
    split; [exact I|]. split; [exact G|].
    pose proof (total_bounds _ (scores_of_valid _ _ _ F2)) as B.
    rewrite (scores_of_length _ _ _ F2) in B.
    unfold GuidedFacts.clamp. lia.
  - apply BaselineFacts.baseline_body_run, BaselineFacts.baseline_summary in E
      as (ns & k & F & Fb & G & I & _).
    exists (total ns), (Z.min 30 k).
    split; [exact G|]. split; [exact I|].
    pose proof (scores_of_length _ _ _ F) as L.
    assert (B : (Z.of_nat (List.length ns) <= total ns
                 <= 5 * Z.of_nat (List.length ns))%Z).
    { clear - Fb. induction Fb as [|x l Hx _ IH]; simpl; lia. }
    rewrite L in B. lia.
Qed.

(** ** C9: the placeholders of the guided prompt *)

(** [p] occurs in [s]. *)
Definition contains (p s : str) : Prop := exists pre post, s = pre ++ p ++ post.

Lemma contains_skip p a b : contains p b -> contains p (a ++ b).
Proof.
  intros (pre & post & ->). exists (a ++ pre), post.
  rewrite app_assoc. reflexivity.
Qed.

(** The two fields of the refinement guidance, as the prompt lays them out. *)
Definition aspects_field (text : str) : str :=
  lit "            ### Aspects of the user story to enhance:" ++ nl
  ++ lit "            " ++ text ++ nl.

Definition context_field (text : str) : str :=
  lit "            ### Additional information or context to consider:" ++ nl
  ++ lit "            " ++ text ++ nl.

Lemma human_text_fields user_story aspects context input_score :
  contains (aspects_field aspects)
    (ReRefine.human_text user_story aspects context input_score)
  /\ contains (context_field context)
       (ReRefine.human_text user_story aspects context input_score).
Proof.
  unfold ReRefine.human_text, aspects_field, context_field. split.
  - do 8 apply contains_skip.
    eexists [], _. cbn [app]. rewrite <- !app_assoc. reflexivity.
  - do 14 apply contains_skip.
    eexists [], _. cbn [app]. rewrite <- !app_assoc. reflexivity.
Qed.

(** The hint [name] of the envelope is absent or the empty string. *)
Definition hint_is_empty (data : value) (name : str) : Prop :=
  py_get data name (VStr []) = Ok (VStr []).

(** C9.  In the guided pipeline, for an envelope that [preprocess_input]
    accepts: when the hint [aspects_to_enhance] is absent or empty, the
    prompt built from what [preprocess_input] returns has the sentence
    ['No specific aspects provided.'] in the place of the aspects, and when
    [additional_context] is absent or empty it has ['No additional context
    provided.'] in the place of the context.  That prompt is what
    [analyze_user_story] hands to the model. *)
Theorem C9_placeholders_in_prompt :
  forall json_dumps user_input data user_story aspects context input_score,
    json_loads user_input = Ok data ->
    ReRefine.preprocess_input user_input
    = Ok (user_story, aspects, context, input_score) ->
    exists human,
      ReRefine.create_analysis_prompt json_dumps user_story aspects context
        input_score = [(System, ReRefine.system_text); (Human, human)]
      /\ (hint_is_empty data (lit "aspects_to_enhance") ->
          aspects = lit "No specific aspects provided."
          /\ contains (aspects_field (lit "No specific aspects provided.")) human)
      /\ (hint_is_empty data (lit "additional_context") ->
          context = lit "No additional context provided."
          /\ contains (context_field (lit "No additional context provided."))
               human)
      /\ (forall chat_model,
             ReRefine.analysis_body json_dumps chat_model user_story aspects
               context input_score
             = ReRefine.analysis_body json_dumps
                 (fun _ => chat_model [(System, ReRefine.system_text);
                                       (Human, human)])
                 user_story aspects context input_score).
Proof.
  intros jd user_input data us a c n Hd H.
  unfold ReRefine.preprocess_input in H. rewrite Hd in H.
  destruct (ReRefine.preprocess_body data) as [res|e] eqn:B; [|discriminate].
  inversion H; subst res. clear H.
  unfold ReRefine.preprocess_body in B.
  inv_bind B. destruct a0; cbn [negb] in B; [|discriminate].
  inv_bind B. rename a0 into story.
  inv_bind B. rename a0 into checked.
  inv_bind B. rename a0 into a_hint, Ha2 into Hhint_a.
  inv_bind B. rename a0 into c_hint, Ha2 into Hhint_c.
  inv_bind B. rename a0 into score. inv_bind B. rename a0 into k.
  inversion B; subst. clear B.
  assert (Hempty : forall name msg s,
             ReRefine.hint data name msg = Ok s -> hint_is_empty data name ->
             s = []).
  { intros name msg s Hh E. unfold ReRefine.hint in Hh. unfold hint_is_empty in E.
    rewrite E in Hh. simpl in Hh. inversion Hh. reflexivity. }
  eexists. split; [reflexivity|].
  destruct (human_text_fields
              (match us with VStr s => s | _ => jd us end)
              (ReRefine.or_placeholder a_hint ReRefine.no_aspects)
              (ReRefine.or_placeholder c_hint ReRefine.no_context)
              (str_of_int (Z.max 0 (Z.min 30 k)))) as [FA FC].
  split; [|split].
  - intros E. rewrite (Hempty _ _ _ Hhint_a E) in *.
    split; [reflexivity|exact FA].
  - intros E. rewrite (Hempty _ _ _ Hhint_c E) in *.
    split; [reflexivity|exact FC].
  - intros cm. reflexivity.
Qed.

(** An envelope with an empty [aspects_to_enhance] and no
    [additional_context]. *)
Definition envelope_without_hints : str :=
  json_text
    "{'UserStory': {'Title': 'Login', 'Description': 'sign in', 'AcceptanceCriteria': ['a'], 'AdditionalInformation': ''},
      'aspects_to_enhance': '', 'overall': {'score': 14}}".

Definition envelope_data : value :=
  Eval vm_compute in
    match json_loads envelope_without_hints with
    | Ok data => data
    | Raise _ => VNone
    end.

Definition envelope_story : value :=
  Eval vm_compute in
    match py_getitem envelope_data (lit "UserStory") with
    | Ok story => story
    | Raise _ => VNone
    end.

Lemma C9_witness :
  exists human,
    ReRefine.preprocess_input envelope_without_hints
    = Ok (envelope_story, lit "No specific aspects provided.",
          lit "No additional context provided.", 14%Z)
    /\ ReRefine.create_analysis_prompt no_dumps envelope_story
         (lit "No specific aspects provided.")
         (lit "No additional context provided.") 14
       = [(System, ReRefine.system_text); (Human, human)]
    /\ contains (aspects_field (lit "No specific aspects provided.")) human
    /\ contains (context_field (lit "No additional context provided.")) human.
Proof.
  assert (Hd : json_loads envelope_without_hints = Ok envelope_data)
    by (vm_compute; reflexivity).
  assert (Hp : ReRefine.preprocess_input envelope_without_hints
               = Ok (envelope_story, lit "No specific aspects provided.",
                     lit "No additional context provided.", 14%Z))
    by (vm_compute; reflexivity).
  destruct (C9_placeholders_in_prompt no_dumps envelope_without_hints
              envelope_data envelope_story _ _ _ Hd Hp)
    as (human & Hprompt & HA & HC & _).
  exists human. split; [exact Hp|]. split; [exact Hprompt|]. split.
  - apply HA. vm_compute. reflexivity.
  - apply HC. vm_compute. reflexivity.
Defined.

(** ** C6: what the sanitizer does to a string literal *)

Lemma sub_literals_match c r v rest :
  match_literal (c :: r) = Some (v, rest) ->
  sub_literals (c :: r) = clean_string_value v ++ sub_literals rest.
Proof.
  intros H. funelim (sub_literals (c :: r)).
  - match goal with
    | E1 : match_literal ?s = Some (?a, ?b), E2 : match_literal ?s = Some (?a', ?b')
      |- _ => assert (Some (a, b) = Some (a', b')) as E by congruence;
              inversion E; subst; reflexivity
    end.
  - congruence.
Qed.

Lemma sub_literals_nomatch c r :
  match_literal (c :: r) = None -> sub_literals (c :: r) = c :: sub_literals r.
Proof.
  intros H. funelim (sub_literals (c :: r)).
  - congruence.
  - reflexivity.
Qed.

(** The three replacements of [clean_string_value]. *)
Definition escaped (value : str) : str :=
  replace_char creturn (lit "\r")
    (replace_char tab (lit "\t") (replace_char newline (lit "\n") value)).

Lemma clean_string_value_escaped v :
  clean_string_value v = dquote :: escaped v ++ [dquote].
Proof. reflexivity. Qed.

Lemma replace_char_app c by_ a b :
  replace_char c by_ (a ++ b) = replace_char c by_ a ++ replace_char c by_ b.
Proof. unfold replace_char. apply flat_map_app. Qed.


(** The escaped text has no raw newline, tab or carriage return left. *)
Lemma escaped_clean v c :
  In c (escaped v) -> c <> newline /\ c <> tab /\ c <> creturn.
Proof.
  unfold escaped, replace_char. intros H.
  apply in_flat_map in H as (x & Hx & Hc).
  apply in_flat_map in Hx as (y & Hy & Hx).
  apply in_flat_map in Hy as (z & _ & Hy).
  destruct (N.eqb z newline) eqn:Ez.
  - simpl in Hy. destruct Hy as [<-|[<-|[]]]; simpl in Hx;
      destruct Hx as [<-|[]]; simpl in Hc; destruct Hc as [<-|[]];
      repeat split; discriminate.
  - destruct Hy as [<-|[]]. destruct (N.eqb z tab) eqn:Et.
    + simpl in Hx. destruct Hx as [<-|[<-|[]]]; simpl in Hc;
        destruct Hc as [<-|[]]; repeat split; discriminate.
    + destruct Hx as [<-|[]]. destruct (N.eqb z creturn) eqn:Er.
      * simpl in Hc. destruct Hc as [<-|[<-|[]]]; repeat split; discriminate.
      * destruct Hc as [<-|[]].
        apply N.eqb_neq in Ez, Et, Er. auto.
Qed.

(** The body of a literal: no bare quote, and every backslash followed by a
    character other than a newline. *)
Fixpoint well_escaped (body : str) : bool :=
  match body with
  | [] => true
  | c :: r =>
      if N.eqb c dquote then false
      else if N.eqb c backslash then
        match r with
        | d :: r' => negb (N.eqb d newline) && well_escaped r'
        | [] => false
        end
      else well_escaped r
  end.

Lemma literal_body_well_escaped body post :
  well_escaped body = true ->
  literal_body (body ++ dquote :: post) = Some (body, post).
Proof.
  induction body as [body IH] using (well_founded_induction
    (Wf_nat.well_founded_ltof _ (@List.length char))).
  unfold Wf_nat.ltof in IH. destruct body as [|c r]; intros H.
  - reflexivity.
  - cbn [app literal_body]. cbn [well_escaped] in H.
    destruct (N.eqb c dquote); [discriminate|].
    destruct (N.eqb c backslash).
    + destruct r as [|d r']; [discriminate|]. cbn [app].
      apply andb_prop in H as [Hd Hr].
      destruct (N.eqb d newline); [discriminate|].
      rewrite IH; [reflexivity|simpl; lia|exact Hr].
    + rewrite IH; [reflexivity|simpl; lia|exact H].
Qed.

Definition no_quote (s : str) : Prop := Forall (fun c => c <> dquote) s.
Definition control_free (s : str) : Prop := Forall (fun c => is_control c = false) s.

Lemma sub_literals_skip pre s :
  no_quote pre -> sub_literals (pre ++ s) = pre ++ sub_literals s.
Proof.
  induction 1 as [|c pre Hc _ IH]; [reflexivity|].
  cbn [app]. rewrite sub_literals_nomatch.
  - rewrite IH. reflexivity.
  - simpl. apply N.eqb_neq in Hc. rewrite Hc. reflexivity.
Qed.

Lemma remove_control_app a b :
  remove_control (a ++ b) = remove_control a ++ remove_control b.
Proof. unfold remove_control. apply filter_app. Qed.

Lemma remove_control_free s : control_free s -> remove_control s = s.
Proof.
  induction 1 as [|c s Hc _ IH]; [reflexivity|].
  unfold remove_control in *. simpl. rewrite Hc. simpl. rewrite IH. reflexivity.
Qed.






(** ** C2: the trailing sentence of the refinement summary *)

Import ReRefine.

Lemma sub_score_match repl c r rest :
  match_score (c :: r) = Some rest ->
  sub_score repl (c :: r) = repl ++ sub_score repl rest.
Proof.
  intros H. funelim (sub_score repl (c :: r)).
  - match goal with
    | E1 : match_score ?s = Some ?a, E2 : match_score ?s = Some ?b |- _ =>
        assert (Some a = Some b) as E by congruence; inversion E; subst;
        reflexivity
    end.
  - congruence.
Qed.

Lemma sub_score_nomatch repl c r :
  match_score (c :: r) = None -> sub_score repl (c :: r) = c :: sub_score repl r.
Proof.
  intros H. funelim (sub_score repl (c :: r)).
  - congruence.
  - reflexivity.
Qed.

Lemma strip_prefix_app p s r : strip_prefix p s = Some r -> s = p ++ r.
Proof.
  revert s. induction p as [|x p IH]; intros s H; simpl in H.
  - inversion H. reflexivity.
  - destruct s as [|y s]; [discriminate|].
    destruct (N.eqb x y) eqn:E; [|discriminate].
    apply N.eqb_eq in E. subst y. rewrite (IH _ H). reflexivity.
Qed.

Lemma strip_prefix_self p r : strip_prefix p (p ++ r) = Some r.
Proof.
  induction p as [|x p IH]; simpl; [reflexivity|].
  rewrite N.eqb_refl. exact IH.
Qed.

Lemma span_decimal_spec s :
  s = fst (span_decimal s) ++ snd (span_decimal s)
  /\ Forall (fun c => is_decimal c = true) (fst (span_decimal s)).
Proof.
  induction s as [|c r [IH1 IH2]]; simpl; [split; [reflexivity|constructor]|].
  destruct (is_decimal c) eqn:E; [|split; [reflexivity|constructor]].
  destruct (span_decimal r) as [ds rest]; simpl in *.
  split; [rewrite IH1 at 1; reflexivity|constructor; assumption].
Qed.

Lemma some_digits_spec s r :
  some_digits s = Some r ->
  exists ds, s = ds ++ r /\ Forall (fun c => is_decimal c = true) ds.
Proof.
  unfold some_digits. pose proof (span_decimal_spec s) as [E F].
  destruct (span_decimal s) as [[|d ds] rest]; [discriminate|].
  intros H. injection H as <-. simpl in E, F. exists (d :: ds). auto.
Qed.

(** The text that a match of the pattern covers. *)
Lemma match_score_spec s rest :
  match_score s = Some rest ->
  exists d1 d2,
    s = lit "INVEST Score improved from " ++ d1 ++ lit "/30 to " ++ d2
        ++ lit "/30" ++ rest
    /\ Forall (fun c => is_decimal c = true) d1
    /\ Forall (fun c => is_decimal c = true) d2.
Proof.
  unfold match_score.
  destruct (strip_prefix _ s) as [r1|] eqn:E1; [|discriminate].
  destruct (some_digits r1) as [r2|] eqn:E2; [|discriminate].
  destruct (strip_prefix _ r2) as [r3|] eqn:E3; [|discriminate].
  destruct (some_digits r3) as [r4|] eqn:E4; [|discriminate].
  intros E5.
  apply strip_prefix_app in E1, E3, E5.
  apply some_digits_spec in E2 as (d1 & -> & F1).
  apply some_digits_spec in E4 as (d2 & -> & F2).
  exists d1, d2. subst. auto.
Qed.

(** Only the first character of a match is the capital I. *)
Lemma match_score_one_I s rest :
  match_score s = Some rest ->
  exists x, s = 73%N :: x ++ rest /\ ~ In 73%N x.
Proof.
  intros H. apply match_score_spec in H as (d1 & d2 & -> & F1 & F2).
  exists (lit "NVEST Score improved from " ++ d1 ++ lit "/30 to " ++ d2
          ++ lit "/30").
  split; [rewrite <- !app_assoc; reflexivity|].
  assert (D : forall ds, Forall (fun c => is_decimal c = true) ds -> ~ In 73%N ds).
  { intros ds F Hin. rewrite Forall_forall in F. apply F in Hin.
    vm_compute in Hin. discriminate Hin. }
  intros Hin. repeat (apply in_app_or in Hin as [Hin|Hin]).
  - vm_compute in Hin. repeat (destruct Hin as [Hin|Hin]; [discriminate Hin|]).
    exact Hin.
  - exact (D _ F1 Hin).
  - vm_compute in Hin. repeat (destruct Hin as [Hin|Hin]; [discriminate Hin|]).
    exact Hin.
  - exact (D _ F2 Hin).
  - vm_compute in Hin. repeat (destruct Hin as [Hin|Hin]; [discriminate Hin|]).
    exact Hin.
Qed.

(** Two ways to cut the same text: one of the left parts extends the other. *)
Lemma app_eq_split {A} (a b c d : list A) :
  a ++ b = c ++ d ->
  (exists t, c = a ++ t /\ b = t ++ d) \/ (exists t, a = c ++ t /\ d = t ++ b).
Proof.
  revert c. induction a as [|x a IH]; intros c H.
  - left. exists c. auto.
  - destruct c as [|y c].
    + right. exists (x :: a). auto.
    + simpl in H. inversion H; subst.
      destruct (IH _ H2) as [(t & -> & ->)|(t & -> & ->)];
        [left|right]; exists t; auto.
Qed.

(** A match that starts before a sentence of the pattern ends before it. *)
Lemma match_score_before p m rest :
  p <> [] -> match_score m = Some [] ->
  match_score (p ++ m) = Some rest ->
  exists p', rest = p' ++ m /\ (List.length p' < List.length p)%nat.
Proof.
  intros Hp Hm H.
  apply match_score_one_I in Hm as (y & Em & _). rewrite app_nil_r in Em.
  apply match_score_one_I in H as (x & E & Hx).
  destruct p as [|c p]; [congruence|]. simpl in E. inversion E; subst c.
  destruct (app_eq_split _ _ _ _ H1) as [(t & -> & Et)|(t & -> & ->)].
  - (* the match would reach into [m] *)
    destruct t as [|i t].
    + simpl in Et. exists []. split; [symmetry; exact Et|simpl; lia].
    + exfalso. apply Hx. apply in_or_app. right.
      rewrite Em in Et. simpl in Et. inversion Et. left. reflexivity.
  - exists t. split; [reflexivity|]. simpl. rewrite length_app. lia.
Qed.

Definition ends_with (suffix s : str) : Prop := exists p, s = p ++ suffix.

(** When the summary ends with a sentence of the pattern, the rewritten
    summary ends with the replacement. *)
Lemma sub_score_ends_with repl p m :
  match_score m = Some [] -> ends_with repl (sub_score repl (p ++ m)).
Proof.
  intros Hm.
  induction p as [p IH] using (well_founded_induction
    (Wf_nat.well_founded_ltof _ (@List.length char))).
  unfold Wf_nat.ltof in IH. destruct p as [|c p].
  - simpl. destruct m as [|c m]; [vm_compute in Hm; discriminate Hm|].
    rewrite (sub_score_match repl c m [] Hm).
    exists []. simp sub_score. rewrite app_nil_r. reflexivity.
  - simpl. destruct (match_score (c :: p ++ m)) as [rest|] eqn:E.
    + rewrite (sub_score_match repl c _ rest E).
      destruct (match_score_before (c :: p) m rest) as (p' & -> & L);
        [discriminate|exact Hm|exact E|].
      destruct (IH p' L) as (u & ->). exists (repl ++ u).
      rewrite app_assoc. reflexivity.
    + rewrite (sub_score_nomatch repl c _ E).
      destruct (IH p) as (u & ->); [simpl; lia|].
      exists (c :: u). reflexivity.
Qed.

(** The pattern occurs nowhere in [s]. *)
Definition occurs_nowhere (s : str) : Prop :=
  forall p t, s = p ++ t -> match_score t = None.

Lemma sub_score_unchanged repl s : occurs_nowhere s -> sub_score repl s = s.
Proof.
  induction s as [|c s IH]; intros H; [reflexivity|].
  rewrite sub_score_nomatch by (apply (H []); reflexivity).
  rewrite IH; [reflexivity|].
  intros p t E. apply (H (c :: p)). rewrite E. reflexivity.
Qed.

(** *** Following a field of the response through the normalizer *)

(** [result[s][f]] when [result] and [result[s]] are dicts that have it. *)
Definition lookup (r : value) (s f : str) : option value :=
  match py_getitem r s with
  | Ok (VDict sd) => dict_get sd f
  | _ => None
  end.

Lemma lookup_get_field r s f v : lookup r s f = Some v -> get_field r s f = Ok v.
Proof.
  unfold lookup, get_field. destruct (py_getitem r s) as [[| | | | | |sd]|e];
    try discriminate.
  simpl. intros ->. reflexivity.
Qed.

Lemma get_field_lookup r s f v : get_field r s f = Ok v -> lookup r s f = Some v.
Proof.
  unfold lookup, get_field. intros H. inv_bind H. rewrite Ha.
  destruct a as [| | | | | |sd]; try discriminate.
  simpl in H. destruct (dict_get sd f); [inversion H; reflexivity|discriminate].
Qed.

Lemma lookup_section r s f v :
  lookup r s f = Some v -> exists sd, py_getitem r s = Ok (VDict sd).
Proof.
  unfold lookup. destruct (py_getitem r s) as [[| | | | | |sd]|e];
    try discriminate. eauto.
Qed.

Lemma lookup_same_section r r' s f :
  py_getitem r' s = py_getitem r s -> lookup r' s f = lookup r s f.
Proof. unfold lookup. intros ->. reflexivity. Qed.

Lemma lookup_set_other_field r s f v r' f' :
  set_field r s f v = Ok r' -> f' <> f -> lookup r' s f' = lookup r s f'.
Proof.
  intros H Hf. apply set_field_inv in H as (d & sd & -> & E & ->).
  unfold lookup. simpl. rewrite dict_get_set_same, E.
  apply dict_get_set_other. exact Hf.
Qed.

Lemma missing_or_not_number_lookup r s f v :
  lookup r s f = Some v -> missing_or_not_number r s f = Ok (negb (is_number v)).
Proof.
  intros H. pose proof (lookup_get_field _ _ _ _ H) as G.
  destruct (lookup_section _ _ _ _ H) as (sd & E).
  unfold missing_or_not_number. rewrite E. simpl.
  unfold lookup in H. rewrite E in H. unfold dict_mem. rewrite H. simpl.
  rewrite G. reflexivity.
Qed.

(** [result[s].get(f, default)] *)
Lemma py_get_lookup r s f default sd :
  py_getitem r s = Ok (VDict sd) ->
  (section <- py_getitem r s ;; py_get section f default)
  = Ok (match lookup r s f with Some v => v | None => default end).
Proof.
  intros E. unfold lookup. rewrite E. simpl.
  destruct (dict_get sd f); reflexivity.
Qed.

(** The first loop keeps the sections that the response has. *)
Lemma fill_loop_keeps input_score r r' s sec :
  for_each required_sections (fill_section input_score) r = Ok r' ->
  py_getitem r s = Ok sec -> py_getitem r' s = Ok sec.
Proof.
  apply (for_each_preserves (fun x => py_getitem x s = Ok sec)).
  intros r0 x r0' H G.
  apply GuidedFacts.fill_section_cases in H as [[_ ->]|(d & v & -> & Hm & ->)];
    [exact G|].
  simpl in *. destruct (dict_get d s) as [sec0|] eqn:E; [|discriminate].
  rewrite dict_get_set_other; [rewrite E; exact G|].
  intros ->. unfold dict_mem in Hm. rewrite E in Hm. discriminate.
Qed.

(** The second loop changes the sections of the criteria only. *)
Lemma validate_loop_keeps r r' s :
  for_each criteria validate_criterion r = Ok r' ->
  ~ In s criteria -> py_getitem r' s = py_getitem r s.
Proof.
  intros H Hs.
  assert (G : forall names, incl names criteria ->
            forall r0 r0', for_each names validate_criterion r0 = Ok r0' ->
                           py_getitem r0' s = py_getitem r0 s).
  { induction names as [|x names IH]; intros Hin r0 r0' E; simpl in E.
    - inversion E. reflexivity.
    - inv_bind E. rewrite (IH (fun y Hy => Hin y (or_intror Hy)) _ _ E).
      apply GuidedFacts.validate_criterion_sets in Ha
        as (k1 & k2 & r1 & _ & _ & S1 & S2).
      assert (s <> x) by (intros ->; apply Hs, Hin; left; reflexivity).
      rewrite (getitem_set_field_other _ _ _ _ _ s S2) by assumption.
      apply (getitem_set_field_other _ _ _ _ _ s S1). assumption. }
  apply (G criteria (incl_refl _) _ _ H).
Qed.

Lemma overall_not_criterion : ~ In (lit "overall") criteria.
Proof. intros H. apply (criteria_not_overall _ H). reflexivity. Qed.

Lemma score_sentence_not_empty a b : score_sentence a b <> [].
Proof. unfold score_sentence. discriminate. Qed.

(** The refinement summary of the response: its text, the empty text when
    the field is absent, nothing when it is not a text. *)
Definition summary_of (parsed : value) : option str :=
  match lookup parsed (lit "overall") (lit "refinement_summary") with
  | Some (VStr s) => Some s
  | Some _ => None
  | None => Some []
  end.

(** C2, as the code has it.  Let the model report an [overall.improved_score]
    that is a number [v], and let the analysis return a result.  When the
    reported value, made an integer and clamped into [0, 30], differs from
    the returned [overall.improved_score] (which is the sum of the six
    improved scores), the returned [refinement_summary] is the summary of the
    response in which every occurrence of the fixed pattern is replaced by
    the sentence made of the returned [input_score] and the sum.  So: an
    empty or absent summary becomes that sentence; a summary that ends with
    a sentence of the pattern ends with the corrected sentence; and a
    summary that is not empty and has no occurrence of the pattern is
    returned unchanged (nothing is appended to it). *)
Theorem C2_mismatch_rewrites_summary :
  forall json_dumps chat_model user_story aspects_to_enhance additional_context
         input_score content parsed r v k sum,
    chat_model (create_analysis_prompt json_dumps user_story aspects_to_enhance
                  additional_context input_score) = Replied content ->
    json_loads (sanitize_json_string (strip content)) = Ok parsed ->
    analysis_body json_dumps chat_model user_story aspects_to_enhance
      additional_context input_score = Ok r ->
    lookup parsed (lit "overall") (lit "improved_score") = Some v ->
    is_number v = true ->
    py_int v = Ok k ->
    get_field r (lit "overall") (lit "improved_score") = Ok (VInt sum) ->
    Z.max 0 (Z.min 30 k) <> sum ->
    exists ns input old new,
      scores_of r (lit "improved_score") ns /\ sum = total ns
      /\ get_field r (lit "overall") (lit "input_score") = Ok (VInt input)
      /\ summary_of parsed = Some old
      /\ get_field r (lit "overall") (lit "refinement_summary") = Ok (VStr new)
      /\ (old = [] -> new = score_sentence input sum)
      /\ (forall p m, old = p ++ m -> match_score m = Some [] ->
            ends_with (score_sentence input sum) new)
      /\ (old <> [] -> occurs_nowhere old -> new = old).
Proof.
  intros jd cm us a c n content parsed r v k sum Hreply0 Hparse0 Hbody Hv Hnum
    Hint Hsum0 Hneq.
  pose proof (GuidedFacts.analysis_body_run _ _ _ _ _ _ _ Hbody) as R.
  destruct (GuidedFacts.run_summary _ _ _ _ _ _ _ R)
    as (ns1 & ns2 & k1 & _ & F2 & G & _ & _).
  rewrite G in Hsum0. inversion Hsum0; subst sum. clear Hsum0.
  destruct R.
  rewrite Hreply0 in Hreply. inversion Hreply; subst content0. clear Hreply.
  rewrite Hparse0 in Hparse. inversion Hparse; subst parsed0. clear Hparse.
  (* the overall section of the response reaches the validation of overall *)
  destruct (lookup_section _ _ _ _ Hv) as (sd & Hov).
  pose proof (fill_loop_keeps _ _ _ _ _ Hfill Hov) as Hov1.
  pose proof (validate_loop_keeps _ _ _ Hvalid overall_not_criterion) as Hov2.
  rewrite Hov1 in Hov2.
  assert (L2 : forall f, lookup r2 (lit "overall") f = lookup parsed (lit "overall") f).
  { intros f. apply lookup_same_section. congruence. }
  assert (L3 : forall f, f <> lit "input_score" ->
             lookup r3 (lit "overall") f = lookup parsed (lit "overall") f).
  { intros f Hf. rewrite <- L2. destruct bad1.
    - eapply lookup_set_other_field; eassumption.
    - inversion Hin0. reflexivity. }
  assert (L4 : forall f, f <> lit "input_score" ->
             lookup r4 (lit "overall") f = lookup parsed (lit "overall") f).
  { intros f Hf. rewrite <- (L3 f Hf).
    eapply lookup_set_other_field; eassumption. }
  (* the reported value is a number: it is kept, made an integer, clamped *)
  assert (Hv4 : lookup r4 (lit "overall") (lit "improved_score") = Some v).
  { rewrite L4 by neq_lit. exact Hv. }
  rewrite (missing_or_not_number_lookup _ _ _ _ Hv4), Hnum in Hbad2.
  inversion Hbad2; subst bad2. clear Hbad2. simpl in Himp0.
  inversion Himp0; subst r5. clear Himp0.
  rewrite (lookup_get_field _ _ _ _ Hv4) in Hn2. simpl in Hn2.
  rewrite Hint in Hn2. inversion Hn2; subst n2. clear Hn2.
  unfold GuidedFacts.clamp in *.
  destruct (Z.eqb (Z.max 0 (Z.min 30 k)) calculated) eqn:Eq.
  { (* no disagreement after all *)
    subst r. rewrite (get_set_field_same _ _ _ _ _ Himp) in G.
    inversion G. contradiction. }
  destruct Hend as (r7 & current & updated & H7 & Hcur & Hupd & Hr).
  assert (Ecalc : calculated = total ns2).
  { rewrite (get_set_field_other_field _ _ _ _ _ (lit "improved_score") Hr) in G
      by neq_lit.
    rewrite (get_set_field_same _ _ _ _ _ H7) in G. inversion G. reflexivity. }
  subst calculated.
  (* the summary that is rewritten is the summary of the response *)
  assert (L7 : lookup r7 (lit "overall") (lit "refinement_summary")
               = lookup parsed (lit "overall") (lit "refinement_summary")).
  { rewrite (lookup_set_other_field _ _ _ _ _ (lit "refinement_summary") H7)
      by neq_lit.
    rewrite (lookup_set_other_field _ _ _ _ _ (lit "refinement_summary") Himp)
      by neq_lit.
    apply L4. neq_lit. }
  destruct (set_field_inv _ _ _ _ _ Hr) as (d7 & sd7 & E7 & Esd7 & _).
  assert (Hget7 : py_getitem r7 (lit "overall") = Ok (VDict sd7))
    by (subst r7; simpl; rewrite Esd7; reflexivity).
  rewrite (py_get_lookup _ _ _ _ _ Hget7), L7 in Hcur.
  inversion Hcur; subst current. clear Hcur.
  unfold re_sub_score in Hupd.
  exists ns2, (Z.max 0 (Z.min 30 n1)).
  unfold summary_of.
  set (sentence := score_sentence (Z.max 0 (Z.min 30 n1)) (total ns2)) in *.
  assert (Hin_r : get_field r (lit "overall") (lit "input_score")
                  = Ok (VInt (Z.max 0 (Z.min 30 n1)))).
  { rewrite (get_set_field_other_field _ _ _ _ _ (lit "input_score") Hr)
      by neq_lit.
    rewrite (get_set_field_other_field _ _ _ _ _ (lit "input_score") H7)
      by neq_lit.
    rewrite (get_set_field_other_field _ _ _ _ _ (lit "input_score") Himp)
      by neq_lit.
    eapply get_set_field_same; eassumption. }
  assert (Hnew : get_field r (lit "overall") (lit "refinement_summary")
                 = Ok (VStr match updated with
                            | _ :: _ => updated
                            | [] => sentence
                            end))
    by (eapply get_set_field_same; eassumption).
  assert (K : forall old,
             updated = sub_score sentence old ->
             (old = [] -> match updated with _ :: _ => updated | [] => sentence end
                          = sentence)
             /\ (forall p m, old = p ++ m -> match_score m = Some [] ->
                   ends_with sentence
                     match updated with _ :: _ => updated | [] => sentence end)
             /\ (old <> [] -> occurs_nowhere old ->
                 match updated with _ :: _ => updated | [] => sentence end = old)).
  { intros old ->. split; [|split].
    - intros ->. reflexivity.
    - intros p m -> Hm.
      destruct (sub_score_ends_with sentence p m Hm) as (u & Eu).
      rewrite Eu. destruct (u ++ sentence) eqn:Z0;
        [|exists u; symmetry; exact Z0].
      apply app_eq_nil in Z0 as [_ Z0].
      exfalso. exact (score_sentence_not_empty _ _ Z0).
    - intros Hne Hno. rewrite (sub_score_unchanged _ _ Hno).
      destruct old; [congruence|reflexivity]. }
  destruct (lookup parsed (lit "overall") (lit "refinement_summary"))
    as [[| | | |old| |]|]; try discriminate Hupd.
  - inversion Hupd as [Hu]. symmetry in Hu. destruct (K old Hu) as (K1 & K2 & K3).
    exists old. eexists. repeat (split; [eauto; fail|]). auto.
  - inversion Hupd as [Hu]. symmetry in Hu. destruct (K [] Hu) as (K1 & K2 & K3).
    exists []. eexists. repeat (split; [eauto; fail|]). auto.
Qed.

(** A guided response whose total (20) is not the sum of its six improved
    scores (24), with a summary that ends with the sentence of the pattern. *)
Definition response_stale_total : str :=
  json_text
    "{'OriginalUserStory': {'Title': 'Login', 'Description': 'd', 'AcceptanceCriteria': ['a'], 'AdditionalInformation': ''},
      'ImprovedUserStory': {'Title': 'Login', 'Description': 'd', 'AcceptanceCriteria': ['a', 'b'], 'AdditionalInformation': ''},
      'Independent': {'score': 3, 'improved_score': 4, 'explanation': 'e', 'recommendation': 'r'},
      'Negotiable': {'score': 3, 'improved_score': 4, 'explanation': 'e', 'recommendation': 'r'},
      'Valuable': {'score': 3, 'improved_score': 4, 'explanation': 'e', 'recommendation': 'r'},
      'Estimable': {'score': 3, 'improved_score': 4, 'explanation': 'e', 'recommendation': 'r'},
      'Small': {'score': 3, 'improved_score': 4, 'explanation': 'e', 'recommendation': 'r'},
      'Testable': {'score': 3, 'improved_score': 4, 'explanation': 'e', 'recommendation': 'r'},
      'overall': {'input_score': 15, 'improved_score': 20, 'summary': 's', 'refinement_summary': '* clearer wording\nINVEST Score improved from 15/30 to 20/30'}}".

(** The same response with a summary that has no sentence of the pattern. *)
Definition response_stale_no_sentence : str :=
  json_text
    "{'OriginalUserStory': {'Title': 'Login', 'Description': 'd', 'AcceptanceCriteria': ['a'], 'AdditionalInformation': ''},
      'ImprovedUserStory': {'Title': 'Login', 'Description': 'd', 'AcceptanceCriteria': ['a', 'b'], 'AdditionalInformation': ''},
      'Independent': {'score': 3, 'improved_score': 4, 'explanation': 'e', 'recommendation': 'r'},
      'Negotiable': {'score': 3, 'improved_score': 4, 'explanation': 'e', 'recommendation': 'r'},
      'Valuable': {'score': 3, 'improved_score': 4, 'explanation': 'e', 'recommendation': 'r'},
      'Estimable': {'score': 3, 'improved_score': 4, 'explanation': 'e', 'recommendation': 'r'},
      'Small': {'score': 3, 'improved_score': 4, 'explanation': 'e', 'recommendation': 'r'},
      'Testable': {'score': 3, 'improved_score': 4, 'explanation': 'e', 'recommendation': 'r'},
      'overall': {'input_score': 15, 'improved_score': 20, 'summary': 's', 'refinement_summary': '* clearer wording'}}".

(** The parse of the sanitized response, as [analyze_user_story] gets it. *)
Definition parsed_response (content : str) : value :=
  match json_loads (sanitize_json_string (strip content)) with
  | Ok parsed => parsed
  | Raise _ => VNone
  end.

Definition stale_parsed : value :=
  Eval vm_compute in parsed_response response_stale_total.

Definition stale_result : value :=
  Eval vm_compute in
    ReRefine.analyze_user_story no_dumps (answering response_stale_total)
      sample_story [] [] 15.

Lemma C2_witness :
  exists new,
    get_field stale_result (lit "overall") (lit "refinement_summary")
    = Ok (VStr new)
    /\ ends_with (lit "INVEST Score improved from 15/30 to 24/30") new.
Proof.
  destruct (C2_mismatch_rewrites_summary no_dumps
              (answering response_stale_total) sample_story [] [] 15
              response_stale_total stale_parsed stale_result (VInt 20) 20 24)
    as (ns & input & old & new & _ & _ & Hin & Hold & Hnew & _ & Hends & _);
    try (vm_compute; reflexivity).
  - vm_compute. discriminate.
  - exists new. split; [exact Hnew|].
    vm_compute in Hin. inversion Hin; subst input.
    vm_compute in Hold. inversion Hold; subst old.
    apply (Hends (lit "* clearer wording" ++ [newline])
                 (lit "INVEST Score improved from 15/30 to 20/30"));
      reflexivity.
Defined.

(** C2 as stated fails when the summary is not empty and has no sentence of
    the pattern: the total is corrected from 20 to 24, but the summary is
    returned as it came and does not end with the corrected sentence. *)
Lemma C2_counterexample :
  let r := ReRefine.analyze_user_story no_dumps
             (answering response_stale_no_sentence) sample_story [] [] 15 in
  lookup (parsed_response response_stale_no_sentence)
    (lit "overall") (lit "improved_score") = Some (VInt 20)
  /\ get_field r (lit "overall") (lit "improved_score") = Ok (VInt 24)
  /\ get_field r (lit "overall") (lit "input_score") = Ok (VInt 15)
  /\ get_field r (lit "overall") (lit "refinement_summary")
     = Ok (VStr (lit "* clearer wording"))
  /\ ~ ends_with (lit "INVEST Score improved from 15/30 to 24/30")
         (lit "* clearer wording").
Proof.
  repeat (split; [vm_compute; reflexivity|]).
  intros (p & H). apply (f_equal (@List.length char)) in H.
  rewrite length_app in H.
  change (List.length (lit "* clearer wording")) with 17%nat in H.
  change (List.length (lit "INVEST Score improved from 15/30 to 24/30"))
    with 41%nat in H.
  lia.
Qed.

(** ** C4: how a criterion score is coerced *)

(** In a loop whose body changes only the section it is called on, every
    section of the list is worked on once, as the loop found it, and is
    left as that turn of the body left it. *)
Lemma for_each_once body names :
  (forall r x r', body r x = Ok r' ->
     forall y, y <> x -> py_getitem r' y = py_getitem r y) ->
  NoDup names ->
  forall r0 r', for_each names body r0 = Ok r' ->
    (forall y, ~ In y names -> py_getitem r' y = py_getitem r0 y)
    /\ (forall x, In x names ->
          exists rb ra, body rb x = Ok ra
                        /\ py_getitem rb x = py_getitem r0 x
                        /\ py_getitem r' x = py_getitem ra x).
Proof.
  intros Hbody. induction names as [|y names IH]; intros Hnd r0 r' H.
  - simpl in H. inversion H; subst. split; [reflexivity|intros x []].
  - simpl in H. inv_bind H. rename a into r1.
    inversion Hnd as [|? ? Hy Hnd']; subst.
    destruct (IH Hnd' _ _ H) as [Frame Once]. split.
    + intros z Hz. rewrite Frame by (intros Hin; apply Hz; right; exact Hin).
      apply (Hbody _ _ _ Ha). intros ->. apply Hz. left. reflexivity.
    + intros x [<-|Hx].
      * exists r0, r1. split; [exact Ha|]. split; [reflexivity|].
        apply Frame. exact Hy.
      * destruct (Once x Hx) as (rb & ra & Hb & Eb & Ea).
        exists rb, ra. split; [exact Hb|]. split; [|exact Ea].
        rewrite Eb. apply (Hbody _ _ _ Ha). intros ->. contradiction.
Qed.

(** The score that claim C4 describes for field [f] of a criterion section:
    0 when the field is absent, is not a number, or cannot be made an
    integer; otherwise the integer, clamped into [1, 5]. *)
Definition claimed_score (section : value) (f : str) : Z :=
  match section with
  | VDict sd =>
      match dict_get sd f with
      | Some v =>
          if is_number v then
            match py_int v with
            | Ok n => Z.max 1 (Z.min 5 n)
            | Raise _ => 0
            end
          else 0
      | None => 0
      end
  | _ => 0
  end.

(** One validation of the guided analyzer, on the section as it stands. *)
Lemma validate_score_section f r c r' sec :
  validate_score f r c = Ok r' -> py_getitem r c = Ok sec ->
  exists sd, sec = VDict sd
             /\ py_getitem r' c
                = Ok (VDict (dict_set sd f (VInt (claimed_score sec f)))).
Proof.
  intros H Hsec.
  assert (Set0 : forall n, set_field r c f (VInt n) = Ok r' ->
            exists sd, sec = VDict sd
                       /\ py_getitem r' c = Ok (VDict (dict_set sd f (VInt n)))).
  { intros n S. apply set_field_inv in S as (d & sd & -> & E & ->).
    simpl in Hsec. rewrite E in Hsec. inversion Hsec; subst sec.
    exists sd. split; [reflexivity|]. simpl. rewrite dict_get_set_same.
    reflexivity. }
  unfold validate_score, missing_or_not_number, get_field in H.
  rewrite Hsec in H. cbn [bind] in H.
  destruct sec as [| | | |s|l|sd]; try discriminate H.
  - (* a string: membership is a substring test, then the access fails *)
    simpl in H. destruct (substring f s); simpl in H; [discriminate H|].
    apply Set0 in H as (sd & E & _). discriminate E.
  - simpl in H.
    destruct (existsb _ l); simpl in H; [discriminate H|].
    apply Set0 in H as (sd & E & _). discriminate E.
  - simpl in H. unfold dict_mem in H. unfold claimed_score.
    destruct (dict_get sd f) as [v|] eqn:Ev; simpl in H.
    + destruct (is_number v); simpl in H.
      * destruct (py_int v) as [n|e] eqn:En; simpl in H.
        -- destruct (set_field r c f (VInt (Z.max 1 (Z.min 5 n)))) as [r0|e0] eqn:S.
           ++ inversion H; subst r0. apply (Set0 _ S).
           ++ destruct (is_value_or_type_error e0); [|discriminate H].
              apply set_field_inv in H as (d & sd0 & -> & E & _).
              unfold set_field in S. simpl in S. rewrite E in S. discriminate S.
        -- destruct (is_value_or_type_error e); [|discriminate H].
           apply (Set0 _ H).
      * apply (Set0 _ H).
    + apply (Set0 _ H).
Qed.

Lemma validate_score_frame f r c r' y :
  validate_score f r c = Ok r' -> y <> c -> py_getitem r' y = py_getitem r y.
Proof.
  intros H Hy. apply GuidedFacts.validate_score_sets in H as (n & _ & S).
  eapply getitem_set_field_other; eassumption.
Qed.

Lemma claimed_score_other_field sd f g v :
  f <> g ->
  claimed_score (VDict (dict_set sd g v)) f = claimed_score (VDict sd) f.
Proof.
  intros H. unfold claimed_score. rewrite dict_get_set_other by exact H.
  reflexivity.
Qed.

(** Both validations of a criterion. *)
Lemma validate_criterion_section r c r' sec :
  validate_criterion r c = Ok r' -> py_getitem r c = Ok sec ->
  get_field r' c (lit "score") = Ok (VInt (claimed_score sec (lit "score")))
  /\ get_field r' c (lit "improved_score")
     = Ok (VInt (claimed_score sec (lit "improved_score"))).
Proof.
  unfold validate_criterion. intros H Hsec. inv_bind H. rename a into r1.
  destruct (validate_score_section _ _ _ _ _ Ha Hsec) as (sd & -> & E1).
  destruct (validate_score_section _ _ _ _ _ H E1) as (sd1 & Esd1 & E2).
  inversion Esd1; subst sd1. clear Esd1.
  rewrite claimed_score_other_field in E2 by neq_lit.
  unfold get_field. rewrite E2. simpl. split.
  - rewrite dict_get_set_other by neq_lit. rewrite dict_get_set_same.
    reflexivity.
  - rewrite dict_get_set_same. reflexivity.
Qed.

Lemma validate_criterion_frame r c r' y :
  validate_criterion r c = Ok r' -> y <> c -> py_getitem r' y = py_getitem r y.
Proof.
  unfold validate_criterion. intros H Hy. inv_bind H.
  rewrite (validate_score_frame _ _ _ _ _ H Hy).
  apply (validate_score_frame _ _ _ _ _ Ha Hy).
Qed.

(** The scores that a guided run returns for a criterion section that the
    response has. *)
Lemma guided_scores_of_section jd cm us a ctx n r content parsed c sec :
  cm (create_analysis_prompt jd us a ctx n) = Replied content ->
  json_loads (sanitize_json_string (strip content)) = Ok parsed ->
  analysis_body jd cm us a ctx n = Ok r ->
  In c criteria -> py_getitem parsed c = Ok sec ->
  get_field r c (lit "score") = Ok (VInt (claimed_score sec (lit "score")))
  /\ get_field r c (lit "improved_score")
     = Ok (VInt (claimed_score sec (lit "improved_score"))).
Proof.
  intros Hreply0 Hparse0 Hbody Hc Hsec.
  pose proof (GuidedFacts.analysis_body_run _ _ _ _ _ _ _ Hbody) as R.
  destruct (GuidedFacts.run_summary _ _ _ _ _ _ _ R)
    as (ns1 & ns2 & k1 & _ & _ & _ & _ & _).
  destruct R.
  rewrite Hreply0 in Hreply. inversion Hreply; subst content0. clear Hreply.
  rewrite Hparse0 in Hparse. inversion Hparse; subst parsed0. clear Hparse.
  pose proof (fill_loop_keeps _ _ _ _ _ Hfill Hsec) as Hsec1.
  destruct (for_each_once validate_criterion criteria
              (fun r0 x r0' H y Hy => validate_criterion_frame r0 x r0' y H Hy)
              criteria_nodup _ _ Hvalid) as [_ Once].
  destruct (Once c Hc) as (rb & ra & Hb & Eb & Ea).
  rewrite Hsec1 in Eb.
  destruct (validate_criterion_section _ _ _ _ Hb Eb) as [G1 G2].
  assert (O : only_overall r2 r).
  { apply GuidedFacts.maybe_set_only_overall in Hin0 as (O23 & _ & _).
    pose proof (set_overall_only _ _ _ _ Hin) as O34.
    apply GuidedFacts.maybe_set_only_overall in Himp0 as (O45 & _ & _).
    pose proof (set_overall_only _ _ _ _ Himp) as O56.
    assert (O26 : only_overall r2 r6).
    { eapply only_overall_trans; [|exact O56].
      eapply only_overall_trans; [|exact O45].
      eapply only_overall_trans; [exact O23|exact O34]. }
    destruct (Z.eqb _ _).
    - subst r. exact O26.
    - destruct Hend as (r7 & current & updated & H7 & _ & _ & Hr).
      eapply only_overall_trans; [|eapply set_overall_only; exact Hr].
      eapply only_overall_trans; [exact O26|eapply set_overall_only; exact H7]. }
  assert (E : py_getitem r c = py_getitem ra c).
  { rewrite (O c (criteria_not_overall c Hc)). exact Ea. }
  unfold get_field in *. rewrite E. split; assumption.
Qed.

(** The same for the baseline analyzer, which has no sentinel: the score
    has to be there and [int] has to accept it. *)
Lemma baseline_validate_section r c r' sec :
  Refinement.validate_criterion r c = Ok r' -> py_getitem r c = Ok sec ->
  exists v k,
    lookup r c (lit "score") = Some v /\ py_int v = Ok k
    /\ get_field r' c (lit "score") = Ok (VInt (Z.max 1 (Z.min 5 k))).
Proof.
  unfold Refinement.validate_criterion. intros H Hsec. inv_bind H.
  inv_bind Ha. rename a into k, a0 into v.
  exists v, k. split; [apply get_field_lookup; exact Ha0|].
  split; [exact Ha|]. eapply get_set_field_same; eassumption.
Qed.

Lemma baseline_validate_frame r c r' y :
  Refinement.validate_criterion r c = Ok r' -> y <> c ->
  py_getitem r' y = py_getitem r y.
Proof.
  intros H Hy. apply BaselineFacts.baseline_validate_sets in H as (n & _ & S).
  eapply getitem_set_field_other; eassumption.
Qed.

Lemma baseline_fill_keeps r r' s sec :
  for_each required_sections Refinement.fill_section r = Ok r' ->
  py_getitem r s = Ok sec -> py_getitem r' s = Ok sec.
Proof.
  apply (for_each_preserves (fun x => py_getitem x s = Ok sec)).
  intros r0 x r0' H G.
  apply BaselineFacts.baseline_fill_cases in H as [[_ ->]|(d & v & -> & Hm & ->)];
    [exact G|].
  simpl in *. destruct (dict_get d s) as [sec0|] eqn:E; [|discriminate].
  rewrite dict_get_set_other; [rewrite E; exact G|].
  intros ->. unfold dict_mem in Hm. rewrite E in Hm. discriminate.
Qed.

Lemma baseline_score_of_section jd cm us r content parsed c sec :
  cm (Refinement.create_analysis_prompt jd us) = Replied content ->
  json_loads (sanitize_json_string (strip content)) = Ok parsed ->
  Refinement.analysis_body jd cm us = Ok r ->
  In c criteria -> py_getitem parsed c = Ok sec ->
  exists v k,
    lookup parsed c (lit "score") = Some v /\ py_int v = Ok k
    /\ get_field r c (lit "score") = Ok (VInt (Z.max 1 (Z.min 5 k))).
Proof.
  intros Hreply0 Hparse0 Hbody Hc Hsec.
  destruct (BaselineFacts.baseline_body_run _ _ _ _ Hbody).
  rewrite Hreply0 in Hreply. inversion Hreply; subst content0. clear Hreply.
  rewrite Hparse0 in Hparse. inversion Hparse; subst parsed0. clear Hparse.
  pose proof (baseline_fill_keeps _ _ _ _ Hfill Hsec) as Hsec1.
  destruct (for_each_once Refinement.validate_criterion criteria
              (fun r0 x r0' H y Hy => baseline_validate_frame r0 x r0' y H Hy)
              criteria_nodup _ _ Hvalid) as [_ Once].
  destruct (Once c Hc) as (rb & ra & Hb & Eb & Ea).
  rewrite Hsec1 in Eb.
  destruct (baseline_validate_section _ _ _ _ Hb Eb) as (v & k & Lv & Ik & G).
  exists v, k. split; [|split; [exact Ik|]].
  - rewrite <- Lv. apply lookup_same_section. congruence.
  - assert (E : py_getitem r c = py_getitem ra c).
    { rewrite (getitem_set_field_other _ _ _ _ _ c Himp
                 (criteria_not_overall c Hc)).
      rewrite (getitem_set_field_other _ _ _ _ _ c Hscore
                 (criteria_not_overall c Hc)).
      exact Ea. }
    unfold get_field in *. rewrite E. exact G.
Qed.

(** C4, as the code has it.  For a criterion section that the response has:
    the guided analyzer, when it returns normally, stores in [score] and in
    [improved_score] the value that the claim describes (0 for a field that
    is absent, is not an [int], [float] or [bool], or is a NaN; otherwise
    the integer part, clamped into [1, 5]); the baseline analyzer has no
    sentinel: when it returns normally the [score] was there, [int] accepted
    it (a number or the text of an integer) and the result is that integer
    clamped into [1, 5], and when the [score] is absent or [int] refuses it
    the whole analysis ends in the error result. *)
Theorem C4_score_coercion :
  forall json_dumps chat_model user_story aspects_to_enhance additional_context
         input_score content parsed c section,
    json_loads (sanitize_json_string (strip content)) = Ok parsed ->
    In c criteria ->
    py_getitem parsed c = Ok section ->
    (chat_model (create_analysis_prompt json_dumps user_story aspects_to_enhance
                   additional_context input_score) = Replied content ->
     forall r,
       analysis_body json_dumps chat_model user_story aspects_to_enhance
         additional_context input_score = Ok r ->
       get_field r c (lit "score")
       = Ok (VInt (claimed_score section (lit "score")))
       /\ get_field r c (lit "improved_score")
          = Ok (VInt (claimed_score section (lit "improved_score"))))
    /\ (chat_model (Refinement.create_analysis_prompt json_dumps user_story)
        = Replied content ->
        (forall r,
            Refinement.analysis_body json_dumps chat_model user_story = Ok r ->
            exists v k,
              lookup parsed c (lit "score") = Some v /\ py_int v = Ok k
              /\ get_field r c (lit "score") = Ok (VInt (Z.max 1 (Z.min 5 k))))
        /\ (lookup parsed c (lit "score") = None
            \/ (exists v e, lookup parsed c (lit "score") = Some v
                            /\ py_int v = Raise e) ->
            exists e,
              Refinement.analyze_user_story json_dumps chat_model user_story
              = Refinement.error_result e)).
Proof.
  intros jd cm us a ctx n content parsed c sec Hparse Hc Hsec. split.
  - intros Hreply r Hbody.
    eapply guided_scores_of_section; eassumption.
  - intros Hreply. split.
    + intros r Hbody. eapply baseline_score_of_section; eassumption.
    + intros Hbad. unfold Refinement.analyze_user_story.
      destruct (Refinement.analysis_body jd cm us) as [r|e] eqn:Hbody;
        [|exists e; reflexivity].
      exfalso.
      destruct (baseline_score_of_section _ _ _ _ _ _ _ _ Hreply Hparse Hbody
                  Hc Hsec) as (v & k & Lv & Ik & _).
      destruct Hbad as [Hnone|(v' & e & Lv' & Ie)]; congruence.
Qed.

(** A response in which [Independent] has its score as a text and an
    improved score that is a float above the range. *)
Definition response_odd_scores : str :=
  json_text
    "{'OriginalUserStory': {'Title': 'Login', 'Description': 'd', 'AcceptanceCriteria': ['a'], 'AdditionalInformation': ''},
      'ImprovedUserStory': {'Title': 'Login', 'Description': 'd', 'AcceptanceCriteria': ['a', 'b'], 'AdditionalInformation': ''},
      'Independent': {'score': '3', 'improved_score': 7.9, 'explanation': 'e', 'recommendation': 'r'},
      'Negotiable': {'score': 4, 'improved_score': 4, 'explanation': 'e', 'recommendation': 'r'},
      'Valuable': {'score': 3, 'improved_score': 4, 'explanation': 'e', 'recommendation': 'r'},
      'Estimable': {'score': 3, 'improved_score': 4, 'explanation': 'e', 'recommendation': 'r'},
      'Small': {'score': 3, 'improved_score': 4, 'explanation': 'e', 'recommendation': 'r'},
      'Testable': {'score': 3, 'improved_score': 4, 'explanation': 'e', 'recommendation': 'r'},
      'overall': {'input_score': 15, 'improved_score': 25, 'summary': 's', 'refinement_summary': '* clearer wording'}}".

(** The same response with no [score] at all in [Independent]. *)
Definition response_missing_score : str :=
  json_text
    "{'OriginalUserStory': {'Title': 'Login', 'Description': 'd', 'AcceptanceCriteria': ['a'], 'AdditionalInformation': ''},
      'ImprovedUserStory': {'Title': 'Login', 'Description': 'd', 'AcceptanceCriteria': ['a', 'b'], 'AdditionalInformation': ''},
      'Independent': {'improved_score': 4, 'explanation': 'e', 'recommendation': 'r'},
      'Negotiable': {'score': 4, 'improved_score': 4, 'explanation': 'e', 'recommendation': 'r'},
      'Valuable': {'score': 3, 'improved_score': 4, 'explanation': 'e', 'recommendation': 'r'},
      'Estimable': {'score': 3, 'improved_score': 4, 'explanation': 'e', 'recommendation': 'r'},
      'Small': {'score': 3, 'improved_score': 4, 'explanation': 'e', 'recommendation': 'r'},
      'Testable': {'score': 3, 'improved_score': 4, 'explanation': 'e', 'recommendation': 'r'},
      'overall': {'input_score': 15, 'improved_score': 24, 'summary': 's', 'refinement_summary': '* clearer wording'}}".

Definition odd_parsed : value :=
  Eval vm_compute in parsed_response response_odd_scores.

Definition odd_section : value :=
  Eval vm_compute in
    match py_getitem odd_parsed (lit "Independent") with
    | Ok section => section
    | Raise _ => VNone
    end.

Definition odd_guided_result : value :=
  Eval vm_compute in
    ReRefine.analyze_user_story no_dumps (answering response_odd_scores)
      sample_story [] [] 15.

Definition odd_baseline_result : value :=
  Eval vm_compute in
    Refinement.analyze_user_story no_dumps (answering response_odd_scores)
      sample_story.

Lemma C4_witness :
  get_field odd_guided_result (lit "Independent") (lit "score") = Ok (VInt 0)
  /\ get_field odd_guided_result (lit "Independent") (lit "improved_score")
     = Ok (VInt 5)
  /\ exists v k,
       lookup odd_parsed (lit "Independent") (lit "score") = Some v
       /\ py_int v = Ok k
       /\ get_field odd_baseline_result (lit "Independent") (lit "score")
          = Ok (VInt (Z.max 1 (Z.min 5 k))).
Proof.
  destruct (C4_score_coercion no_dumps (answering response_odd_scores)
              sample_story [] [] 15 response_odd_scores odd_parsed
              (lit "Independent") odd_section)
    as (G & B).
  - vm_compute. reflexivity.
  - left. reflexivity.
  - vm_compute. reflexivity.
  - destruct (G eq_refl odd_guided_result) as (G1 & G2);
      [vm_compute; reflexivity|].
    destruct (B eq_refl) as (B1 & _).
    split; [exact G1|]. split; [exact G2|].
    apply (B1 odd_baseline_result). vm_compute. reflexivity.
Defined.

(** C4 as stated fails in the baseline variant.  A score given as the text
    ['3'] is not a number (the guided variant stores the sentinel for it),
    yet the baseline analyzer returns 3: one rule cannot describe both.
    And a criterion without [score] does not get the sentinel while the
    other scores are clamped: the analysis fails, and the valid 4 of
    [Negotiable] comes back as 0 in an error result. *)
Lemma C4_counterexample :
  claimed_score odd_section (lit "score") = 0%Z
  /\ get_field (ReRefine.analyze_user_story no_dumps
                  (answering response_odd_scores) sample_story [] [] 15)
       (lit "Independent") (lit "score") = Ok (VInt 0)
  /\ get_field (Refinement.analyze_user_story no_dumps
                  (answering response_odd_scores) sample_story)
       (lit "Independent") (lit "score") = Ok (VInt 3)
  /\ (let parsed := parsed_response response_missing_score in
      let r := Refinement.analyze_user_story no_dumps
                 (answering response_missing_score) sample_story in
      lookup parsed (lit "Independent") (lit "score") = None
      /\ lookup parsed (lit "Negotiable") (lit "score") = Some (VInt 4)
      /\ py_in (lit "error") r = Ok true
      /\ get_field r (lit "Negotiable") (lit "score") = Ok (VInt 0)).
Proof. vm_compute. repeat split. Qed.

(** ** C7: a response that is already right goes through unchanged *)

(** *** The tokenizer, one step at a time *)

Lemma tokenize_space c r :
  is_json_space c = true -> tokenize (c :: r) = tokenize r.
Proof.
  intros H. funelim (tokenize (c :: r)); congruence.
Qed.

Lemma tokenize_token c r :
  is_json_space c = false ->
  tokenize (c :: r)
  = match lex1 (c :: r) with
    | Some (t, rest) =>
        match tokenize rest with
        | Some ts => Some (t :: ts)
        | None => None
        end
    | None => None
    end.
Proof.
  intros H. funelim (tokenize (c :: r)); try congruence.
  all: match goal with E : lex1 _ = _ |- _ => rewrite E end; reflexivity.
Qed.

(** What [str.isspace] accepts, as ranges. *)
Lemma is_space_ranges c :
  is_space c = true ->
  (9 <= c <= 13 \/ 28 <= c <= 32 \/ c = 133 \/ c = 160 \/ 5760 <= c)%N.
Proof.
  unfold is_space, between. intros H.
  repeat (apply orb_prop in H as [H|H]);
    repeat match goal with
           | H : (_ && _)%bool = true |- _ => apply andb_prop in H as [? ?]
           | H : N.leb _ _ = true |- _ => apply N.leb_le in H
           | H : N.eqb _ _ = true |- _ => apply N.eqb_eq in H
           end; lia.
Qed.

Lemma eqb_false_of_ne c k : c <> k -> N.eqb c k = false.
Proof. apply N.eqb_neq. Qed.

Lemma between_false lo hi c : (c < lo \/ hi < c)%N -> between lo hi c = false.
Proof.
  unfold between. intros H.
  destruct (N.leb_spec lo c); destruct (N.leb_spec c hi); simpl; try reflexivity.
  lia.
Qed.

(** No token starts with a white space character of Python. *)
Lemma lex1_space c r : is_space c = true -> lex1 (c :: r) = None.
Proof.
  intros H. apply is_space_ranges in H.
  unfold lex1, keyword, first_of, scan_number, opt_minus, int_part, dquote.
  cbn [lit list_ascii_of_string List.map strip_prefix N_of_ascii N_of_digits].
  simpl strip_prefix.
  rewrite !(eqb_false_of_ne c) by lia.
  rewrite (between_false 49 57 c) by lia.
  repeat match goal with
         | |- context [N.eqb ?k c] =>
             rewrite (proj2 (N.eqb_neq k c)) by lia
         end.
  reflexivity.
Qed.

(** *** The text of a token *)

(** A character of a token that is no string. *)
Definition plain (c : char) : Prop := (32 < c < 127)%N /\ c <> dquote.

Definition printable (s : str) : Prop := Forall (fun c => (32 <= c)%N) s.

(** The text of one token: plain characters, or a string between its
    quotes, with no character below U+0020 and with its backslashes
    paired. *)
Inductive token_text : str -> Prop :=
| plain_text x : Forall plain x -> token_text x
| string_text raw :
    printable raw -> well_escaped raw = true ->
    token_text (dquote :: raw ++ [dquote]).

(** [s] is [rest] after a plain text. *)
Definition eats (s rest : str) : Prop := exists x, s = x ++ rest /\ Forall plain x.

Lemma eats_refl s : eats s s.
Proof. exists []. split; [reflexivity|constructor]. Qed.

Lemma eats_trans a b c : eats a b -> eats b c -> eats a c.
Proof.
  intros (x & -> & Hx) (y & -> & Hy). exists (x ++ y).
  split; [rewrite app_assoc; reflexivity|]. apply Forall_app. auto.
Qed.

Lemma eats_cons c r rest : plain c -> eats r rest -> eats (c :: r) rest.
Proof.
  intros Hc (x & -> & Hx). exists (c :: x). split; [reflexivity|].
  constructor; assumption.
Qed.

Lemma eats_one c r : plain c -> eats (c :: r) r.
Proof. intros Hc. apply eats_cons; [exact Hc|apply eats_refl]. Qed.

Lemma between_plain lo hi c :
  between lo hi c = true -> (34 < lo)%N -> (hi < 127)%N -> plain c.
Proof.
  unfold between, plain, dquote. intros H Hlo Hhi.
  apply andb_prop in H as [A B]. apply N.leb_le in A, B. lia.
Qed.

Lemma eqb_plain c k :
  N.eqb c k = true -> (34 < k)%N -> (k < 127)%N -> plain c.
Proof.
  intros H Hlo Hhi. apply N.eqb_eq in H. subst. unfold plain, dquote. lia.
Qed.

Lemma span_digits_eats s : eats s (snd (span_digits s)).
Proof.
  induction s as [|c r IH]; simpl; [apply eats_refl|].
  destruct (is_ascii_digit c) eqn:E; [|apply eats_refl].
  destruct (span_digits r) as [ds rest]; simpl in *.
  apply eats_cons; [apply (between_plain 48 57 c E); lia|exact IH].
Qed.

Lemma opt_minus_eats s : eats s (snd (opt_minus s)).
Proof.
  destruct s as [|c r]; simpl; [apply eats_refl|].
  destruct (N.eqb c 45) eqn:E; simpl; [|apply eats_refl].
  apply eats_one. apply (eqb_plain c 45 E); lia.
Qed.

Lemma opt_sign_eats s : eats s (snd (opt_sign s)).
Proof.
  destruct s as [|c r]; simpl; [apply eats_refl|].
  destruct (N.eqb c 45) eqn:E; simpl;
    [apply eats_one; apply (eqb_plain c 45 E); lia|].
  destruct (N.eqb c 43) eqn:E'; simpl; [|apply eats_refl].
  apply eats_one. apply (eqb_plain c 43 E'); lia.
Qed.

Lemma int_part_eats s ip rest : int_part s = Some (ip, rest) -> eats s rest.
Proof.
  destruct s as [|c r]; simpl; [discriminate|].
  destruct (N.eqb c 48) eqn:E.
  - intros H; inversion H; subst. apply eats_one.
    apply (eqb_plain c 48 E); lia.
  - destruct (between 49 57 c) eqn:B; [|discriminate].
    pose proof (span_digits_eats r) as S.
    destruct (span_digits r) as [ds rest0]; simpl in S.
    intros H; inversion H; subst. apply eats_cons; [|exact S].
    apply (between_plain 49 57 c B); lia.
Qed.

Lemma frac_part_eats s : eats s (snd (frac_part s)).
Proof.
  destruct s as [|c r]; simpl; [apply eats_refl|].
  destruct (N.eqb c 46) eqn:E; simpl; [|apply eats_refl].
  pose proof (span_digits_eats r) as S.
  destruct (span_digits r) as [[|f fs] rest0]; simpl in *; [apply eats_refl|].
  apply eats_cons; [apply (eqb_plain c 46 E); lia|exact S].
Qed.

Lemma exp_part_eats s : eats s (snd (exp_part s)).
Proof.
  destruct s as [|c r]; simpl; [apply eats_refl|].
  destruct (N.eqb c 101 || N.eqb c 69)%bool eqn:E; simpl; [|apply eats_refl].
  pose proof (opt_sign_eats r) as S1.
  destruct (opt_sign r) as [eneg r']; simpl in S1.
  pose proof (span_digits_eats r') as S.
  destruct (span_digits r') as [[|f fs] rest0]; simpl in *; [apply eats_refl|].
  apply eats_cons; [|eapply eats_trans; eassumption].
  apply orb_prop in E as [E|E];
    [apply (eqb_plain c 101 E)|apply (eqb_plain c 69 E)]; lia.
Qed.

Lemma scan_number_eats s v rest : scan_number s = Some (v, rest) -> eats s rest.
Proof.
  unfold scan_number. pose proof (opt_minus_eats s) as L1.
  destruct (opt_minus s) as [neg s1]; simpl in L1.
  destruct (int_part s1) as [[ip s2]|] eqn:E; [|discriminate].
  apply int_part_eats in E.
  pose proof (frac_part_eats s2) as L3.
  destruct (frac_part s2) as [frac s3]; simpl in L3.
  pose proof (exp_part_eats s3) as L4.
  destruct (exp_part s3) as [expo s4]; simpl in L4.
  intros H. apply some_pair_snd in H. subst.
  eapply eats_trans; [exact L1|]. eapply eats_trans; [exact E|].
  eapply eats_trans; eassumption.
Qed.

Lemma keyword_eats name v s t rest :
  keyword name v s = Some (t, rest) -> Forall plain (lit name) -> eats s rest.
Proof.
  unfold keyword. intros H Hn.
  destruct (strip_prefix (lit name) s) as [r|] eqn:E; [|discriminate].
  inversion H; subst. apply strip_prefix_app in E.
  exists (lit name). auto.
Qed.

Lemma plain_checked (s : str) :
  forallb (fun c => between 35 126 c) s = true -> Forall plain s.
Proof.
  intros H. rewrite forallb_forall in H. apply Forall_forall.
  intros c Hc. apply H in Hc. apply (between_plain 35 126 c Hc); lia.
Qed.

(** The text between the quotes of a string, as [raw_string] cuts it. *)
Lemma raw_string_app s raw rest :
  raw_string s = Some (raw, rest) -> s = raw ++ dquote :: rest.
Proof.
  revert raw rest. induction s as [s IH] using (well_founded_induction
    (Wf_nat.well_founded_ltof _ (@List.length char))).
  unfold Wf_nat.ltof in IH. intros raw rest H.
  destruct s as [|c r]; [discriminate|]. simpl in H.
  destruct (N.eqb c dquote) eqn:Ec.
  - inversion H; subst. apply N.eqb_eq in Ec. subst. reflexivity.
  - destruct (N.eqb c backslash).
    + destruct r as [|d r']; [discriminate|].
      destruct (raw_string r') as [[raw' rest']|] eqn:E; [|discriminate].
      simpl in H. inversion H; subst.
      rewrite (IH r') with (raw := raw') (rest := rest);
        [reflexivity|simpl; lia|exact E].
    + destruct (raw_string r) as [[raw' rest']|] eqn:E; [|discriminate].
      simpl in H. inversion H; subst.
      rewrite (IH r) with (raw := raw') (rest := rest);
        [reflexivity|simpl; lia|exact E].
Qed.

Lemma raw_string_well_escaped s raw rest :
  raw_string s = Some (raw, rest) -> printable raw -> well_escaped raw = true.
Proof.
  revert raw rest. induction s as [s IH] using (well_founded_induction
    (Wf_nat.well_founded_ltof _ (@List.length char))).
  unfold Wf_nat.ltof in IH. intros raw rest H P.
  destruct s as [|c r]; [discriminate|]. simpl in H.
  destruct (N.eqb c dquote) eqn:Ec.
  - inversion H; subst. reflexivity.
  - destruct (N.eqb c backslash) eqn:Eb.
    + destruct r as [|d r']; [discriminate|].
      destruct (raw_string r') as [[raw' rest']|] eqn:E; [|discriminate].
      simpl in H. inversion H; subst.
      inversion P as [|? ? _ P1]; subst. inversion P1 as [|? ? Pd P2]; subst.
      cbn [well_escaped]. rewrite Ec, Eb.
      rewrite (IH r') with (raw := raw') (rest := rest);
        [|simpl; lia|exact E|exact P2].
      rewrite (eqb_false_of_ne d newline); [reflexivity|unfold newline; lia].
    + destruct (raw_string r) as [[raw' rest']|] eqn:E; [|discriminate].
      simpl in H. inversion H; subst. inversion P as [|? ? _ P1]; subst.
      cbn [well_escaped]. rewrite Ec, Eb.
      apply (IH r) with (rest := rest); [simpl; lia|exact E|exact P1].
Qed.

(** The extent of a string does not depend on what comes after it. *)
Lemma raw_string_retail s raw rest tail :
  raw_string s = Some (raw, rest) ->
  raw_string (raw ++ dquote :: tail) = Some (raw, tail).
Proof.
  revert raw rest. induction s as [s IH] using (well_founded_induction
    (Wf_nat.well_founded_ltof _ (@List.length char))).
  unfold Wf_nat.ltof in IH. intros raw rest H.
  destruct s as [|c r]; [discriminate|]. simpl in H.
  destruct (N.eqb c dquote) eqn:Ec.
  - inversion H; subst. reflexivity.
  - destruct (N.eqb c backslash) eqn:Eb.
    + destruct r as [|d r']; [discriminate|].
      destruct (raw_string r') as [[raw' rest']|] eqn:E; [|discriminate].
      simpl in H. inversion H; subst.
      cbn [app raw_string]. rewrite Ec, Eb.
      rewrite (IH r') with (raw := raw') (rest := rest);
        [reflexivity|simpl; lia|exact E].
    + destruct (raw_string r) as [[raw' rest']|] eqn:E; [|discriminate].
      simpl in H. inversion H; subst.
      cbn [app raw_string]. rewrite Ec, Eb.
      rewrite (IH r) with (raw := raw') (rest := rest);
        [reflexivity|simpl; lia|exact E].
Qed.

Lemma replace_char_absent c by_ s : ~ In c s -> replace_char c by_ s = s.
Proof.
  unfold replace_char. induction s as [|x s IH]; intros H; [reflexivity|].
  simpl. rewrite (eqb_false_of_ne x c) by (intros ->; apply H; left; reflexivity).
  simpl. rewrite IH; [reflexivity|]. intros Hin. apply H. right. exact Hin.
Qed.

Lemma escaped_printable s : printable s -> escaped s = s.
Proof.
  intros P. unfold escaped.
  assert (A : forall c, (c < 32)%N -> ~ In c s).
  { intros c Hc Hin. unfold printable in P. rewrite Forall_forall in P.
    apply P in Hin. lia. }
  rewrite (replace_char_absent newline) by (apply A; unfold newline; lia).
  rewrite (replace_char_absent tab) by (apply A; unfold tab; lia).
  apply replace_char_absent. apply A. unfold creturn. lia.
Qed.

Lemma decode_string_printable raw v : decode_string raw = Some v -> printable raw.
Proof.
  unfold decode_string.
  destruct (existsb (fun c => N.ltb c 32) raw) eqn:E; [discriminate|].
  intros _. apply Forall_forall. intros c Hc.
  destruct (N.ltb_spec c 32) as [L|L]; [|exact L].
  exfalso. assert (existsb (fun c => N.ltb c 32) raw = true).
  { apply existsb_exists. exists c. split; [exact Hc|]. apply N.ltb_lt. exact L. }
  congruence.
Qed.

(** What [lex1] takes from the text is the text of a token. *)
Lemma lex1_text s t rest :
  lex1 s = Some (t, rest) -> exists x, s = x ++ rest /\ token_text x.
Proof.
  assert (E0 : forall s0 rest0, eats s0 rest0 ->
            exists x, s0 = x ++ rest0 /\ token_text x).
  { intros s0 rest0 (x & -> & Hx). exists x. split; [reflexivity|].
    apply plain_text. exact Hx. }
  destruct s as [|c r]; [discriminate|]. unfold lex1.
  destruct (N.eqb c dquote) eqn:Eq.
  { apply N.eqb_eq in Eq. subst c. unfold string_token.
    destruct (raw_string r) as [[raw rest0]|] eqn:E; [|discriminate].
    destruct (decode_string raw) as [v|] eqn:D; [|discriminate].
    intros H; inversion H; subst. clear H.
    apply decode_string_printable in D.
    pose proof (raw_string_well_escaped _ _ _ E D) as W.
    apply raw_string_app in E. subst r.
    exists (dquote :: raw ++ [dquote]). split.
    - cbn [app]. rewrite <- app_assoc. reflexivity.
    - apply string_text; assumption. }
  repeat match goal with
         | |- (if N.eqb c ?k then Some (_, r) else _) = _ -> _ =>
             let E := fresh "E" in
             destruct (N.eqb c k) eqn:E;
             [intros H; inversion H; subst; apply E0; apply eats_one;
              apply (eqb_plain c k E); lia|]
         end.
  unfold first_of.
  repeat match goal with
         | |- match keyword ?n ?v ?s with _ => _ end = _ -> _ =>
             let E := fresh "E" in
             destruct (keyword n v s) as [[? ?]|] eqn:E;
             [intros H; inversion H; subst; apply E0;
              apply keyword_eats in E;
              [exact E|apply plain_checked; reflexivity] |]
         | |- match match scan_number ?s with _ => _ end with _ => _ end = _ -> _ =>
             let E := fresh "E" in
             destruct (scan_number s) as [[? ?]|] eqn:E;
             [intros H; inversion H; subst; apply E0;
              apply scan_number_eats in E; exact E |]
         end.
  intros E'. apply E0. apply keyword_eats in E';
    [exact E'|apply plain_checked; reflexivity].
Qed.

Lemma plain_no_quote x : Forall plain x -> no_quote x.
Proof. apply Forall_impl. intros c [_ H]. exact H. Qed.

(** The second pass of the sanitizer leaves the text of a token as it is. *)
Lemma token_text_sub_literals x :
  token_text x -> forall tail, sub_literals (x ++ tail) = x ++ sub_literals tail.
Proof.
  intros [y Hy|raw P W] tail.
  - apply sub_literals_skip, plain_no_quote, Hy.
  - cbn [app]. rewrite <- app_assoc. cbn [app].
    rewrite (sub_literals_match dquote _ raw tail).
    + rewrite clean_string_value_escaped, (escaped_printable _ P).
      cbn [app]. rewrite <- app_assoc. reflexivity.
    + simpl. apply literal_body_well_escaped. exact W.
Qed.

(** The characters U+007F to U+009F. *)
Definition no_del_c1 (s : str) : Prop :=
  Forall (fun c => between 127 159 c = false) s.

Lemma not_control c :
  (32 <= c)%N -> between 127 159 c = false -> is_control c = false.
Proof.
  intros H B. unfold is_control. rewrite B.
  rewrite (between_false 0 9 c), (between_false 14 31 c) by lia.
  rewrite !(eqb_false_of_ne c) by lia. reflexivity.
Qed.

(** The first pass of the sanitizer leaves it as it is too, when there is
    no character from U+007F to U+009F in it. *)
Lemma token_text_remove_control x :
  token_text x -> no_del_c1 x -> remove_control x = x.
Proof.
  intros [y Hy|raw P W] H; apply remove_control_free.
  - unfold control_free. apply Forall_forall. intros c Hc.
    unfold no_del_c1 in H. rewrite Forall_forall in H, Hy.
    destruct (Hy c Hc) as [R _]. apply not_control; [lia|apply H, Hc].
  - unfold control_free. apply Forall_forall. intros c Hc.
    unfold no_del_c1 in H. rewrite Forall_forall in H.
    apply not_control; [|apply H, Hc].
    destruct Hc as [<-|Hc]; [unfold dquote; lia|].
    apply in_app_or in Hc as [Hc|[<-|[]]]; [|unfold dquote; lia].
    unfold printable in P. rewrite Forall_forall in P. apply P, Hc.
Qed.

Lemma tokenize_sub_literals s ts : tokenize s = Some ts -> sub_literals s = s.
Proof.
  revert ts. induction s as [s IH] using (well_founded_induction
    (Wf_nat.well_founded_ltof _ (@List.length char))).
  unfold Wf_nat.ltof in IH. intros ts H.
  destruct s as [|c r]; [reflexivity|].
  destruct (is_json_space c) eqn:Es.
  - rewrite tokenize_space in H by exact Es.
    rewrite sub_literals_nomatch.
    + rewrite (IH r) with (ts := ts); [reflexivity|simpl; lia|exact H].
    + simpl. destruct (N.eqb c dquote) eqn:Eq; [|reflexivity].
      apply N.eqb_eq in Eq. subst c. discriminate Es.
  - rewrite tokenize_token in H by exact Es.
    destruct (lex1 (c :: r)) as [[t rest]|] eqn:E; [|discriminate].
    destruct (tokenize rest) as [ts'|] eqn:T; [|discriminate].
    pose proof (lex1_shorter _ E) as L.
    destruct (lex1_text _ _ _ E) as (x & Ex & Hx).
    rewrite Ex at 1. rewrite (token_text_sub_literals x Hx).
    rewrite (IH rest) with (ts := ts'); [symmetry; exact Ex|exact L|exact T].
Qed.

(** *** The text after a token does not change the token *)

Definition number_char (c : char) : bool :=
  (is_ascii_digit c || N.eqb c 43 || N.eqb c 45 || N.eqb c 46
   || N.eqb c 69 || N.eqb c 101)%bool.

(** [b] cannot go on a number. *)
Definition delimited (b : str) : Prop :=
  match b with
  | [] => True
  | c :: _ => number_char c = false
  end.

(** The result of a scanner when [b] is added at the end of the text. *)
Definition followed {A} (b : str) (o : option (A * str)) : option (A * str) :=
  match o with
  | Some (a, r) => Some (a, r ++ b)
  | None => None
  end.

Lemma number_char_false c :
  number_char c = false ->
  is_ascii_digit c = false /\ N.eqb c 43 = false /\ N.eqb c 45 = false
  /\ N.eqb c 46 = false /\ N.eqb c 69 = false /\ N.eqb c 101 = false.
Proof.
  unfold number_char. intros H.
  repeat (apply orb_false_elim in H as [H ?]). tauto.
Qed.

Ltac number_char_facts H :=
  apply number_char_false in H as (Ddigit & Dplus & Dminus & Ddot & DE & De).

Lemma span_digits_tail s b :
  delimited b ->
  span_digits (s ++ b) = (fst (span_digits s), snd (span_digits s) ++ b).
Proof.
  intros D. induction s as [|c r IH]; cbn [app].
  - destruct b as [|c b']; [reflexivity|]. simpl in D. number_char_facts D.
    simpl. rewrite Ddigit. reflexivity.
  - simpl. destruct (is_ascii_digit c); [|reflexivity].
    rewrite IH. destruct (span_digits r) as [ds rest]. reflexivity.
Qed.

Lemma opt_minus_tail s b :
  delimited b -> opt_minus (s ++ b) = (fst (opt_minus s), snd (opt_minus s) ++ b).
Proof.
  intros D. destruct s as [|c r]; cbn [app].
  - destruct b as [|c b']; [reflexivity|]. simpl in D. number_char_facts D.
    simpl. rewrite Dminus. reflexivity.
  - simpl. destruct (N.eqb c 45); reflexivity.
Qed.

Lemma opt_sign_tail s b :
  delimited b -> opt_sign (s ++ b) = (fst (opt_sign s), snd (opt_sign s) ++ b).
Proof.
  intros D. destruct s as [|c r]; cbn [app].
  - destruct b as [|c b']; [reflexivity|]. simpl in D. number_char_facts D.
    simpl. rewrite Dminus, Dplus. reflexivity.
  - simpl. destruct (N.eqb c 45); [reflexivity|].
    destruct (N.eqb c 43); reflexivity.
Qed.

Lemma digit_cases c :
  is_ascii_digit c = false -> N.eqb c 48 = false /\ between 49 57 c = false.
Proof.
  unfold is_ascii_digit, between. intros H.
  apply andb_false_iff in H. split.
  - apply N.eqb_neq. intros ->. destruct H as [H|H]; discriminate H.
  - apply andb_false_iff.
    destruct H as [H|H]; [left|right; exact H].
    apply N.leb_gt in H. apply N.leb_gt. lia.
Qed.

Lemma int_part_tail s b :
  delimited b -> int_part (s ++ b) = followed b (int_part s).
Proof.
  intros D. destruct s as [|c r]; cbn [app].
  - destruct b as [|c b']; [reflexivity|]. simpl in D. number_char_facts D.
    apply digit_cases in Ddigit as [D1 D2]. simpl. rewrite D1, D2. reflexivity.
  - simpl. destruct (N.eqb c 48); [reflexivity|].
    destruct (between 49 57 c); [|reflexivity].
    rewrite (span_digits_tail r b D).
    destruct (span_digits r) as [ds rest]. reflexivity.
Qed.

Lemma frac_part_tail s b :
  delimited b -> frac_part (s ++ b) = (fst (frac_part s), snd (frac_part s) ++ b).
Proof.
  intros D. destruct s as [|c r]; cbn [app].
  - destruct b as [|c b']; [reflexivity|]. simpl in D. number_char_facts D.
    simpl. rewrite Ddot. reflexivity.
  - simpl. destruct (N.eqb c 46); [|reflexivity].
    rewrite (span_digits_tail r b D).
    destruct (span_digits r) as [[|d ds] rest]; reflexivity.
Qed.

Lemma exp_part_tail s b :
  delimited b -> exp_part (s ++ b) = (fst (exp_part s), snd (exp_part s) ++ b).
Proof.
  intros D. destruct s as [|c r]; cbn [app].
  - destruct b as [|c b']; [reflexivity|]. simpl in D. number_char_facts D.
    simpl. rewrite De, DE. reflexivity.
  - simpl. destruct (N.eqb c 101 || N.eqb c 69)%bool; [|reflexivity].
    rewrite (opt_sign_tail r b D).
    destruct (opt_sign r) as [eneg r']. cbn [fst snd].
    rewrite (span_digits_tail r' b D).
    destruct (span_digits r') as [[|d ds] rest]; reflexivity.
Qed.

Lemma scan_number_tail s b :
  delimited b -> scan_number (s ++ b) = followed b (scan_number s).
Proof.
  intros D. unfold scan_number.
  rewrite (opt_minus_tail s b D). destruct (opt_minus s) as [neg s1].
  cbn [fst snd]. rewrite (int_part_tail s1 b D).
  destruct (int_part s1) as [[ip s2]|]; [|reflexivity]. cbn [followed].
  rewrite (frac_part_tail s2 b D). destruct (frac_part s2) as [frac s3].
  cbn [fst snd]. rewrite (exp_part_tail s3 b D).
  destruct (exp_part s3) as [expo s4]. reflexivity.
Qed.

(** [b] cannot go on the word [p]. *)
Definition off_word (p b : str) : Prop :=
  match b with
  | [] => True
  | c :: _ => ~ In c p
  end.

Lemma strip_prefix_tail p s b :
  off_word p b ->
  strip_prefix p (s ++ b) = option_map (fun r => r ++ b) (strip_prefix p s).
Proof.
  revert s. induction p as [|x p IH]; intros s D; [reflexivity|].
  destruct s as [|y s]; cbn [app].
  - destruct b as [|c b']; [reflexivity|]. simpl in D. simpl.
    rewrite (eqb_false_of_ne x c); [reflexivity|].
    intros ->. apply D. left. reflexivity.
  - simpl. destruct (N.eqb x y); [|reflexivity]. apply IH.
    destruct b as [|c b']; [exact I|]. simpl in *. tauto.
Qed.

Lemma keyword_tail name v s b :
  off_word (lit name) b ->
  keyword name v (s ++ b) = followed b (keyword name v s).
Proof.
  intros D. unfold keyword. rewrite (strip_prefix_tail _ s b D).
  destruct (strip_prefix (lit name) s); reflexivity.
Qed.

Lemma followed_first_of {A} b (x y : option (A * str)) :
  first_of (followed b x) (followed b y) = followed b (first_of x y).
Proof. destruct x as [[a r]|]; reflexivity. Qed.

Lemma raw_string_trailing s c :
  c <> dquote -> c <> backslash ->
  raw_string (s ++ [c]) = followed [c] (raw_string s).
Proof.
  intros Hq Hb. induction s as [s IH] using (well_founded_induction
    (Wf_nat.well_founded_ltof _ (@List.length char))).
  unfold Wf_nat.ltof in IH.
  destruct s as [|a r]; cbn [app].
  - cbn [raw_string].
    rewrite (eqb_false_of_ne c dquote Hq), (eqb_false_of_ne c backslash Hb).
    reflexivity.
  - cbn [raw_string]. destruct (N.eqb a dquote); [reflexivity|].
    destruct (N.eqb a backslash).
    + destruct r as [|d r']; cbn [app]; [reflexivity|].
      rewrite (IH r') by (simpl; lia).
      destruct (raw_string r') as [[raw rest]|]; reflexivity.
    + rewrite (IH r) by (simpl; lia).
      destruct (raw_string r) as [[raw rest]|]; reflexivity.
Qed.

Lemma string_token_trailing s c :
  c <> dquote -> c <> backslash ->
  string_token (s ++ [c]) = followed [c] (string_token s).
Proof.
  intros Hq Hb. unfold string_token. rewrite (raw_string_trailing s c Hq Hb).
  destruct (raw_string s) as [[raw rest]|]; [|reflexivity]. cbn [followed].
  destruct (decode_string raw); reflexivity.
Qed.

(** A white space character belongs to no token but a string. *)
Definition blank (c : char) : Prop := (c <= 32 \/ 127 < c)%N.

Lemma is_space_blank c : is_space c = true -> blank c.
Proof. intros H. apply is_space_ranges in H. unfold blank. lia. Qed.

Lemma blank_delimited c b : blank c -> delimited (c :: b).
Proof.
  unfold blank, delimited, number_char, is_ascii_digit. intros H.
  rewrite (between_false 48 57 c) by lia.
  rewrite !(eqb_false_of_ne c) by lia. reflexivity.
Qed.

Lemma blank_off_word (name : string) c b :
  blank c ->
  forallb (fun x => between 33 127 x) (lit name) = true ->
  off_word (lit name) (c :: b).
Proof.
  unfold blank. intros H F Hin. rewrite forallb_forall in F.
  apply F in Hin. unfold between in Hin. apply andb_prop in Hin as [A B].
  apply N.leb_le in A, B. lia.
Qed.

Lemma lex1_trailing a r c :
  blank c -> lex1 ((a :: r) ++ [c]) = followed [c] (lex1 (a :: r)).
Proof.
  intros B. cbn [app]. unfold lex1.
  destruct (N.eqb a dquote).
  { rewrite (string_token_trailing r c)
      by (unfold blank, dquote, backslash in *; lia).
    destruct (string_token r) as [[v rest]|]; reflexivity. }
  repeat match goal with
         | |- (if ?b then _ else _) = _ => destruct b; [reflexivity|]
         end.
  change (a :: r ++ [c]) with ((a :: r) ++ [c]).
  rewrite !(keyword_tail _ _ (a :: r) [c])
    by (apply blank_off_word; [exact B|reflexivity]).
  rewrite (scan_number_tail (a :: r) [c]) by (apply blank_delimited; exact B).
  rewrite <- !followed_first_of. repeat f_equal.
  destruct (scan_number (a :: r)) as [[v rest]|]; reflexivity.
Qed.

Lemma json_space_is_space c : is_json_space c = true -> is_space c = true.
Proof.
  unfold is_json_space. intros H.
  repeat (apply orb_prop in H as [H|H]); apply N.eqb_eq in H; subst; reflexivity.
Qed.

(** White space at the end of a text, of JSON or not, is no part of its
    tokens. *)
Lemma tokenize_trailing s c ts :
  is_space c = true -> tokenize (s ++ [c]) = Some ts -> tokenize s = Some ts.
Proof.
  intros Hc. revert ts. induction s as [s IH] using (well_founded_induction
    (Wf_nat.well_founded_ltof _ (@List.length char))).
  unfold Wf_nat.ltof in IH. intros ts H.
  destruct s as [|a r].
  - cbn [app] in H. destruct (is_json_space c) eqn:J.
    + rewrite tokenize_space in H by exact J. exact H.
    + rewrite tokenize_token in H by exact J.
      rewrite (lex1_space c [] Hc) in H. discriminate H.
  - destruct (is_json_space a) eqn:J.
    + cbn [app] in H. rewrite tokenize_space in H |- * by exact J.
      apply IH; [simpl; lia|exact H].
    + pose proof (lex1_trailing a r c (is_space_blank c Hc)) as L.
      cbn [app] in H, L. rewrite tokenize_token in H |- * by exact J.
      rewrite L in H.
      destruct (lex1 (a :: r)) as [[t rest]|] eqn:E; [|discriminate H].
      cbn [followed] in H.
      destruct (tokenize (rest ++ [c])) as [ts'|] eqn:T; [|discriminate H].
      rewrite (IH rest (lex1_shorter _ E) ts' T). exact H.
Qed.

Lemma tokenize_lstrip s ts : tokenize s = Some ts -> tokenize (lstrip s) = Some ts.
Proof.
  induction s as [|c r IH]; intros H; [exact H|].
  simpl. destruct (is_space c) eqn:S; [|exact H].
  apply IH. destruct (is_json_space c) eqn:J.
  - rewrite tokenize_space in H by exact J. exact H.
  - rewrite tokenize_token in H by exact J.
    rewrite (lex1_space c r S) in H. discriminate H.
Qed.

Lemma tokenize_rstrip s ts : tokenize s = Some ts -> tokenize (rstrip s) = Some ts.
Proof.
  unfold rstrip. rewrite <- (rev_involutive s) at 1.
  induction (rev s) as [|c u IH]; intros H; [exact H|].
  cbn [rev] in H. cbn [lstrip].
  destruct (is_space c) eqn:S; [|exact H].
  apply IH. exact (tokenize_trailing _ c ts S H).
Qed.

Lemma tokenize_strip s ts : tokenize s = Some ts -> tokenize (strip s) = Some ts.
Proof. intros H. apply tokenize_rstrip, tokenize_lstrip, H. Qed.

Lemma json_loads_strip s v : json_loads s = Ok v -> json_loads (strip s) = Ok v.
Proof.
  unfold json_loads. destruct (tokenize s) as [ts|] eqn:T; [|discriminate].
  rewrite (tokenize_strip s ts T). trivial.
Qed.

(** *** A response that needs no correction *)

(** An [int] from [lo] to [hi]. *)
Definition int_within (lo hi : Z) (v : option value) : option Z :=
  match v with
  | Some (VInt n) => if ((lo <=? n) && (n <=? hi))%Z%bool then Some n else None
  | _ => None
  end.

(** The sum of field [f] over the criteria [names], when each of them has
    an [int] from 1 to 5 there. *)
Fixpoint sum_scores (r : value) (f : str) (names : list str) : option Z :=
  match names with
  | [] => Some 0%Z
  | c :: names' =>
      match int_within 1 5 (lookup r c f), sum_scores r f names' with
      | Some n, Some rest => Some (n + rest)%Z
      | _, _ => None
      end
  end.

Definition has_required_sections (r : value) : bool :=
  forallb (fun s => match py_in s r with Ok true => true | _ => false end)
    required_sections.

(** What the guided analyzer checks, all of it right in [r]: the nine
    sections, the two scores of each criterion, the [input_score] in range
    and the [improved_score] equal to the sum of the criteria's. *)
Definition guided_consistent (r : value) : bool :=
  (has_required_sections r
   && match sum_scores r (lit "score") criteria,
            sum_scores r (lit "improved_score") criteria,
            int_within 0 30 (lookup r (lit "overall") (lit "input_score")),
            lookup r (lit "overall") (lit "improved_score") with
      | Some _, Some t, Some _, Some (VInt m) => Z.eqb m t
      | _, _, _, _ => false
      end)%bool.

(** The same for the baseline analyzer: the nine sections, the score of
    each criterion, the overall [score] equal to their sum and an
    [improved_score] that is an [int], at most 30. *)
Definition baseline_consistent (r : value) : bool :=
  (has_required_sections r
   && match sum_scores r (lit "score") criteria,
            lookup r (lit "overall") (lit "score"),
            lookup r (lit "overall") (lit "improved_score") with
      | Some t, Some (VInt n), Some (VInt m) => Z.eqb n t && Z.leb m 30
      | _, _, _ => false
      end)%bool.

Lemma int_within_inv lo hi v n :
  int_within lo hi v = Some n -> v = Some (VInt n) /\ (lo <= n <= hi)%Z.
Proof.
  unfold int_within. destruct v as [[| |k| | | |]|]; try discriminate.
  destruct ((lo <=? k) && (k <=? hi))%Z%bool eqn:E; [|discriminate].
  intros H; inversion H; subst. apply andb_prop in E as [A B].
  apply Z.leb_le in A, B. auto.
Qed.

Lemma sum_scores_each r f names t :
  sum_scores r f names = Some t ->
  forall c, In c names ->
    exists n, lookup r c f = Some (VInt n) /\ (1 <= n <= 5)%Z.
Proof.
  revert t. induction names as [|x names IH]; intros t H c Hc; [destruct Hc|].
  simpl in H. destruct (int_within 1 5 (lookup r x f)) as [n|] eqn:E;
    [|discriminate].
  destruct (sum_scores r f names) as [rest|] eqn:S; [|discriminate].
  destruct Hc as [<-|Hc].
  - exists n. apply int_within_inv. exact E.
  - apply (IH rest eq_refl c Hc).
Qed.

Lemma sum_scores_sum_fields r f names t :
  sum_scores r f names = Some t -> sum_fields r f names = Ok t.
Proof.
  revert t. induction names as [|x names IH]; intros t H; simpl in H.
  - inversion H. reflexivity.
  - destruct (int_within 1 5 (lookup r x f)) as [n|] eqn:E; [|discriminate].
    destruct (sum_scores r f names) as [rest|] eqn:S; [|discriminate].
    inversion H; subst. apply int_within_inv in E as [E _].
    simpl. rewrite (lookup_get_field _ _ _ _ E). simpl.
    rewrite (IH rest eq_refl). reflexivity.
Qed.

Lemma dict_set_same d k v : dict_get d k = Some v -> dict_set d k v = d.
Proof.
  induction d as [|[k' v'] d IH]; simpl; [discriminate|].
  destruct (str_eqb k' k).
  - intros H; inversion H; reflexivity.
  - intros H. rewrite (IH H). reflexivity.
Qed.

(** Storing in a field the value that it has changes nothing. *)
Lemma set_field_same r s f x : lookup r s f = Some x -> set_field r s f x = Ok r.
Proof.
  unfold lookup, set_field. destruct r as [| | | | | |d]; try discriminate.
  simpl. destruct (dict_get d s) as [[| | | | | |sd]|] eqn:E; try discriminate.
  intros H. simpl. rewrite (dict_set_same sd f x H), (dict_set_same d s _ E).
  reflexivity.
Qed.

Lemma for_each_fixed names body r :
  (forall x, In x names -> body r x = Ok r) -> for_each names body r = Ok r.
Proof.
  induction names as [|x names IH]; intros H; [reflexivity|].
  simpl. rewrite (H x (or_introl eq_refl)). simpl.
  apply IH. intros y Hy. apply H. right. exact Hy.
Qed.

Lemma has_required_sections_in r s :
  has_required_sections r = true -> In s required_sections -> py_in s r = Ok true.
Proof.
  unfold has_required_sections. rewrite forallb_forall. intros H Hs.
  apply H in Hs. destruct (py_in s r) as [[|]|]; congruence.
Qed.

Lemma guided_fill_fixed input_score r :
  has_required_sections r = true ->
  for_each required_sections (fill_section input_score) r = Ok r.
Proof.
  intros H. apply for_each_fixed. intros s Hs. unfold fill_section.
  rewrite (has_required_sections_in r s H Hs). reflexivity.
Qed.

Lemma baseline_fill_fixed r :
  has_required_sections r = true ->
  for_each required_sections Refinement.fill_section r = Ok r.
Proof.
  intros H. apply for_each_fixed. intros s Hs. unfold Refinement.fill_section.
  rewrite (has_required_sections_in r s H Hs). reflexivity.
Qed.

Lemma validate_score_fixed f r c n :
  lookup r c f = Some (VInt n) -> (1 <= n <= 5)%Z -> validate_score f r c = Ok r.
Proof.
  intros L Hn. unfold validate_score.
  rewrite (missing_or_not_number_lookup _ _ _ _ L). simpl.
  rewrite (lookup_get_field _ _ _ _ L). simpl.
  replace (Z.max 1 (Z.min 5 n)) with n by lia.
  rewrite (set_field_same _ _ _ _ L). reflexivity.
Qed.

Lemma guided_validate_fixed r s t :
  sum_scores r (lit "score") criteria = Some s ->
  sum_scores r (lit "improved_score") criteria = Some t ->
  for_each criteria validate_criterion r = Ok r.
Proof.
  intros S T. apply for_each_fixed. intros c Hc.
  destruct (sum_scores_each _ _ _ _ S c Hc) as (n & Ln & Hn).
  destruct (sum_scores_each _ _ _ _ T c Hc) as (m & Lm & Hm).
  unfold validate_criterion. rewrite (validate_score_fixed _ _ _ _ Ln Hn).
  simpl. apply (validate_score_fixed _ _ _ _ Lm Hm).
Qed.

Lemma baseline_validate_fixed r s :
  sum_scores r (lit "score") criteria = Some s ->
  for_each criteria Refinement.validate_criterion r = Ok r.
Proof.
  intros S. apply for_each_fixed. intros c Hc.
  destruct (sum_scores_each _ _ _ _ S c Hc) as (n & Ln & Hn).
  unfold Refinement.validate_criterion.
  rewrite (lookup_get_field _ _ _ _ Ln). simpl.
  replace (Z.max 1 (Z.min 5 n)) with n by lia.
  apply (set_field_same _ _ _ _ Ln).
Qed.

Lemma sum_scores_bounds r f names t :
  sum_scores r f names = Some t -> (0 <= t <= 5 * Z.of_nat (List.length names))%Z.
Proof.
  revert t. induction names as [|x names IH]; intros t H; simpl in H.
  - inversion H. simpl. lia.
  - destruct (int_within 1 5 (lookup r x f)) as [n|] eqn:E; [|discriminate].
    destruct (sum_scores r f names) as [rest|] eqn:S; [|discriminate].
    inversion H; subst. apply int_within_inv in E as [_ E].
    specialize (IH rest eq_refl). cbn [List.length]. lia.
Qed.

(** The checks of the guided analyzer, from the parsed response on, give
    back a consistent response. *)
Lemma guided_checks_fixed input_score r :
  guided_consistent r = true ->
  (result <- for_each required_sections (fill_section input_score) r ;;
   result <- for_each criteria validate_criterion result ;;
   calculated_improved_score <-
     sum_fields result (lit "improved_score") criteria ;;
   bad <- missing_or_not_number result (lit "overall") (lit "input_score") ;;
   result <- (if bad
              then set_field result (lit "overall") (lit "input_score")
                     (VInt input_score)
              else Ok result) ;;
   n <- (v <- get_field result (lit "overall") (lit "input_score") ;;
         py_int v) ;;
   result <- set_field result (lit "overall") (lit "input_score")
               (VInt (Z.max 0 (Z.min 30 n))) ;;
   bad <- missing_or_not_number result (lit "overall") (lit "improved_score") ;;
   result <- (if bad
              then set_field result (lit "overall") (lit "improved_score")
                     (VInt calculated_improved_score)
              else Ok result) ;;
   n <- (v <- get_field result (lit "overall") (lit "improved_score") ;;
         py_int v) ;;
   result <- set_field result (lit "overall") (lit "improved_score")
               (VInt (Z.max 0 (Z.min 30 n))) ;;
   reported <- (v <- get_field result (lit "overall") (lit "improved_score") ;;
                int_value v) ;;
   if negb (Z.eqb reported calculated_improved_score) then
     result <- set_field result (lit "overall") (lit "improved_score")
                 (VInt calculated_improved_score) ;;
     current_refinement_summary <-
       (overall <- py_getitem result (lit "overall") ;;
        py_get overall (lit "refinement_summary") (VStr [])) ;;
     shown <- (v <- get_field result (lit "overall") (lit "input_score") ;;
               int_value v) ;;
     let sentence := score_sentence shown calculated_improved_score in
     updated_refinement_summary <-
       re_sub_score sentence current_refinement_summary ;;
     set_field result (lit "overall") (lit "refinement_summary")
       (VStr (match updated_refinement_summary with
              | _ :: _ => updated_refinement_summary
              | [] => sentence
              end))
   else Ok result) = Ok r.
Proof.
  unfold guided_consistent. intros H. apply andb_prop in H as [Hs H].
  destruct (sum_scores r (lit "score") criteria) as [s|] eqn:S; [|discriminate].
  destruct (sum_scores r (lit "improved_score") criteria) as [t|] eqn:T;
    [|discriminate].
  destruct (int_within 0 30 (lookup r (lit "overall") (lit "input_score")))
    as [k|] eqn:K; [|discriminate].
  destruct (lookup r (lit "overall") (lit "improved_score"))
    as [[| |m| | | |]|] eqn:M; try discriminate.
  apply Z.eqb_eq in H. subst m.
  apply int_within_inv in K as [K Hk].
  pose proof (sum_scores_bounds _ _ _ _ T) as Ht.
  change (Z.of_nat (List.length criteria)) with 6%Z in Ht.
  rewrite (guided_fill_fixed input_score r Hs). cbn [bind].
  rewrite (guided_validate_fixed r s t S T). cbn [bind].
  rewrite (sum_scores_sum_fields _ _ _ _ T). cbn [bind].
  rewrite (missing_or_not_number_lookup _ _ _ _ K). cbn [bind is_number negb].
  rewrite (lookup_get_field _ _ _ _ K). cbn [bind py_int].
  replace (Z.max 0 (Z.min 30 k)) with k by lia.
  rewrite (set_field_same _ _ _ _ K). cbn [bind].
  rewrite (missing_or_not_number_lookup _ _ _ _ M). cbn [bind is_number negb].
  rewrite (lookup_get_field _ _ _ _ M). cbn [bind py_int].
  replace (Z.max 0 (Z.min 30 t)) with t by lia.
  rewrite (set_field_same _ _ _ _ M). cbn [bind].
  rewrite (lookup_get_field _ _ _ _ M). cbn [bind int_value].
  rewrite Z.eqb_refl. reflexivity.
Qed.

Lemma baseline_checks_fixed r :
  baseline_consistent r = true ->
  (result <- for_each required_sections Refinement.fill_section r ;;
   result <- for_each criteria Refinement.validate_criterion result ;;
   total <- sum_fields result (lit "score") criteria ;;
   result <- set_field result (lit "overall") (lit "score") (VInt total) ;;
   n <- (overall <- py_getitem result (lit "overall") ;;
         v <- py_get overall (lit "improved_score") (VInt 0) ;;
         py_int v) ;;
   set_field result (lit "overall") (lit "improved_score")
     (VInt (Z.min 30 n))) = Ok r.
Proof.
  unfold baseline_consistent. intros H. apply andb_prop in H as [Hs H].
  destruct (sum_scores r (lit "score") criteria) as [t|] eqn:T; [|discriminate].
  destruct (lookup r (lit "overall") (lit "score"))
    as [[| |n| | | |]|] eqn:N; try discriminate.
  destruct (lookup r (lit "overall") (lit "improved_score"))
    as [[| |m| | | |]|] eqn:M; try discriminate.
  apply andb_prop in H as [H1 H2]. apply Z.eqb_eq in H1. apply Z.leb_le in H2.
  subst n.
  rewrite (baseline_fill_fixed r Hs). cbn [bind].
  rewrite (baseline_validate_fixed r t T). cbn [bind].
  rewrite (sum_scores_sum_fields _ _ _ _ T). cbn [bind].
  rewrite (set_field_same _ _ _ _ N). cbn [bind].
  destruct (lookup_section _ _ _ _ M) as (sd & E).
  unfold lookup in M. rewrite E in M. rewrite E. cbn [bind py_get].
  rewrite M. cbn [bind py_int].
  replace (Z.min 30 m) with m by lia.
  apply set_field_same. unfold lookup. rewrite E. exact M.
Qed.

(** *** Removing the white space that the sanitizer removes *)

Definition is_punct (c : char) : bool :=
  (N.eqb c 123 || N.eqb c 125 || N.eqb c 91 || N.eqb c 93 || N.eqb c 58
   || N.eqb c 44)%bool.

Definition is_atom (t : token) : bool :=
  match t with
  | TAtom _ => true
  | _ => false
  end.

(** [b] is empty or starts with a character that is white space or
    punctuation: whatever token comes before [b] ends there. *)
Definition outside (b : str) : Prop :=
  match b with
  | [] => True
  | c :: _ => blank c \/ is_punct c = true
  end.

Lemma is_punct_cases c :
  is_punct c = true ->
  (c = 123 \/ c = 125 \/ c = 91 \/ c = 93 \/ c = 58 \/ c = 44)%N.
Proof.
  unfold is_punct. intros H.
  repeat (apply orb_prop in H as [H|H]); apply N.eqb_eq in H; tauto.
Qed.

Lemma outside_delimited b : outside b -> delimited b.
Proof.
  destruct b as [|c b]; [trivial|]. intros [H|H].
  - apply blank_delimited. exact H.
  - apply is_punct_cases in H. simpl.
    destruct H as [->|[->|[->|[->|[->| ->]]]]]; reflexivity.
Qed.

Lemma outside_off_word (name : string) b :
  outside b ->
  forallb (fun x => between 33 127 x && negb (is_punct x)) (lit name) = true ->
  off_word (lit name) b.
Proof.
  destruct b as [|c b]; [trivial|]. intros H F Hin.
  rewrite forallb_forall in F. apply F in Hin. apply andb_prop in Hin as [A B].
  destruct H as [H|H].
  - unfold blank in H. unfold between in A. apply andb_prop in A as [A1 A2].
    apply N.leb_le in A1, A2. lia.
  - rewrite H in B. discriminate B.
Qed.

(** A token that is no string is the same whatever follows it, when what
    follows starts outside. *)
Lemma lex1_other_tail (a : char) (r b : str) :
  outside b -> N.eqb a dquote = false ->
  lex1 ((a :: r) ++ b) = followed b (lex1 (a :: r)).
Proof.
  intros B Q. cbn [app]. unfold lex1.
  destruct (N.eqb a dquote); [discriminate Q|].
  repeat match goal with
         | |- (if ?b then _ else _) = _ => destruct b; [reflexivity|]
         end.
  change (a :: r ++ b) with (@app char (a :: r) b).
  rewrite !(keyword_tail _ _ (a :: r) b)
    by (apply outside_off_word; [exact B|reflexivity]).
  rewrite (scan_number_tail (a :: r) b) by (apply outside_delimited; exact B).
  rewrite <- !followed_first_of. repeat f_equal.
  destruct (scan_number (a :: r)) as [[v rest]|]; reflexivity.
Qed.

(** The token at the head of a text is the same when the text after it is
    replaced, both texts starting outside. *)
Lemma lex1_retail (x rest tail : str) t :
  x <> [] -> lex1 (x ++ rest) = Some (t, rest) ->
  outside rest -> outside tail -> lex1 (x ++ tail) = Some (t, tail).
Proof.
  intros Hx H Hrest Htail. destruct x as [|a x]; [congruence|].
  destruct (N.eqb a dquote) eqn:Q.
  - cbn [app] in *. unfold lex1 in *. rewrite Q in *.
    unfold string_token in *.
    destruct (raw_string (x ++ rest)) as [[raw rest0]|] eqn:E; [|discriminate].
    destruct (decode_string raw) as [v|] eqn:D; [|discriminate].
    inversion H; subst. clear H.
    pose proof (raw_string_retail _ _ _ tail E) as R.
    apply raw_string_app in E.
    change (raw ++ dquote :: rest) with (raw ++ [dquote] ++ rest) in E.
    rewrite app_assoc in E. apply app_inv_tail in E. subst x.
    rewrite <- app_assoc. cbn [app]. rewrite R, D. reflexivity.
  - pose proof (lex1_other_tail a x rest Hrest Q) as K1.
    pose proof (lex1_other_tail a x tail Htail Q) as K2.
    assert (K : followed rest (lex1 (a :: x)) = Some (t, rest))
      by (rewrite <- K1; exact H).
    apply (eq_trans K2). clear K1 K2 H.
    destruct (lex1 (a :: x)) as [[t0 r0]|]; [|discriminate].
    cbn [followed] in *. inversion K as [[Ht Hr]]. subst t0.
    apply (app_inv_tail rest r0 []) in Hr. subst r0. reflexivity.
Qed.

(** A token that is no atom is one character of punctuation. *)
Lemma lex1_not_atom c r t rest :
  lex1 (c :: r) = Some (t, rest) -> is_atom t = false ->
  is_punct c = true /\ rest = r /\ forall tail, lex1 (c :: tail) = Some (t, tail).
Proof.
  unfold lex1, is_punct.
  destruct (N.eqb c dquote).
  { destruct (string_token r) as [[v rest0]|]; [|discriminate].
    intros H; inversion H; subst. discriminate. }
  repeat match goal with
         | |- (if N.eqb c ?k then Some (_, r) else _) = _ -> _ =>
             destruct (N.eqb c k);
             [intros H; inversion H; subst; intros _;
              rewrite ?orb_true_r; auto|]
         end.
  unfold first_of, keyword.
  repeat match goal with
         | |- context [strip_prefix ?p (c :: r)] =>
             destruct (strip_prefix p (c :: r));
             [intros H; inversion H; subst; discriminate|]
         | |- context [scan_number (c :: r)] =>
             destruct (scan_number (c :: r)) as [[? ?]|];
             [intros H; inversion H; subst; discriminate|]
         end.
  discriminate.
Qed.

(** After an atom comes no atom. *)
Definition next_not_atom (ts : list token) : Prop :=
  match ts with
  | t :: _ => is_atom t = false
  | [] => True
  end.

Fixpoint separated (ts : list token) : Prop :=
  match ts with
  | t :: ts' => (is_atom t = true -> next_not_atom ts') /\ separated ts'
  | [] => True
  end.

Lemma step_atom_atom st v w st' :
  step st (TAtom v) = Some st' -> step st' (TAtom w) = None.
Proof.
  destruct st; simpl; try discriminate;
    try (destruct v; try discriminate);
    intros H; inversion H; subst; try reflexivity;
    unfold reduce;
    match goal with
    | |- context [match ?s with _ => _ end] => destruct s as [|[|] ?]
    end; reflexivity.
Qed.

(** The automaton accepts no two atoms in a row. *)
Lemma run_separated ts : forall st st', run st ts = Some st' -> separated ts.
Proof.
  induction ts as [|t ts IH]; intros st st' H; [exact I|].
  simpl in H. destruct (step st t) as [st1|] eqn:E; [|discriminate].
  split; [|exact (IH _ _ H)].
  destruct ts as [|t' ts']; [intros _; exact I|]. intros A.
  destruct t; try discriminate A. destruct t'; try reflexivity.
  simpl in H. rewrite (step_atom_atom _ _ _ _ E) in H. discriminate H.
Qed.

(** The text after an atom, in a text that the automaton accepts: white
    space of JSON up to the end or up to a character of punctuation. *)
Fixpoint after_atom (s : str) : Prop :=
  match s with
  | [] => True
  | c :: r => if is_json_space c then after_atom r else is_punct c = true
  end.

Lemma tokenize_after_atom s ts :
  tokenize s = Some ts -> next_not_atom ts -> after_atom s.
Proof.
  induction s as [|c r IH]; intros H N; [exact I|].
  simpl. destruct (is_json_space c) eqn:J.
  - rewrite tokenize_space in H by exact J. exact (IH H N).
  - rewrite tokenize_token in H by exact J.
    destruct (lex1 (c :: r)) as [[t rest]|] eqn:E; [|discriminate].
    destruct (tokenize rest) as [ts'|]; [|discriminate].
    inversion H; subst. simpl in N.
    apply (lex1_not_atom _ _ _ _ E N).
Qed.

Lemma after_atom_outside s : after_atom s -> outside s.
Proof.
  destruct s as [|c r]; [trivial|]. simpl.
  destruct (is_json_space c) eqn:J; [|auto].
  intros _. left. apply is_space_blank, json_space_is_space, J.
Qed.

Lemma punct_not_control c : is_punct c = true -> is_control c = false.
Proof.
  intros H. apply is_punct_cases in H.
  destruct H as [->|[->|[->|[->|[->| ->]]]]]; reflexivity.
Qed.

Lemma remove_control_cons c r :
  remove_control (c :: r)
  = if is_control c then remove_control r else c :: remove_control r.
Proof. unfold remove_control. simpl. destruct (is_control c); reflexivity. Qed.

Lemma after_atom_remove_control s : after_atom s -> after_atom (remove_control s).
Proof.
  induction s as [|c r IH]; [trivial|].
  cbn [after_atom]. rewrite remove_control_cons.
  destruct (is_json_space c) eqn:J.
  - intros H. destruct (is_control c); [exact (IH H)|].
    cbn [after_atom]. rewrite J. exact (IH H).
  - intros H. rewrite (punct_not_control c H).
    cbn [after_atom]. rewrite J. exact H.
Qed.

(** The first pass of the sanitizer does not change the tokens of a text
    that parses, when the text has no character from U+007F to U+009F: the
    tabs that it removes stand between tokens of which one is
    punctuation. *)
Lemma tokenize_remove_control s :
  forall ts, no_del_c1 s -> tokenize s = Some ts -> separated ts ->
             tokenize (remove_control s) = Some ts.
Proof.
  induction s as [s IH] using (well_founded_induction
    (Wf_nat.well_founded_ltof _ (@List.length char))).
  unfold Wf_nat.ltof in IH. intros ts Hs H Sep.
  destruct s as [|c r]; [exact H|].
  destruct (is_json_space c) eqn:J.
  - rewrite tokenize_space in H by exact J. rewrite remove_control_cons.
    inversion Hs as [|? ? _ Hr]; subst.
    assert (K : tokenize (remove_control r) = Some ts)
      by (apply IH; [simpl; lia|exact Hr|exact H|exact Sep]).
    destruct (is_control c); [exact K|].
    rewrite tokenize_space by exact J. exact K.
  - rewrite tokenize_token in H by exact J.
    destruct (lex1 (c :: r)) as [[t rest]|] eqn:E; [|discriminate].
    destruct (tokenize rest) as [ts'|] eqn:T; [|discriminate].
    inversion H; subst ts. clear H. destruct Sep as [Sep1 Sep2].
    pose proof (lex1_shorter _ E) as L.
    destruct (is_atom t) eqn:A.
    + destruct (lex1_text _ _ _ E) as (x & Ex & Hx).
      assert (Hx0 : x <> []).
      { intros ->. rewrite Ex in L. simpl in L. lia. }
      rewrite Ex in Hs. apply Forall_app in Hs as [Hs1 Hs2].
      pose proof (tokenize_after_atom _ _ T (Sep1 eq_refl)) as AA.
      rewrite Ex in E.
      pose proof (lex1_retail x rest (remove_control rest) t Hx0 E
                    (after_atom_outside _ AA)
                    (after_atom_outside _ (after_atom_remove_control _ AA)))
        as E'.
      rewrite Ex, remove_control_app, (token_text_remove_control x Hx Hs1).
      destruct x as [|a x]; [congruence|]. inversion Ex; subst a.
      cbn [app] in *. rewrite tokenize_token by exact J.
      rewrite E', (IH rest L ts' Hs2 T Sep2). reflexivity.
    + destruct (lex1_not_atom _ _ _ _ E A) as (P & -> & K).
      inversion Hs as [|? ? _ Hr]; subst.
      rewrite remove_control_cons, (punct_not_control c P).
      rewrite tokenize_token by exact J.
      rewrite K, (IH r L ts' Hr T Sep2). reflexivity.
Qed.

Lemma lstrip_keeps (P : char -> Prop) s : Forall P s -> Forall P (lstrip s).
Proof.
  induction 1 as [|c s Hc Hs IH]; [constructor|].
  simpl. destruct (is_space c); [exact IH|constructor; assumption].
Qed.

Lemma strip_keeps (P : char -> Prop) s : Forall P s -> Forall P (strip s).
Proof.
  intros H. unfold strip, rstrip.
  apply Forall_rev, lstrip_keeps, Forall_rev, lstrip_keeps, H.
Qed.

(** Stripping and sanitizing a response that parses and has no character
    from U+007F to U+009F gives a text with the same parse. *)
Lemma sanitize_keeps_parse content v :
  no_del_c1 content -> json_loads content = Ok v ->
  json_loads (sanitize_json_string (strip content)) = Ok v.
Proof.
  intros C H. unfold json_loads in H.
  destruct (tokenize content) as [ts|] eqn:T; [|discriminate].
  destruct (parse_tokens ts) as [v0|] eqn:P; [|discriminate].
  assert (Sep : separated ts).
  { unfold parse_tokens in P.
    destruct (run (PValue []) ts) as [st|] eqn:R; [|discriminate].
    exact (run_separated ts _ _ R). }
  pose proof (tokenize_remove_control (strip content) ts
                (strip_keeps _ _ C) (tokenize_strip _ _ T) Sep) as T'.
  unfold sanitize_json_string.
  rewrite (tokenize_sub_literals _ ts T').
  unfold json_loads. rewrite T', P. exact H.
Qed.

(** A response in the format of the guided prompt, right in every respect. *)
Definition response_consistent : str :=
  json_text
    "{'OriginalUserStory': {'Title': 'Login', 'Description': 'd', 'AcceptanceCriteria': ['a'], 'AdditionalInformation': ''},
      'ImprovedUserStory': {'Title': 'Login', 'Description': 'd', 'AcceptanceCriteria': ['a', 'b'], 'AdditionalInformation': ''},
      'Independent': {'score': 3, 'improved_score': 4, 'explanation': 'e', 'recommendation': 'r'},
      'Negotiable': {'score': 2, 'improved_score': 4, 'explanation': 'e', 'recommendation': 'r'},
      'Valuable': {'score': 3, 'improved_score': 5, 'explanation': 'e', 'recommendation': 'r'},
      'Estimable': {'score': 1, 'improved_score': 3, 'explanation': 'e', 'recommendation': 'r'},
      'Small': {'score': 3, 'improved_score': 4, 'explanation': 'e', 'recommendation': 'r'},
      'Testable': {'score': 3, 'improved_score': 4, 'explanation': 'e', 'recommendation': 'r'},
      'overall': {'input_score': 15, 'improved_score': 24, 'summary': 's', 'refinement_summary': '* clearer wording\nINVEST Score improved from 15/30 to 24/30'}}".

(** A response in the format of the baseline prompt, right in every
    respect. *)
Definition baseline_response_consistent : str :=
  json_text
    "{'OriginalUserStory': {'Title': 'Login', 'Description': 'd', 'AcceptanceCriteria': ['a'], 'AdditionalInformation': ''},
      'ImprovedUserStory': {'Title': 'Login', 'Description': 'd', 'AcceptanceCriteria': ['a', 'b'], 'AdditionalInformation': ''},
      'Independent': {'score': 3, 'explanation': 'e', 'recommendation': 'r'},
      'Negotiable': {'score': 2, 'explanation': 'e', 'recommendation': 'r'},
      'Valuable': {'score': 3, 'explanation': 'e', 'recommendation': 'r'},
      'Estimable': {'score': 1, 'explanation': 'e', 'recommendation': 'r'},
      'Small': {'score': 3, 'explanation': 'e', 'recommendation': 'r'},
      'Testable': {'score': 3, 'explanation': 'e', 'recommendation': 'r'},
      'overall': {'score': 15, 'improved_score': 24, 'summary': 's', 'refinement_summary': '* clearer wording\nINVEST Score improved from 15/30 to 24/30'}}".

(** The parse of a response as the model gave it. *)
Definition parse_of (content : str) : value :=
  match json_loads content with
  | Ok parsed => parsed
  | Raise _ => VNone
  end.

Definition consistent_parsed : value :=
  Eval vm_compute in parse_of response_consistent.

Definition baseline_consistent_parsed : value :=
  Eval vm_compute in parse_of baseline_response_consistent.

(** A right response with the character U+007F in its summary, which JSON
    allows in a string; it has the fields of both formats. *)
Definition response_with_del : str :=
  json_text
    "{'OriginalUserStory': {'Title': 'Login', 'Description': 'd', 'AcceptanceCriteria': ['a'], 'AdditionalInformation': ''},
      'ImprovedUserStory': {'Title': 'Login', 'Description': 'd', 'AcceptanceCriteria': ['a', 'b'], 'AdditionalInformation': ''},
      'Independent': {'score': 3, 'improved_score': 4, 'explanation': 'e', 'recommendation': 'r'},
      'Negotiable': {'score': 2, 'improved_score': 4, 'explanation': 'e', 'recommendation': 'r'},
      'Valuable': {'score': 3, 'improved_score': 5, 'explanation': 'e', 'recommendation': 'r'},
      'Estimable': {'score': 1, 'improved_score': 3, 'explanation': 'e', 'recommendation': 'r'},
      'Small': {'score': 3, 'improved_score': 4, 'explanation': 'e', 'recommendation': 'r'},
      'Testable': {'score': 3, 'improved_score': 4, 'explanation': 'e', 'recommendation': 'r'},
      'overall': {'score': 15, 'input_score': 15, 'improved_score': 24, 'summary': 'a"
  ++ [127%N]
  ++ json_text "b', 'refinement_summary': '* clearer wording'}}".

Definition del_parsed : value :=
  Eval vm_compute in parse_of response_with_del.

(** The same response as an editor would indent it, a tab at the head of
    each line. *)
Definition indented_with_tabs (s : str) : str :=
  flat_map (fun c => if N.eqb c newline then [newline; tab] else [c]) s.

Lemma no_del_c1_checked s :
  forallb (fun c => negb (between 127 159 c)) s = true -> no_del_c1 s.
Proof.
  intros H. rewrite forallb_forall in H. apply Forall_forall.
  intros c Hc. apply H in Hc.
  destruct (between 127 159 c); [discriminate|reflexivity].
Qed.

(** C7, as the code has it.  Take a response that [json.loads] accepts as it
    is and that has no character from U+007F to U+009F.  When its parse is
    consistent (the nine sections are there, the scores of the criteria are
    integers from 1 to 5 and the aggregates are integers that agree with
    them and are in range), each analyzer returns that parse: stripping,
    sanitizing, parsing and normalizing change nothing. *)
Theorem C7_consistent_response_unchanged :
  forall json_dumps chat_model user_story aspects_to_enhance additional_context
         input_score content parsed,
    no_del_c1 content ->
    json_loads content = Ok parsed ->
    (chat_model (create_analysis_prompt json_dumps user_story aspects_to_enhance
                   additional_context input_score) = Replied content ->
     guided_consistent parsed = true ->
     analyze_user_story json_dumps chat_model user_story aspects_to_enhance
       additional_context input_score = parsed)
    /\ (chat_model (Refinement.create_analysis_prompt json_dumps user_story)
        = Replied content ->
        baseline_consistent parsed = true ->
        Refinement.analyze_user_story json_dumps chat_model user_story = parsed).
Proof.
  intros jd cm us a ctx n content parsed Hfree Hparse.
  pose proof (sanitize_keeps_parse content parsed Hfree Hparse) as Hsan.
  split; intros Hreply Hcons.
  - unfold analyze_user_story, analysis_body. cbv zeta.
    rewrite Hreply, Hsan. cbn [bind].
    pose proof (guided_checks_fixed n parsed Hcons) as K. cbv zeta in K.
    rewrite K. reflexivity.
  - unfold Refinement.analyze_user_story, Refinement.analysis_body. cbv zeta.
    rewrite Hreply, Hsan. cbn [bind].
    rewrite (baseline_checks_fixed parsed Hcons). reflexivity.
Qed.

Lemma C7_witness :
  analyze_user_story no_dumps (answering response_consistent) sample_story
    [] [] 15 = consistent_parsed
  /\ Refinement.analyze_user_story no_dumps
       (answering (indented_with_tabs baseline_response_consistent))
       sample_story
     = baseline_consistent_parsed.
Proof.
  split.
  - apply (C7_consistent_response_unchanged no_dumps
             (answering response_consistent) sample_story [] [] 15
             response_consistent consistent_parsed).
    + apply no_del_c1_checked. vm_compute. reflexivity.
    + vm_compute. reflexivity.
    + reflexivity.
    + vm_compute. reflexivity.
  - apply (C7_consistent_response_unchanged no_dumps
             (answering (indented_with_tabs baseline_response_consistent))
             sample_story [] [] 15
             (indented_with_tabs baseline_response_consistent)
             baseline_consistent_parsed).
    + apply no_del_c1_checked. vm_compute. reflexivity.
    + vm_compute. reflexivity.
    + reflexivity.
    + vm_compute. reflexivity.
Defined.

(** C7 as stated fails for a right response that has one of the characters
    U+007F to U+009F in a text.  JSON allows them in a string, so the
    response parses and its parse is consistent for both analyzers; the
    sanitizer removes the character, and both analyzers return a summary
    that is one character shorter than the one of the parse. *)
Lemma C7_counterexample :
  let guided := analyze_user_story no_dumps (answering response_with_del)
                  sample_story [] [] 15 in
  let baseline := Refinement.analyze_user_story no_dumps
                    (answering response_with_del) sample_story in
  json_loads response_with_del = Ok del_parsed
  /\ guided_consistent del_parsed = true
  /\ baseline_consistent del_parsed = true
  /\ lookup del_parsed (lit "overall") (lit "summary")
     = Some (VStr [97; 127; 98]%N)
  /\ lookup guided (lit "overall") (lit "summary") = Some (VStr [97; 98]%N)
  /\ lookup baseline (lit "overall") (lit "summary") = Some (VStr [97; 98]%N)
  /\ guided <> del_parsed
  /\ baseline <> del_parsed.
Proof.
  repeat (split; [vm_compute; reflexivity|]).
  split; intros H;
    apply (f_equal (fun r => lookup r (lit "overall") (lit "summary"))) in H;
    vm_compute in H; discriminate H.
Qed.

(** * Further properties of the code *)

(** ** sanitize_json_string *)

(** A match of the literal pattern: the body, the closing quote and the
    rest make up the text, and the body is well escaped. *)
Lemma literal_body_inv s v rest :
  literal_body s = Some (v, rest) ->
  s = v ++ dquote :: rest /\ well_escaped v = true.
Proof.
  revert v rest. induction s as [s IH] using (well_founded_induction
    (Wf_nat.well_founded_ltof _ (@List.length char))).
  unfold Wf_nat.ltof in IH. intros v rest H.
  destruct s as [|c r]; [discriminate|]. cbn [literal_body] in H.
  destruct (N.eqb c dquote) eqn:Ec.
  - inversion H; subst. apply N.eqb_eq in Ec. subst c. split; reflexivity.
  - destruct (N.eqb c backslash) eqn:Eb.
    + destruct r as [|d r']; [discriminate|].
      destruct (N.eqb d newline) eqn:Ed; [discriminate|].
      destruct (literal_body r') as [[v' rest']|] eqn:E; [|discriminate].
      inversion H; subst. destruct (IH r') with (v := v') (rest := rest)
        as [-> W]; [simpl; lia|exact E|].
      split; [reflexivity|]. cbn [well_escaped]. rewrite Ec, Eb, Ed. exact W.
    + destruct (literal_body r) as [[v' rest']|] eqn:E; [|discriminate].
      inversion H; subst. destruct (IH r) with (v := v') (rest := rest)
        as [-> W]; [simpl; lia|exact E|].
      split; [reflexivity|]. cbn [well_escaped]. rewrite Ec, Eb. exact W.
Qed.

Lemma escaped_app a b : escaped (a ++ b) = escaped a ++ escaped b.
Proof. unfold escaped. rewrite !replace_char_app. reflexivity. Qed.

(** What the three replacements make of one character. *)
Definition escaped_char (c : char) : str :=
  if N.eqb c newline then lit "\n"
  else if N.eqb c tab then lit "\t"
  else if N.eqb c creturn then lit "\r"
  else [c].

Lemma escaped_one c : escaped [c] = escaped_char c.
Proof.
  unfold escaped, escaped_char, replace_char. cbn [flat_map].
  destruct (N.eqb c newline) eqn:En; [reflexivity|]. cbn [app flat_map].
  destruct (N.eqb c tab) eqn:Et; [reflexivity|]. cbn [app flat_map].
  destruct (N.eqb c creturn) eqn:Er; reflexivity.
Qed.

Lemma escaped_cons c v : escaped (c :: v) = escaped_char c ++ escaped v.
Proof.
  change (c :: v) with ([c] ++ v). rewrite escaped_app, escaped_one.
  reflexivity.
Qed.

Lemma well_escaped_escaped_char c w :
  N.eqb c dquote = false -> N.eqb c backslash = false ->
  well_escaped (escaped_char c ++ w) = well_escaped w.
Proof.
  intros Ec Eb. unfold escaped_char.
  destruct (N.eqb c newline); [reflexivity|].
  destruct (N.eqb c tab); [reflexivity|].
  destruct (N.eqb c creturn); [reflexivity|].
  cbn [app well_escaped]. rewrite Ec, Eb. reflexivity.
Qed.

Lemma well_escaped_escaped_pair d w :
  N.eqb d newline = false ->
  well_escaped (backslash :: escaped_char d ++ w) = well_escaped w.
Proof.
  intros Ed. unfold escaped_char. rewrite Ed.
  destruct (N.eqb d tab); [reflexivity|].
  destruct (N.eqb d creturn); [reflexivity|].
  cbn [app well_escaped]. rewrite Ed. reflexivity.
Qed.

(** The replacements keep a body well escaped. *)
Lemma well_escaped_escaped v :
  well_escaped v = true -> well_escaped (escaped v) = true.
Proof.
  induction v as [v IH] using (well_founded_induction
    (Wf_nat.well_founded_ltof _ (@List.length char))).
  unfold Wf_nat.ltof in IH. destruct v as [|c r]; intros H; [reflexivity|].
  cbn [well_escaped] in H. rewrite escaped_cons.
  destruct (N.eqb c dquote) eqn:Ec; [discriminate|].
  destruct (N.eqb c backslash) eqn:Eb.
  - apply N.eqb_eq in Eb. subst c.
    destruct r as [|d r']; [discriminate|]. apply andb_prop in H as [Hd Hr].
    rewrite escaped_cons. change (escaped_char backslash) with [backslash].
    cbn [app]. rewrite well_escaped_escaped_pair
      by (destruct (N.eqb d newline); [discriminate Hd|reflexivity]).
    apply IH; [simpl; lia|exact Hr].
  - rewrite (well_escaped_escaped_char c _ Ec Eb).
    apply IH; [simpl; lia|exact H].
Qed.

Lemma escaped_idempotent v : escaped (escaped v) = escaped v.
Proof.
  assert (A : forall c, c = newline \/ c = tab \/ c = creturn ->
                        ~ In c (escaped v)).
  { intros c Hc Hin. apply escaped_clean in Hin. tauto. }
  unfold escaped at 1.
  rewrite (replace_char_absent newline) by (apply A; auto).
  rewrite (replace_char_absent tab) by (apply A; auto).
  apply replace_char_absent. apply A. auto.
Qed.

(** Where the pattern finds no literal, it finds none after the second
    pass either. *)
Lemma literal_body_none_sub_literals r :
  literal_body r = None -> literal_body (sub_literals r) = None.
Proof.
  induction r as [r IH] using (well_founded_induction
    (Wf_nat.well_founded_ltof _ (@List.length char))).
  unfold Wf_nat.ltof in IH. intros H.
  destruct r as [|d r']; [reflexivity|]. cbn [literal_body] in H.
  destruct (N.eqb d dquote) eqn:Ed; [discriminate|].
  rewrite sub_literals_nomatch by (simpl; rewrite Ed; reflexivity).
  cbn [literal_body]. rewrite Ed.
  destruct (N.eqb d backslash) eqn:Eb.
  - destruct r' as [|e r'']; [reflexivity|].
    assert (S : exists w, sub_literals (e :: r'') = e :: w
                          /\ (N.eqb e newline = false ->
                              literal_body r'' = None ->
                              literal_body w = None)).
    { destruct (match_literal (e :: r'')) as [[v rest]|] eqn:M.
      - simpl in M. destruct (N.eqb e dquote) eqn:Q; [|discriminate].
        rewrite (sub_literals_match e r'' v rest)
          by (simpl; rewrite Q; exact M).
        rewrite clean_string_value_escaped. apply N.eqb_eq in Q. subst e.
        eexists. split; [reflexivity|]. intros _ N. congruence.
      - rewrite (sub_literals_nomatch e r'' M). eexists.
        split; [reflexivity|]. intros _ N. apply IH; [simpl; lia|exact N]. }
    destruct S as (w & -> & Hw).
    destruct (N.eqb e newline) eqn:En; [reflexivity|].
    destruct (literal_body r'') as [[v rest]|] eqn:L; [discriminate|].
    rewrite (Hw eq_refl eq_refl). reflexivity.
  - destruct (literal_body r') as [[v rest]|] eqn:L; [discriminate|].
    rewrite (IH r') by (simpl; lia || exact L). reflexivity.
Qed.

(** The second pass changes nothing in its own result. *)
Lemma sub_literals_idempotent t : sub_literals (sub_literals t) = sub_literals t.
Proof.
  induction t as [t IH] using (well_founded_induction
    (Wf_nat.well_founded_ltof _ (@List.length char))).
  unfold Wf_nat.ltof in IH. destruct t as [|c r]; [reflexivity|].
  destruct (match_literal (c :: r)) as [[v rest]|] eqn:M.
  - rewrite (sub_literals_match c r v rest M).
    pose proof (match_literal_shorter _ M) as L.
    simpl in M. destruct (N.eqb c dquote); [|discriminate].
    apply literal_body_inv in M as [_ W].
    rewrite clean_string_value_escaped. cbn [app]. rewrite <- app_assoc.
    cbn [app].
    rewrite (sub_literals_match dquote _ (escaped v) (sub_literals rest))
      by (simpl; apply literal_body_well_escaped, well_escaped_escaped, W).
    rewrite clean_string_value_escaped, escaped_idempotent, (IH rest L).
    cbn [app]. rewrite <- app_assoc. reflexivity.
  - rewrite (sub_literals_nomatch c r M).
    rewrite sub_literals_nomatch.
    + rewrite (IH r) by (simpl; lia). reflexivity.
    + simpl in *. destruct (N.eqb c dquote); [|reflexivity].
      apply literal_body_none_sub_literals, M.
Qed.

Lemma remove_control_is_free s : control_free (remove_control s).
Proof.
  unfold control_free, remove_control. apply Forall_forall. intros c Hc.
  apply filter_In in Hc as [_ Hc]. destruct (is_control c); [discriminate|reflexivity].
Qed.

Lemma escaped_control_free v : control_free v -> control_free (escaped v).
Proof.
  induction 1 as [|c v Hc _ IH]; [constructor|].
  rewrite escaped_cons. apply Forall_app. split; [|exact IH].
  unfold escaped_char.
  destruct (N.eqb c newline); [repeat constructor|].
  destruct (N.eqb c tab); [repeat constructor|].
  destruct (N.eqb c creturn); [repeat constructor|].
  constructor; [exact Hc|constructor].
Qed.

Lemma sub_literals_control_free t : control_free t -> control_free (sub_literals t).
Proof.
  induction t as [t IH] using (well_founded_induction
    (Wf_nat.well_founded_ltof _ (@List.length char))).
  unfold Wf_nat.ltof in IH. destruct t as [|c r]; intros H; [constructor|].
  destruct (match_literal (c :: r)) as [[v rest]|] eqn:M.
  - rewrite (sub_literals_match c r v rest M).
    pose proof (match_literal_shorter _ M) as L.
    simpl in M. destruct (N.eqb c dquote); [|discriminate].
    apply literal_body_inv in M as [E _].
    inversion H as [|? ? Hc Hr]; subst.
    apply Forall_app in Hr as [Hv Hrest]. inversion Hrest as [|? ? _ Hrest']; subst.
    rewrite clean_string_value_escaped.
    constructor; [reflexivity|]. apply Forall_app. split.
    + apply Forall_app. split; [apply escaped_control_free, Hv|].
      constructor; [reflexivity|constructor].
    + apply IH; [exact L|exact Hrest'].
  - rewrite (sub_literals_nomatch c r M). inversion H as [|? ? Hc Hr]; subst.
    constructor; [exact Hc|]. apply IH; [simpl; lia|exact Hr].
Qed.

Lemma escaped_absent v :
  ~ In newline v -> ~ In tab v -> ~ In creturn v -> escaped v = v.
Proof.
  intros Hn Ht Hr. unfold escaped.
  rewrite (replace_char_absent newline _ v Hn).
  rewrite (replace_char_absent tab _ v Ht).
  apply replace_char_absent. exact Hr.
Qed.

Lemma sub_literals_fixed t :
  ~ In newline t -> ~ In tab t -> ~ In creturn t -> sub_literals t = t.
Proof.
  induction t as [t IH] using (well_founded_induction
    (Wf_nat.well_founded_ltof _ (@List.length char))).
  unfold Wf_nat.ltof in IH. destruct t as [|c r]; intros Hn Ht Hr; [reflexivity|].
  destruct (match_literal (c :: r)) as [[v rest]|] eqn:M.
  - rewrite (sub_literals_match c r v rest M).
    pose proof (match_literal_shorter _ M) as L.
    simpl in M. destruct (N.eqb c dquote) eqn:Q; [|discriminate].
    apply N.eqb_eq in Q. subst c.
    apply literal_body_inv in M as [-> _].
    assert (A : forall x, In x v -> In x (dquote :: v ++ dquote :: rest))
      by (intros x Hx; right; apply in_or_app; left; exact Hx).
    assert (B : forall x, In x rest -> In x (dquote :: v ++ dquote :: rest))
      by (intros x Hx; right; apply in_or_app; right; right; exact Hx).
    rewrite clean_string_value_escaped, escaped_absent by (intros K; auto).
    rewrite (IH rest L) by (intros K; auto).
    cbn [app]. rewrite <- app_assoc. reflexivity.
  - rewrite (sub_literals_nomatch c r M).
    rewrite (IH r) by (simpl; (lia || (intros K; simpl in *; tauto))).
    reflexivity.
Qed.

(** X1.  The result of [sanitize_json_string] has no character of the class
    that its first pass removes, whatever the input; and such a character
    in the input, wherever it stands, also inside a string literal, has no
    effect on the result: a tab in a literal is removed by the first pass,
    so the replacement of the tab by backslash and [t] in the second pass
    never finds one. *)
Theorem sanitize_drops_control_characters :
  forall s,
    control_free (sanitize_json_string s)
    /\ (forall a c b, s = a ++ c :: b -> is_control c = true ->
          sanitize_json_string s = sanitize_json_string (a ++ b)).
Proof.
  intros s. split.
  - unfold sanitize_json_string.
    apply sub_literals_control_free, remove_control_is_free.
  - intros a c b -> Hc. unfold sanitize_json_string.
    rewrite !remove_control_app, remove_control_cons, Hc. reflexivity.
Qed.

(** X2.  [sanitize_json_string] is idempotent: sanitizing a sanitized text
    changes nothing. *)
Theorem sanitize_idempotent :
  forall s,
    sanitize_json_string (sanitize_json_string s) = sanitize_json_string s.
Proof.
  intros s. unfold sanitize_json_string.
  rewrite (remove_control_free (sub_literals (remove_control s)))
    by apply sub_literals_control_free, remove_control_is_free.
  apply sub_literals_idempotent.
Qed.

(** X3.  A text with no character of the removed class and with no newline
    and no carriage return is returned as it is. *)
Theorem sanitize_fixed_point :
  forall s,
    control_free s -> ~ In newline s -> ~ In creturn s ->
    sanitize_json_string s = s.
Proof.
  intros s Hc Hn Hr. unfold sanitize_json_string.
  rewrite (remove_control_free s Hc).
  apply sub_literals_fixed; [exact Hn| |exact Hr].
  intros Ht. unfold control_free in Hc. rewrite Forall_forall in Hc.
  apply Hc in Ht. discriminate Ht.
Qed.

Definition compact_object : str := json_text "{'a': 'b\\nc', 'n': [1, 2.5e3, null]}".

Lemma sanitize_fixed_point_witness :
  sanitize_json_string compact_object = compact_object.
Proof.
  apply (sanitize_fixed_point compact_object).
  - apply Forall_forall. intros c Hc. vm_compute in Hc.
    repeat (destruct Hc as [<-|Hc]; [reflexivity|]). destruct Hc.
  - intros H. vm_compute in H. repeat (destruct H as [H|H]; [discriminate H|]).
    exact H.
  - intros H. vm_compute in H. repeat (destruct H as [H|H]; [discriminate H|]).
    exact H.
Defined.

(** ** The guided preprocess_input *)

Definition story_fields : list str :=
  map lit ["Title"; "Description"; "AcceptanceCriteria";
           "AdditionalInformation"]%string.

(** The loop over the required fields returns when each of them is [in]
    the story, and leaves the story as it is. *)
Lemma require_fields_ok names us x :
  for_each names require_field us = Ok x ->
  x = us /\ forall f, In f names -> py_in f us = Ok true.
Proof.
  revert x. induction names as [|f names IH]; intros x H; simpl in H.
  - inversion H. split; [reflexivity|intros f []].
  - inv_bind H. rename a into y.
    unfold require_field in Ha. inv_bind Ha. rename a into present.
    destruct present; cbn [negb] in Ha; [|discriminate].
    inversion Ha; subst y. destruct (IH _ H) as [-> K].
    split; [reflexivity|]. intros g [<-|Hg]; [exact Ha0|exact (K g Hg)].
Qed.

Lemma or_placeholder_not_empty s p : p <> [] -> or_placeholder s p <> [].
Proof. destruct s; simpl; [trivial|discriminate]. Qed.

(** The [try] block of [preprocess_input], when it returns. *)
Lemma preprocess_body_ok data us a c n :
  preprocess_body data = Ok (us, a, c, n) ->
  py_getitem data (lit "UserStory") = Ok us
  /\ (forall f, In f story_fields -> py_in f us = Ok true)
  /\ a <> [] /\ c <> [] /\ (0 <= n <= 30)%Z.
Proof.
  intros B. unfold preprocess_body in B.
  inv_bind B. destruct a0; cbn [negb] in B; [|discriminate].
  inv_bind B. rename a0 into story, Ha0 into Hstory.
  inv_bind B. rename a0 into checked, Ha0 into Hfields.
  inv_bind B. rename a0 into a_hint.
  inv_bind B. rename a0 into c_hint.
  inv_bind B. rename a0 into score. inv_bind B. rename a0 into k.
  inversion B; subst. clear B.
  apply require_fields_ok in Hfields as [_ Hfields].
  split; [exact Hstory|]. split; [exact Hfields|].
  split; [apply or_placeholder_not_empty; discriminate|].
  split; [apply or_placeholder_not_empty; discriminate|lia].
Qed.

(** X4.  What the guided [preprocess_input] returns, when it returns: the
    story is the [UserStory] entry of the parsed input and each of the four
    field names is [in] it; the two hints are texts that are not empty; and
    the score is within 0 and 30. *)
Theorem preprocess_input_returns :
  forall user_input user_story aspects context input_score,
    preprocess_input user_input
    = Ok (user_story, aspects, context, input_score) ->
    exists data,
      json_loads user_input = Ok data
      /\ py_getitem data (lit "UserStory") = Ok user_story
      /\ (forall f, In f story_fields -> py_in f user_story = Ok true)
      /\ aspects <> [] /\ context <> []
      /\ (0 <= input_score <= 30)%Z.
Proof.
  intros s us a c n H. unfold preprocess_input in H.
  destruct (json_loads s) as [data|e0]; [|discriminate].
  destruct (preprocess_body data) as [res|e] eqn:B; [|discriminate].
  inversion H; subst res. exists data. split; [reflexivity|].
  apply preprocess_body_ok. exact B.
Qed.

Lemma preprocess_input_returns_witness :
  exists data,
    json_loads envelope_without_hints = Ok data
    /\ py_getitem data (lit "UserStory") = Ok envelope_story
    /\ (forall f, In f story_fields -> py_in f envelope_story = Ok true)
    /\ no_aspects <> [] /\ no_context <> []
    /\ (0 <= 14 <= 30)%Z.
Proof.
  apply (preprocess_input_returns envelope_without_hints envelope_story
           no_aspects no_context 14).
  vm_compute. reflexivity.
Defined.



Lemma require_fields_first_missing sd pre f post :
  (forall g, In g pre -> dict_mem sd g = true) -> dict_mem sd f = false ->
  for_each (pre ++ f :: post) require_field (VDict sd)
  = Raise (Exn ValueError (lit "UserStory must contain the field: " ++ f)).
Proof.
  intros Hpre Hf. induction pre as [|g pre IH]; cbn [app for_each].
  - unfold require_field. cbn [py_in bind]. rewrite Hf. reflexivity.
  - unfold require_field at 1. cbn [py_in bind].
    rewrite (Hpre g (or_introl eq_refl)). cbn [negb bind].
    apply IH. intros h Hh. apply Hpre. right. exact Hh.
Qed.

(** X6.  When the [UserStory] of the input is an object that lacks one of
    the four fields, the guided [preprocess_input] raises a [ValueError]
    that names the first of them, in the order Title, Description,
    AcceptanceCriteria, AdditionalInformation, that is missing. *)
Theorem preprocess_input_names_first_missing_field :
  forall user_input d sd pre f post,
    json_loads user_input = Ok (VDict d) ->
    dict_get d (lit "UserStory") = Some (VDict sd) ->
    story_fields = pre ++ f :: post ->
    (forall g, In g pre -> dict_mem sd g = true) ->
    dict_mem sd f = false ->
    preprocess_input user_input
    = Raise (Exn ValueError
               (lit "Error processing input: UserStory must contain the field: "
                ++ f)).
Proof.
  intros s d sd pre f post Hd Hs Hsplit Hpre Hf.
  unfold preprocess_input. rewrite Hd.
  unfold preprocess_body. cbn [py_in bind]. unfold dict_mem at 1.
  rewrite Hs. cbn [negb]. cbn [py_getitem]. rewrite Hs. cbn [bind].
  fold story_fields. rewrite Hsplit.
  rewrite (require_fields_first_missing sd pre f post Hpre Hf).
  cbn [bind exn_str]. reflexivity.
Qed.

(** An envelope whose story has no description and no acceptance
    criteria. *)
Definition envelope_short_story : str :=
  json_text
    "{'UserStory': {'Title': 'Login', 'AdditionalInformation': ''},
      'aspects_to_enhance': 'clarity'}".

Lemma preprocess_input_names_first_missing_field_witness :
  preprocess_input envelope_short_story
  = Raise (Exn ValueError
             (lit "Error processing input: UserStory must contain the field: "
              ++ lit "Description")).
Proof.
  apply (preprocess_input_names_first_missing_field envelope_short_story
           [(lit "UserStory",
             VDict [(lit "Title", VStr (lit "Login"));
                    (lit "AdditionalInformation", VStr [])]);
            (lit "aspects_to_enhance", VStr (lit "clarity"))]
           [(lit "Title", VStr (lit "Login"));
            (lit "AdditionalInformation", VStr [])]
           [lit "Title"] (lit "Description")
           [lit "AcceptanceCriteria"; lit "AdditionalInformation"]).
  - vm_compute. reflexivity.
  - vm_compute. reflexivity.
  - reflexivity.
  - intros g [<-|[]]. vm_compute. reflexivity.
  - vm_compute. reflexivity.
Defined.

(** X7.  The guided pipeline, [preprocess_input] then [analyze_user_story]:
    whatever input [preprocess_input] accepts and whatever the model does,
    the [overall.input_score] and the [overall.improved_score] of the
    result are integers within 0 and 30, in an error result too. *)
Theorem guided_pipeline_scores_in_range :
  forall json_dumps chat_model user_input user_story aspects context
         input_score,
    preprocess_input user_input
    = Ok (user_story, aspects, context, input_score) ->
    let r := analyze_user_story json_dumps chat_model user_story aspects
               context input_score in
    exists a b,
      get_field r (lit "overall") (lit "input_score") = Ok (VInt a)
      /\ get_field r (lit "overall") (lit "improved_score") = Ok (VInt b)
      /\ (0 <= a <= 30)%Z /\ (0 <= b <= 30)%Z.
Proof.
  intros jd cm s us a c n H r. subst r.
  assert (Hn : (0 <= n <= 30)%Z).
  { unfold preprocess_input in H.
    destruct (json_loads s) as [data|e0]; [|discriminate].
    destruct (preprocess_body data) as [res|e] eqn:B; [|discriminate].
    inversion H; subst res. apply preprocess_body_ok in B. tauto. }
  unfold analyze_user_story.
  destruct (analysis_body jd cm us a c n) as [r|e] eqn:E.
  - apply (proj1 (overall_ranges jd cm us a c n) r E).
  - exists n, 0%Z. split; [reflexivity|]. split; [reflexivity|]. lia.
Qed.

Lemma guided_pipeline_scores_in_range_witness :
  let r := analyze_user_story no_dumps (answering response_consistent)
             envelope_story no_aspects no_context 14 in
  exists a b,
    get_field r (lit "overall") (lit "input_score") = Ok (VInt a)
    /\ get_field r (lit "overall") (lit "improved_score") = Ok (VInt b)
    /\ (0 <= a <= 30)%Z /\ (0 <= b <= 30)%Z.
Proof.
  apply (guided_pipeline_scores_in_range no_dumps
           (answering response_consistent) envelope_without_hints
           envelope_story no_aspects no_context 14).
  vm_compute. reflexivity.
Defined.

(** ** What the analyzers leave as the model gave it *)

Lemma maybe_set_lookup (b : bool) r s f v r' g :
  (if b then set_field r s f v else Ok r) = Ok r' -> g <> f ->
  lookup r' s g = lookup r s g.
Proof.
  destruct b; intros H Hg.
  - eapply lookup_set_other_field; eassumption.
  - inversion H. reflexivity.
Qed.

(** A successful guided run, from the sections as the second loop left
    them: the rest of the run works on [overall] only, and there on three
    fields only. *)
Lemma guided_run_frame jd cm us a c n r content parsed :
  cm (create_analysis_prompt jd us a c n) = Replied content ->
  json_loads (sanitize_json_string (strip content)) = Ok parsed ->
  analysis_body jd cm us a c n = Ok r ->
  exists r1 r2,
    for_each required_sections (fill_section n) parsed = Ok r1
    /\ for_each criteria validate_criterion r1 = Ok r2
    /\ only_overall r2 r
    /\ forall f, f <> lit "input_score" -> f <> lit "improved_score" ->
                 f <> lit "refinement_summary" ->
                 lookup r (lit "overall") f = lookup r2 (lit "overall") f.
Proof.
  intros Hreply0 Hparse0 Hbody.
  destruct (GuidedFacts.analysis_body_run _ _ _ _ _ _ _ Hbody).
  rewrite Hreply0 in Hreply. inversion Hreply; subst content0. clear Hreply.
  rewrite Hparse0 in Hparse. inversion Hparse; subst parsed0. clear Hparse.
  exists r1, r2. split; [exact Hfill|]. split; [exact Hvalid|].
  pose proof (GuidedFacts.maybe_set_only_overall _ _ _ _ _ Hin0) as (O23 & _).
  pose proof (set_overall_only _ _ _ _ Hin) as O34.
  pose proof (GuidedFacts.maybe_set_only_overall _ _ _ _ _ Himp0) as (O45 & _).
  pose proof (set_overall_only _ _ _ _ Himp) as O56.
  assert (O26 : only_overall r2 r6).
  { eapply only_overall_trans; [exact O23|].
    eapply only_overall_trans; [exact O34|].
    eapply only_overall_trans; [exact O45|exact O56]. }
  assert (L26 : forall f, f <> lit "input_score" -> f <> lit "improved_score" ->
                  lookup r6 (lit "overall") f = lookup r2 (lit "overall") f).
  { intros f F1 F2.
    rewrite (lookup_set_other_field _ _ _ _ _ f Himp F2).
    rewrite (maybe_set_lookup _ _ _ _ _ _ f Himp0 F2).
    rewrite (lookup_set_other_field _ _ _ _ _ f Hin F1).
    apply (maybe_set_lookup _ _ _ _ _ _ f Hin0 F1). }
  destruct (Z.eqb (GuidedFacts.clamp 0 30 n2) calculated).
  - subst r. split; [exact O26|]. intros f F1 F2 _. apply L26; assumption.
  - destruct Hend as (r7 & current & updated & H7 & _ & _ & Hr). split.
    + eapply only_overall_trans; [exact O26|].
      eapply only_overall_trans; eapply set_overall_only; eassumption.
    + intros f F1 F2 F3.
      rewrite (lookup_set_other_field _ _ _ _ _ f Hr F3).
      rewrite (lookup_set_other_field _ _ _ _ _ f H7 F2).
      apply L26; assumption.
Qed.

Lemma baseline_run_frame jd cm us r content parsed :
  cm (Refinement.create_analysis_prompt jd us) = Replied content ->
  json_loads (sanitize_json_string (strip content)) = Ok parsed ->
  Refinement.analysis_body jd cm us = Ok r ->
  exists r1 r2,
    for_each required_sections Refinement.fill_section parsed = Ok r1
    /\ for_each criteria Refinement.validate_criterion r1 = Ok r2
    /\ only_overall r2 r
    /\ forall f, f <> lit "score" -> f <> lit "improved_score" ->
                 lookup r (lit "overall") f = lookup r2 (lit "overall") f.
Proof.
  intros Hreply0 Hparse0 Hbody.
  destruct (BaselineFacts.baseline_body_run _ _ _ _ Hbody).
  rewrite Hreply0 in Hreply. inversion Hreply; subst content0. clear Hreply.
  rewrite Hparse0 in Hparse. inversion Hparse; subst parsed0. clear Hparse.
  exists r1, r2. split; [exact Hfill|]. split; [exact Hvalid|]. split.
  - eapply only_overall_trans; eapply set_overall_only; eassumption.
  - intros f F1 F2.
    rewrite (lookup_set_other_field _ _ _ _ _ f Himp F2).
    apply (lookup_set_other_field _ _ _ _ _ f Hscore F1).
Qed.

(** The second loop of the guided analyzer changes [score] and
    [improved_score] only. *)
Lemma guided_validate_loop_fields r1 r2 c f :
  for_each criteria validate_criterion r1 = Ok r2 ->
  f <> lit "score" -> f <> lit "improved_score" ->
  lookup r2 c f = lookup r1 c f.
Proof.
  intros H F1 F2. revert r1 r2 H. generalize criteria.
  induction l as [|x l IH]; intros r1 r2 H; simpl in H.
  - inversion H. reflexivity.
  - inv_bind H. rename a into rm. rewrite (IH _ _ H).
    unfold validate_criterion in Ha. inv_bind Ha. rename a into rs.
    apply GuidedFacts.validate_score_sets in Ha as (k2 & _ & S2).
    apply GuidedFacts.validate_score_sets in Ha0 as (k1 & _ & S1).
    assert (K : forall ra rb g k, set_field ra x g (VInt k) = Ok rb -> f <> g ->
                                  lookup rb c f = lookup ra c f).
    { intros ra rb g k S Hg. destruct (str_eqb c x) eqn:E.
      - apply str_eqb_eq in E. subst c.
        eapply lookup_set_other_field; eassumption.
      - apply lookup_same_section. eapply getitem_set_field_other;
          [eassumption|]. intros ->. rewrite str_eqb_refl in E. discriminate E. }
    rewrite (K _ _ _ _ S2 F2). apply (K _ _ _ _ S1 F1).
Qed.

Lemma baseline_validate_loop_fields r1 r2 c f :
  for_each criteria Refinement.validate_criterion r1 = Ok r2 ->
  f <> lit "score" -> lookup r2 c f = lookup r1 c f.
Proof.
  intros H F1. revert r1 r2 H. generalize criteria.
  induction l as [|x l IH]; intros r1 r2 H; simpl in H.
  - inversion H. reflexivity.
  - inv_bind H. rename a into rm. rewrite (IH _ _ H).
    apply BaselineFacts.baseline_validate_sets in Ha as (k & _ & S).
    destruct (str_eqb c x) eqn:E.
    + apply str_eqb_eq in E. subst c.
      eapply lookup_set_other_field; eassumption.
    + apply lookup_same_section. eapply getitem_set_field_other;
        [eassumption|]. intros ->. rewrite str_eqb_refl in E. discriminate E.
Qed.

(** X8.  What a normal result keeps of the response.  A section that is
    neither a criterion nor [overall] (the two stories, and any section
    that the prompt did not ask for) is returned as the model gave it,
    unchecked.  In a criterion section every field but [score] (and
    [improved_score] in the guided variant) is returned as given, and so is
    in [overall] every field but [input_score], [improved_score] and
    [refinement_summary] (guided) or [score] and [improved_score]
    (baseline): the baseline analyzer never touches a summary. *)
Theorem analyzers_keep_the_rest :
  forall json_dumps chat_model user_story aspects_to_enhance additional_context
         input_score content parsed,
    json_loads (sanitize_json_string (strip content)) = Ok parsed ->
    (chat_model (create_analysis_prompt json_dumps user_story aspects_to_enhance
                   additional_context input_score) = Replied content ->
     forall r,
       analysis_body json_dumps chat_model user_story aspects_to_enhance
         additional_context input_score = Ok r ->
       (forall s sec, ~ In s criteria -> s <> lit "overall" ->
          py_getitem parsed s = Ok sec -> py_getitem r s = Ok sec)
       /\ (forall c f v, In c criteria ->
             f <> lit "score" -> f <> lit "improved_score" ->
             lookup parsed c f = Some v -> lookup r c f = Some v)
       /\ (forall f v,
             f <> lit "input_score" -> f <> lit "improved_score" ->
             f <> lit "refinement_summary" ->
             lookup parsed (lit "overall") f = Some v ->
             lookup r (lit "overall") f = Some v))
    /\ (chat_model (Refinement.create_analysis_prompt json_dumps user_story)
        = Replied content ->
        forall r,
          Refinement.analysis_body json_dumps chat_model user_story = Ok r ->
          (forall s sec, ~ In s criteria -> s <> lit "overall" ->
             py_getitem parsed s = Ok sec -> py_getitem r s = Ok sec)
          /\ (forall c f v, In c criteria -> f <> lit "score" ->
                lookup parsed c f = Some v -> lookup r c f = Some v)
          /\ (forall f v,
                f <> lit "score" -> f <> lit "improved_score" ->
                lookup parsed (lit "overall") f = Some v ->
                lookup r (lit "overall") f = Some v)).
Proof.
  intros jd cm us a ctx n content parsed Hparse. split; intros Hreply r Hbody.
  - destruct (guided_run_frame _ _ _ _ _ _ _ _ _ Hreply Hparse Hbody)
      as (r1 & r2 & Hfill & Hvalid & Only & Lov).
    assert (Kept : forall s f v, lookup parsed s f = Some v ->
                     lookup r1 s f = Some v).
    { intros s f v L. destruct (lookup_section _ _ _ _ L) as (sd & E).
      rewrite <- L. apply lookup_same_section.
      rewrite (fill_loop_keeps _ _ _ _ _ Hfill E). symmetry. exact E. }
    split; [|split].
    + intros s sec Hs Ho E. rewrite (Only s Ho).
      rewrite (validate_loop_keeps _ _ _ Hvalid Hs).
      apply (fill_loop_keeps _ _ _ _ _ Hfill E).
    + intros c f v Hc F1 F2 L.
      rewrite (lookup_same_section r2 r c f (Only c (criteria_not_overall c Hc))).
      rewrite (guided_validate_loop_fields _ _ c f Hvalid F1 F2).
      apply Kept, L.
    + intros f v F1 F2 F3 L. rewrite (Lov f F1 F2 F3).
      rewrite (lookup_same_section r1 r2 _ f
                 (validate_loop_keeps _ _ _ Hvalid overall_not_criterion)).
      apply Kept, L.
  - destruct (baseline_run_frame _ _ _ _ _ _ Hreply Hparse Hbody)
      as (r1 & r2 & Hfill & Hvalid & Only & Lov).
    assert (Frame : forall s, ~ In s criteria ->
                      py_getitem r2 s = py_getitem r1 s).
    { intros s Hs.
      destruct (for_each_once Refinement.validate_criterion criteria
                  (fun r0 x r0' H y Hy => baseline_validate_frame r0 x r0' y H Hy)
                  criteria_nodup _ _ Hvalid) as [F _].
      apply F, Hs. }
    assert (Kept : forall s f v, lookup parsed s f = Some v ->
                     lookup r1 s f = Some v).
    { intros s f v L. destruct (lookup_section _ _ _ _ L) as (sd & E).
      rewrite <- L. apply lookup_same_section.
      rewrite (baseline_fill_keeps _ _ _ _ Hfill E). symmetry. exact E. }
    split; [|split].
    + intros s sec Hs Ho E. rewrite (Only s Ho), (Frame s Hs).
      apply (baseline_fill_keeps _ _ _ _ Hfill E).
    + intros c f v Hc F1 L.
      rewrite (lookup_same_section r2 r c f (Only c (criteria_not_overall c Hc))).
      rewrite (baseline_validate_loop_fields _ _ c f Hvalid F1).
      apply Kept, L.
    + intros f v F1 F2 L. rewrite (Lov f F1 F2).
      rewrite (lookup_same_section r1 r2 _ f (Frame _ overall_not_criterion)).
      apply Kept, L.
Qed.

Lemma analyzers_keep_the_rest_witness :
  py_getitem stale_result (lit "ImprovedUserStory")
  = py_getitem stale_parsed (lit "ImprovedUserStory")
  /\ lookup stale_result (lit "Small") (lit "explanation")
     = Some (VStr (lit "e"))
  /\ lookup stale_result (lit "overall") (lit "summary") = Some (VStr (lit "s")).
Proof.
  destruct (analyzers_keep_the_rest no_dumps (answering response_stale_total)
              sample_story [] [] 15 response_stale_total stale_parsed)
    as [G _]; [vm_compute; reflexivity|].
  destruct (G eq_refl stale_result) as (A & B & C); [vm_compute; reflexivity|].
  split; [|split].
  - apply A.
    + intros H. vm_compute in H.
      repeat (destruct H as [H|H]; [discriminate H|]). exact H.
    + discriminate.
    + vm_compute. reflexivity.
  - apply B.
    + right. right. right. right. left. reflexivity.
    + discriminate.
    + discriminate.
    + vm_compute. reflexivity.
  - apply C; try discriminate. vm_compute. reflexivity.
Defined.

Lemma missing_or_not_number_absent r s f sd :
  py_getitem r s = Ok (VDict sd) -> dict_get sd f = None ->
  missing_or_not_number r s f = Ok true.
Proof.
  intros E N. unfold missing_or_not_number. rewrite E. simpl.
  unfold dict_mem. rewrite N. reflexivity.
Qed.

(** X9.  When the guided analyzer does not rewrite the summary.  Let the
    response have an [overall] section.  If that section has no
    [improved_score], or one that is not a number, the sum of the improved
    scores is stored without a word; and if it has a number whose integer
    part, clamped into 0 to 30, is the total of the result, nothing was
    wrong.  In the three cases the [refinement_summary] of the result is
    the one of the response, absent if it was absent, also when its text
    states other totals. *)
Theorem guided_agreement_keeps_summary :
  forall json_dumps chat_model user_story aspects_to_enhance additional_context
         input_score content parsed r section,
    chat_model (create_analysis_prompt json_dumps user_story aspects_to_enhance
                  additional_context input_score) = Replied content ->
    json_loads (sanitize_json_string (strip content)) = Ok parsed ->
    analysis_body json_dumps chat_model user_story aspects_to_enhance
      additional_context input_score = Ok r ->
    py_getitem parsed (lit "overall") = Ok section ->
    (lookup parsed (lit "overall") (lit "improved_score") = None
     \/ (exists v, lookup parsed (lit "overall") (lit "improved_score") = Some v
                   /\ is_number v = false)
     \/ (exists v k,
            lookup parsed (lit "overall") (lit "improved_score") = Some v
            /\ is_number v = true /\ py_int v = Ok k
            /\ get_field r (lit "overall") (lit "improved_score")
               = Ok (VInt (Z.max 0 (Z.min 30 k))))) ->
    lookup r (lit "overall") (lit "refinement_summary")
    = lookup parsed (lit "overall") (lit "refinement_summary").
Proof.
  intros jd cm us a c n content parsed r sec Hreply0 Hparse0 Hbody Hsec Hcase.
  destruct (GuidedFacts.analysis_body_run _ _ _ _ _ _ _ Hbody).
  rewrite Hreply0 in Hreply. inversion Hreply; subst content0. clear Hreply.
  rewrite Hparse0 in Hparse. inversion Hparse; subst parsed0. clear Hparse.
  (* the total is within 0 and 30 *)
  pose proof (GuidedFacts.validate_loop_scored _ _ Hvalid) as Hsc.
  destruct (GuidedFacts.scores_of_scored r2 (lit "improved_score"))
    as (ns & Fi); [intros x Hx; apply (Hsc x Hx)|].
  pose proof (sum_fields_value _ _ _ _ _ Fi Hsum) as Ecalc.
  pose proof (total_bounds _ (scores_of_valid _ _ _ Fi)) as B.
  rewrite (scores_of_length _ _ _ Fi) in B.
  change (Z.of_nat (List.length criteria)) with 6%Z in B.
  rewrite <- Ecalc in B. clear Ecalc Fi ns Hsc.
  (* the overall section of the response reaches its validation *)
  pose proof (fill_loop_keeps _ _ _ _ _ Hfill Hsec) as Hov1.
  pose proof (validate_loop_keeps _ _ _ Hvalid overall_not_criterion) as Hov2.
  rewrite Hov1 in Hov2.
  assert (L2 : forall f, lookup r2 (lit "overall") f
                         = lookup parsed (lit "overall") f).
  { intros f. apply lookup_same_section. congruence. }
  assert (L4 : forall f, f <> lit "input_score" ->
             lookup r4 (lit "overall") f = lookup parsed (lit "overall") f).
  { intros f Hf. rewrite <- L2.
    rewrite (lookup_set_other_field _ _ _ _ _ f Hin Hf).
    apply (maybe_set_lookup _ _ _ _ _ _ f Hin0 Hf). }
  assert (L6 : lookup r6 (lit "overall") (lit "refinement_summary")
               = lookup parsed (lit "overall") (lit "refinement_summary")).
  { rewrite (lookup_set_other_field _ _ _ _ _ (lit "refinement_summary") Himp)
      by neq_lit.
    rewrite (maybe_set_lookup _ _ _ _ _ _ (lit "refinement_summary") Himp0)
      by neq_lit.
    apply L4. neq_lit. }
  assert (Hagree : GuidedFacts.clamp 0 30 n2 = calculated -> 
                   lookup r (lit "overall") (lit "refinement_summary")
                   = lookup parsed (lit "overall") (lit "refinement_summary")).
  { intros E. rewrite E, Z.eqb_refl in Hend. subst r. exact L6. }
  assert (Hfilled : bad2 = true -> GuidedFacts.clamp 0 30 n2 = calculated).
  { intros ->. rewrite (get_set_field_same _ _ _ _ _ Himp0) in Hn2.
    simpl in Hn2. inversion Hn2; subst n2. unfold GuidedFacts.clamp. lia. }
  destruct (set_field_inv _ _ _ _ _ Hin) as (d3 & sd3 & E3 & Esd3 & E4).
  assert (Hsec4 : exists sd4, py_getitem r4 (lit "overall") = Ok (VDict sd4)).
  { subst r4. simpl. rewrite dict_get_set_same. eauto. }
  destruct Hsec4 as (sd4 & Hsec4).
  destruct Hcase as [Hnone|[(v & Hv & Hnum)|(v & k & Hv & Hnum & Hint & Hres)]].
  - apply Hagree, Hfilled.
    rewrite <- L4 in Hnone by neq_lit. unfold lookup in Hnone.
    rewrite Hsec4 in Hnone.
    rewrite (missing_or_not_number_absent _ _ _ _ Hsec4 Hnone) in Hbad2.
    inversion Hbad2. reflexivity.
  - apply Hagree, Hfilled.
    rewrite <- L4 in Hv by neq_lit.
    rewrite (missing_or_not_number_lookup _ _ _ _ Hv), Hnum in Hbad2.
    inversion Hbad2. reflexivity.
  - apply Hagree.
    rewrite <- L4 in Hv by neq_lit.
    rewrite (missing_or_not_number_lookup _ _ _ _ Hv), Hnum in Hbad2.
    inversion Hbad2; subst bad2. simpl in Himp0. inversion Himp0; subst r5.
    rewrite (lookup_get_field _ _ _ _ Hv) in Hn2. simpl in Hn2.
    rewrite Hint in Hn2. inversion Hn2; subst n2.
    destruct (Z.eqb (GuidedFacts.clamp 0 30 k) calculated) eqn:Eq;
      [apply Z.eqb_eq; exact Eq|].
    destruct Hend as (r7 & current & updated & H7 & _ & _ & Hr).
    rewrite (get_set_field_other_field _ _ _ _ _ (lit "improved_score") Hr)
      in Hres by neq_lit.
    rewrite (get_set_field_same _ _ _ _ _ H7) in Hres.
    inversion Hres. unfold GuidedFacts.clamp. congruence.
Qed.

(** A response whose summary states a total of 20 and that reports no
    total of its own. *)
Definition response_no_total : str :=
  json_text
    "{'OriginalUserStory': {'Title': 'Login', 'Description': 'd', 'AcceptanceCriteria': ['a'], 'AdditionalInformation': ''},
      'ImprovedUserStory': {'Title': 'Login', 'Description': 'd', 'AcceptanceCriteria': ['a', 'b'], 'AdditionalInformation': ''},
      'Independent': {'score': 3, 'improved_score': 4, 'explanation': 'e', 'recommendation': 'r'},
      'Negotiable': {'score': 3, 'improved_score': 4, 'explanation': 'e', 'recommendation': 'r'},
      'Valuable': {'score': 3, 'improved_score': 4, 'explanation': 'e', 'recommendation': 'r'},
      'Estimable': {'score': 3, 'improved_score': 4, 'explanation': 'e', 'recommendation': 'r'},
      'Small': {'score': 3, 'improved_score': 4, 'explanation': 'e', 'recommendation': 'r'},
      'Testable': {'score': 3, 'improved_score': 4, 'explanation': 'e', 'recommendation': 'r'},
      'overall': {'input_score': 15, 'summary': 's', 'refinement_summary': 'INVEST Score improved from 15/30 to 20/30'}}".

Definition no_total_parsed : value :=
  Eval vm_compute in parsed_response response_no_total.

Definition no_total_result : value :=
  Eval vm_compute in
    analyze_user_story no_dumps (answering response_no_total)
      sample_story [] [] 15.

Lemma guided_agreement_keeps_summary_witness :
  get_field no_total_result (lit "overall") (lit "improved_score")
  = Ok (VInt 24)
  /\ lookup no_total_result (lit "overall") (lit "refinement_summary")
     = Some (VStr (lit "INVEST Score improved from 15/30 to 20/30")).
Proof.
  split; [vm_compute; reflexivity|].
  assert (O : exists section,
             py_getitem no_total_parsed (lit "overall") = Ok section)
    by (vm_compute; eexists; reflexivity).
  destruct O as (section & O).
  rewrite (guided_agreement_keeps_summary no_dumps
             (answering response_no_total) sample_story [] [] 15
             response_no_total no_total_parsed no_total_result section).
  - vm_compute. reflexivity.
  - reflexivity.
  - vm_compute. reflexivity.
  - vm_compute. reflexivity.
  - exact O.
  - left. vm_compute. reflexivity.
Defined.

(** ** Responses that make the analysis fail *)

Definition is_object (v : value) : Prop := exists d, v = VDict d.

Lemma guided_fill_loop_object n r r' :
  for_each required_sections (fill_section n) r = Ok r' ->
  is_object r' -> is_object r.
Proof.
  intros H. 
  assert (K : ~ is_object r -> ~ is_object r').
  { apply (for_each_preserves (fun x => ~ is_object x)
             (fill_section n) required_sections); [|exact H].
    intros r0 x r0' H0 N.
    apply GuidedFacts.fill_section_cases in H0
      as [[_ ->]|(d & v & -> & _)]; [exact N|].
    exfalso. apply N. exists d. reflexivity. }
  intros O. destruct r as [| | | | | |d]; try (exfalso; apply K;
    [intros (d & E); discriminate E|exact O]).
  exists d. reflexivity.
Qed.

Lemma baseline_fill_loop_object r r' :
  for_each required_sections Refinement.fill_section r = Ok r' ->
  is_object r' -> is_object r.
Proof.
  intros H.
  assert (K : ~ is_object r -> ~ is_object r').
  { apply (for_each_preserves (fun x => ~ is_object x)
             Refinement.fill_section required_sections); [|exact H].
    intros r0 x r0' H0 N.
    apply BaselineFacts.baseline_fill_cases in H0
      as [[_ ->]|(d & v & -> & _)]; [exact N|].
    exfalso. apply N. exists d. reflexivity. }
  intros O. destruct r as [| | | | | |d]; try (exfalso; apply K;
    [intros (d & E); discriminate E|exact O]).
  exists d. reflexivity.
Qed.

(** X10.  A response that is valid JSON but not a JSON object (a list, a
    text, a number, [true], [false] or [null]) never gives a normal result:
    each analyzer returns its error result. *)
Theorem non_object_response_fails :
  forall json_dumps chat_model user_story aspects_to_enhance additional_context
         input_score content parsed,
    json_loads (sanitize_json_string (strip content)) = Ok parsed ->
    ~ is_object parsed ->
    (chat_model (create_analysis_prompt json_dumps user_story aspects_to_enhance
                   additional_context input_score) = Replied content ->
     exists e,
       analyze_user_story json_dumps chat_model user_story aspects_to_enhance
         additional_context input_score = error_result e input_score)
    /\ (chat_model (Refinement.create_analysis_prompt json_dumps user_story)
        = Replied content ->
        exists e,
          Refinement.analyze_user_story json_dumps chat_model user_story
          = Refinement.error_result e).
Proof.
  intros jd cm us a c n content parsed Hparse0 Hno. split; intros Hreply0.
  - unfold analyze_user_story.
    destruct (analysis_body jd cm us a c n) as [r|e] eqn:Hbody;
      [|exists e; reflexivity].
    exfalso. destruct (GuidedFacts.analysis_body_run _ _ _ _ _ _ _ Hbody).
    rewrite Hreply0 in Hreply. inversion Hreply; subst content0.
    rewrite Hparse0 in Hparse. inversion Hparse; subst parsed0.
    apply Hno. apply (guided_fill_loop_object _ _ _ Hfill).
    apply (GuidedFacts.validate_loop_is_dict _ _ Hvalid).
  - unfold Refinement.analyze_user_story.
    destruct (Refinement.analysis_body jd cm us) as [r|e] eqn:Hbody;
      [|exists e; reflexivity].
    exfalso. destruct (BaselineFacts.baseline_body_run _ _ _ _ Hbody).
    rewrite Hreply0 in Hreply. inversion Hreply; subst content0.
    rewrite Hparse0 in Hparse. inversion Hparse; subst parsed0.
    apply Hno. apply (baseline_fill_loop_object _ _ Hfill).
    apply (BaselineFacts.baseline_loop_is_dict _ _ Hvalid).
Qed.

(** A list that has the names of all the sections. *)
Definition response_list_of_names : str :=
  json_text
    "['OriginalUserStory', 'ImprovedUserStory', 'Independent', 'Negotiable',
      'Valuable', 'Estimable', 'Small', 'Testable', 'overall']".

Lemma non_object_response_fails_witness :
  (exists e,
      analyze_user_story no_dumps (answering response_list_of_names)
        sample_story [] [] 15 = error_result e 15)
  /\ exists e,
       Refinement.analyze_user_story no_dumps
         (answering response_list_of_names) sample_story
       = Refinement.error_result e.
Proof.
  destruct (non_object_response_fails no_dumps
              (answering response_list_of_names) sample_story [] [] 15
              response_list_of_names
              (parsed_response response_list_of_names)) as [G B].
  - vm_compute. reflexivity.
  - intros (d & E). vm_compute in E. discriminate E.
  - split; [apply G|apply B]; reflexivity.
Defined.

Lemma validate_score_infinite f r c b r' :
  lookup r c f = Some (VFloat (FInf b)) -> validate_score f r c = Ok r' -> False.
Proof.
  intros L H. unfold validate_score in H.
  rewrite (missing_or_not_number_lookup _ _ _ _ L) in H. cbn [bind is_number negb] in H.
  rewrite (lookup_get_field _ _ _ _ L) in H. cbn [bind py_int int_of_float] in H.
  discriminate H.
Qed.

(** X11.  In the guided analyzer a criterion whose [score] or
    [improved_score] is an infinite number, which [json.loads] accepts as
    [Infinity] and [-Infinity], is not given the sentinel 0: [int] raises an
    [OverflowError], which the [except (ValueError, TypeError)] of the loop
    does not catch, and the whole analysis ends in the error result. *)
Theorem guided_infinite_score_fails :
  forall json_dumps chat_model user_story aspects_to_enhance additional_context
         input_score content parsed c f b,
    chat_model (create_analysis_prompt json_dumps user_story aspects_to_enhance
                  additional_context input_score) = Replied content ->
    json_loads (sanitize_json_string (strip content)) = Ok parsed ->
    In c criteria ->
    f = lit "score" \/ f = lit "improved_score" ->
    lookup parsed c f = Some (VFloat (FInf b)) ->
    exists e,
      analyze_user_story json_dumps chat_model user_story aspects_to_enhance
        additional_context input_score = error_result e input_score.
Proof.
  intros jd cm us a ctx n content parsed c f b Hreply0 Hparse0 Hc Hf L.
  unfold analyze_user_story.
  destruct (analysis_body jd cm us a ctx n) as [r|e] eqn:Hbody;
    [|exists e; reflexivity].
  exfalso. destruct (GuidedFacts.analysis_body_run _ _ _ _ _ _ _ Hbody).
  rewrite Hreply0 in Hreply. inversion Hreply; subst content0.
  rewrite Hparse0 in Hparse. inversion Hparse; subst parsed0.
  destruct (lookup_section _ _ _ _ L) as (sd & Hsec).
  pose proof (fill_loop_keeps _ _ _ _ _ Hfill Hsec) as Hsec1.
  destruct (for_each_once validate_criterion criteria
              (fun r0 x r0' H y Hy => validate_criterion_frame r0 x r0' y H Hy)
              criteria_nodup _ _ Hvalid) as [_ Once].
  destruct (Once c Hc) as (rb & ra & Hb & Eb & _).
  assert (Lb : lookup rb c f = Some (VFloat (FInf b))).
  { rewrite <- L. apply lookup_same_section. congruence. }
  unfold validate_criterion in Hb. apply bind_ok in Hb as (rs & Hs1 & Hs2).
  destruct Hf as [-> | ->].
  - exact (validate_score_infinite _ _ _ _ _ Lb Hs1).
  - apply GuidedFacts.validate_score_sets in Hs1 as (k & _ & S).
    rewrite <- (lookup_set_other_field _ _ _ _ _ (lit "improved_score") S) in Lb
      by neq_lit.
    exact (validate_score_infinite _ _ _ _ _ Lb Hs2).
Qed.

Definition response_infinite_score : str :=
  json_text
    "{'OriginalUserStory': {'Title': 'Login', 'Description': 'd', 'AcceptanceCriteria': ['a'], 'AdditionalInformation': ''},
      'ImprovedUserStory': {'Title': 'Login', 'Description': 'd', 'AcceptanceCriteria': ['a', 'b'], 'AdditionalInformation': ''},
      'Independent': {'score': 3, 'improved_score': 4, 'explanation': 'e', 'recommendation': 'r'},
      'Negotiable': {'score': 3, 'improved_score': Infinity, 'explanation': 'e', 'recommendation': 'r'},
      'Valuable': {'score': 3, 'improved_score': 4, 'explanation': 'e', 'recommendation': 'r'},
      'Estimable': {'score': 3, 'improved_score': 4, 'explanation': 'e', 'recommendation': 'r'},
      'Small': {'score': 3, 'improved_score': 4, 'explanation': 'e', 'recommendation': 'r'},
      'Testable': {'score': 3, 'improved_score': 4, 'explanation': 'e', 'recommendation': 'r'},
      'overall': {'input_score': 15, 'improved_score': 24, 'summary': 's', 'refinement_summary': ''}}".

Lemma guided_infinite_score_fails_witness :
  exists e,
    analyze_user_story no_dumps (answering response_infinite_score)
      sample_story [] [] 15 = error_result e 15.
Proof.
  apply (guided_infinite_score_fails no_dumps
           (answering response_infinite_score) sample_story [] [] 15
           response_infinite_score (parsed_response response_infinite_score)
           (lit "Negotiable") (lit "improved_score") false).
  - reflexivity.
  - vm_compute. reflexivity.
  - right. left. reflexivity.
  - right. reflexivity.
  - vm_compute. reflexivity.
Defined.

(** X12.  In the baseline variant the [overall.score] of a result tells a
    failure from a success: it is 0 in the error result, and from 6 to 30
    in every result of an analysis that went through, since each of the
    six scores is clamped to 1 at least. *)
Theorem baseline_total_is_zero_only_on_failure :
  forall json_dumps chat_model user_story,
    let r := Refinement.analyze_user_story json_dumps chat_model user_story in
    (exists e,
        Refinement.analysis_body json_dumps chat_model user_story = Raise e
        /\ r = Refinement.error_result e
        /\ get_field r (lit "overall") (lit "score") = Ok (VInt 0))
    \/ (exists n,
           Refinement.analysis_body json_dumps chat_model user_story = Ok r
           /\ get_field r (lit "overall") (lit "score") = Ok (VInt n)
           /\ (6 <= n <= 30)%Z).
Proof.
  intros jd cm us r. subst r. unfold Refinement.analyze_user_story.
  destruct (Refinement.analysis_body jd cm us) as [r|e] eqn:Hbody.
  - right.
    destruct (proj2 (overall_ranges jd cm us [] [] 0) r Hbody)
      as (x & y & Hx & _ & Bx & _).
    exists x. auto.
  - left. exists e. split; [reflexivity|]. split; reflexivity.
Qed.

(** ** Sections that the response does not have *)

Lemma getitem_key_error r s k :
  py_getitem r s = Raise (Exn KeyError k) ->
  exists d, r = VDict d /\ dict_get d s = None.
Proof.
  destruct r as [| | | | | |d]; try discriminate.
  simpl. destruct (dict_get d s) eqn:E; [discriminate|]. eauto.
Qed.

Lemma guided_fill_frame n r x r' y :
  fill_section n r x = Ok r' -> y <> x -> py_getitem r' y = py_getitem r y.
Proof.
  intros H Hy.
  apply GuidedFacts.fill_section_cases in H as [[_ ->]|(d & v & -> & _ & ->)];
    [reflexivity|].
  simpl. rewrite dict_get_set_other by exact Hy. reflexivity.
Qed.

Lemma baseline_fill_frame r x r' y :
  Refinement.fill_section r x = Ok r' -> y <> x ->
  py_getitem r' y = py_getitem r y.
Proof.
  intros H Hy.
  apply BaselineFacts.baseline_fill_cases in H
    as [[_ ->]|(d & v & -> & _ & ->)]; [reflexivity|].
  simpl. rewrite dict_get_set_other by exact Hy. reflexivity.
Qed.

(** The section that the first loop stores for a name that the response
    does not have. *)
Lemma guided_fill_missing n d r1 s :
  for_each required_sections (fill_section n) (VDict d) = Ok r1 ->
  In s required_sections -> dict_mem d s = false ->
  exists v, fill_section n (VDict []) s = Ok (VDict [(s, v)])
            /\ py_getitem r1 s = Ok v.
Proof.
  intros H Hs Hm.
  destruct (for_each_once (fill_section n) required_sections
              (fun r0 x r0' H0 y Hy => guided_fill_frame n r0 x r0' y H0 Hy)
              GuidedFacts.required_nodup _ _ H) as [_ Once].
  destruct (Once s Hs) as (rb & ra & Hb & Eb & Ea).
  assert (Eb' : exists k, py_getitem rb s = Raise (Exn KeyError k)).
  { rewrite Eb. simpl. unfold dict_mem in Hm.
    destruct (dict_get d s); [discriminate|]. eauto. }
  destruct Eb' as (k & Eb').
  apply getitem_key_error in Eb' as (db & -> & Nb).
  rewrite Ea. clear - Hb Nb.
  unfold fill_section in *. cbn [py_in bind] in *.
  unfold dict_mem in Hb. rewrite Nb in Hb. cbn [negb dict_mem dict_get] in *.
  destruct (str_in s story_sections).
  - inversion Hb; subst ra. eexists. split; [reflexivity|].
    simpl. rewrite dict_get_set_same. reflexivity.
  - destruct (str_eqb s (lit "overall")).
    + inversion Hb; subst ra. eexists. split; [reflexivity|].
      simpl. rewrite dict_get_set_same. reflexivity.
    + inversion Hb; subst ra. eexists. split; [reflexivity|].
      simpl. rewrite dict_get_set_same. reflexivity.
Qed.

Lemma baseline_fill_missing d r1 s :
  for_each required_sections Refinement.fill_section (VDict d) = Ok r1 ->
  In s required_sections -> dict_mem d s = false ->
  exists v, Refinement.fill_section (VDict []) s = Ok (VDict [(s, v)])
            /\ py_getitem r1 s = Ok v.
Proof.
  intros H Hs Hm.
  destruct (for_each_once Refinement.fill_section required_sections
              (fun r0 x r0' H0 y Hy => baseline_fill_frame r0 x r0' y H0 Hy)
              GuidedFacts.required_nodup _ _ H) as [_ Once].
  destruct (Once s Hs) as (rb & ra & Hb & Eb & Ea).
  assert (Eb' : exists k, py_getitem rb s = Raise (Exn KeyError k)).
  { rewrite Eb. simpl. unfold dict_mem in Hm.
    destruct (dict_get d s); [discriminate|]. eauto. }
  destruct Eb' as (k & Eb').
  apply getitem_key_error in Eb' as (db & -> & Nb).
  rewrite Ea. clear - Hb Nb.
  unfold Refinement.fill_section in *. cbn [py_in bind] in *.
  unfold dict_mem in Hb. rewrite Nb in Hb. cbn [negb dict_mem dict_get] in *.
  destruct (str_in s story_sections).
  - inversion Hb; subst ra. eexists. split; [reflexivity|].
    simpl. rewrite dict_get_set_same. reflexivity.
  - destruct (str_eqb s (lit "overall")).
    + inversion Hb; subst ra. eexists. split; [reflexivity|].
      simpl. rewrite dict_get_set_same. reflexivity.
    + inversion Hb; subst ra. eexists. split; [reflexivity|].
      simpl. rewrite dict_get_set_same. reflexivity.
Qed.

(** X13.  What a normal result has for a section that the response, a JSON
    object, does not have.  A missing story is the story with empty fields.
    A missing criterion is not returned with the 0 of the default that is
    stored for it: the second loop treats that default as a score of the
    model and clamps it, so the section comes back with a score of 1 (in
    the guided variant an [improved_score] of 1 too) and empty texts. *)
Theorem missing_section_defaults :
  forall json_dumps chat_model user_story aspects_to_enhance additional_context
         input_score content d,
    json_loads (sanitize_json_string (strip content)) = Ok (VDict d) ->
    (chat_model (create_analysis_prompt json_dumps user_story aspects_to_enhance
                   additional_context input_score) = Replied content ->
     forall r,
       analysis_body json_dumps chat_model user_story aspects_to_enhance
         additional_context input_score = Ok r ->
       (forall s, In s story_sections -> dict_mem d s = false ->
          py_getitem r s = Ok empty_story)
       /\ (forall c, In c criteria -> dict_mem d c = false ->
             py_getitem r c
             = Ok (VDict [(lit "score", VInt 1); (lit "improved_score", VInt 1);
                          (lit "explanation", VStr []);
                          (lit "recommendation", VStr [])])))
    /\ (chat_model (Refinement.create_analysis_prompt json_dumps user_story)
        = Replied content ->
        forall r,
          Refinement.analysis_body json_dumps chat_model user_story = Ok r ->
          (forall s, In s story_sections -> dict_mem d s = false ->
             py_getitem r s = Ok empty_story)
          /\ (forall c, In c criteria -> dict_mem d c = false ->
                py_getitem r c
                = Ok (VDict [(lit "score", VInt 1);
                             (lit "explanation", VStr []);
                             (lit "recommendation", VStr [])]))).
Proof.
  intros jd cm us a ctx n content d Hparse.
  assert (Hstory : forall s, In s story_sections ->
            In s required_sections /\ ~ In s criteria /\ s <> lit "overall").
  { intros s Hs. simpl in Hs. destruct Hs as [<-|[<-|[]]];
      (split; [simpl; tauto|]); (split; [|discriminate]);
      intros H; simpl in H;
      repeat (destruct H as [H|H]; [discriminate H|]); exact H. }
  split; intros Hreply r Hbody.
  - destruct (guided_run_frame _ _ _ _ _ _ _ _ _ Hreply Hparse Hbody)
      as (r1 & r2 & Hfill & Hvalid & Only & _).
    split.
    + intros s Hs Hm. destruct (Hstory s Hs) as (Hreq & Hnc & Hno).
      rewrite (Only s Hno), (validate_loop_keeps _ _ _ Hvalid Hnc).
      destruct (guided_fill_missing _ _ _ _ Hfill Hreq Hm) as (v & Ev & ->).
      simpl in Hs. destruct Hs as [<-|[<-|[]]]; inversion Ev; reflexivity.
    + intros c Hc Hm.
      rewrite (Only c (criteria_not_overall c Hc)).
      destruct (guided_fill_missing _ _ _ _ Hfill (criteria_required c Hc) Hm)
        as (v & Ev & Hsec1).
      assert (v = default_criterion) as ->.
      { simpl in Hc.
        repeat (destruct Hc as [<-|Hc]; [inversion Ev; reflexivity|]).
        destruct Hc. }
      destruct (for_each_once validate_criterion criteria
                  (fun r0 x r0' H y Hy => validate_criterion_frame r0 x r0' y H Hy)
                  criteria_nodup _ _ Hvalid) as [_ Once].
      destruct (Once c Hc) as (rb & ra & Hb & Eb & ->).
      rewrite Hsec1 in Eb.
      unfold validate_criterion in Hb. apply bind_ok in Hb as (rs & Hs1 & Hs2).
      destruct (validate_score_section _ _ _ _ _ Hs1 Eb) as (sd & Esd & E1).
      destruct (validate_score_section _ _ _ _ _ Hs2 E1) as (sd1 & Esd1 & E2).
      inversion Esd; subst sd. inversion Esd1; subst sd1.
      rewrite E2. reflexivity.
  - destruct (baseline_run_frame _ _ _ _ _ _ Hreply Hparse Hbody)
      as (r1 & r2 & Hfill & Hvalid & Only & _).
    destruct (for_each_once Refinement.validate_criterion criteria
                (fun r0 x r0' H y Hy => baseline_validate_frame r0 x r0' y H Hy)
                criteria_nodup _ _ Hvalid) as [Frame Once].
    split.
    + intros s Hs Hm. destruct (Hstory s Hs) as (Hreq & Hnc & Hno).
      rewrite (Only s Hno), (Frame s Hnc).
      destruct (baseline_fill_missing _ _ _ Hfill Hreq Hm) as (v & Ev & ->).
      simpl in Hs. destruct Hs as [<-|[<-|[]]]; inversion Ev; reflexivity.
    + intros c Hc Hm.
      rewrite (Only c (criteria_not_overall c Hc)).
      destruct (baseline_fill_missing _ _ _ Hfill (criteria_required c Hc) Hm)
        as (v & Ev & Hsec1).
      assert (v = Refinement.default_criterion) as ->.
      { simpl in Hc.
        repeat (destruct Hc as [<-|Hc]; [inversion Ev; reflexivity|]).
        destruct Hc. }
      destruct (Once c Hc) as (rb & ra & Hb & Eb & ->).
      rewrite Hsec1 in Eb.
      unfold Refinement.validate_criterion, get_field in Hb.
      rewrite Eb in Hb. cbn [bind] in Hb.
      change (py_getitem Refinement.default_criterion (lit "score"))
        with (@Ok value (VInt 0)) in Hb.
      cbn [bind py_int] in Hb.
      apply set_field_inv in Hb as (d' & sd' & -> & E' & ->).
      simpl in Eb. rewrite E' in Eb. inversion Eb; subst sd'.
      simpl. rewrite dict_get_set_same. reflexivity.
Qed.

Lemma missing_section_defaults_witness :
  py_getitem
    (analyze_user_story no_dumps (answering response_without_testable)
       sample_story [] [] 15) (lit "Testable")
  = Ok (VDict [(lit "score", VInt 1); (lit "improved_score", VInt 1);
               (lit "explanation", VStr []); (lit "recommendation", VStr [])]).
Proof.
  assert (P : exists d,
             parsed_response response_without_testable = VDict d
             /\ dict_mem d (lit "Testable") = false)
    by (vm_compute; eexists; split; reflexivity).
  destruct P as (d & Ed & Hm).
  destruct (missing_section_defaults no_dumps
              (answering response_without_testable) sample_story [] [] 15
              response_without_testable d) as [G _].
  - rewrite <- Ed. vm_compute. reflexivity.
  - destruct (G eq_refl
                (analyze_user_story no_dumps
                   (answering response_without_testable) sample_story [] [] 15))
      as [_ C]; [vm_compute; reflexivity|].
    apply C; [|exact Hm]. right. right. right. right. right. left. reflexivity.
Defined.

(** ** The baseline preprocess_input *)



(** *** A JSON text that starts with a brace *)

Definition ends_dict (stack : list frame) : Prop :=
  exists pre entries key, stack = pre ++ [InDict entries key].

(** The outermost container that the automaton has open is a dict. *)
Definition rooted (st : pstate) : Prop :=
  match st with
  | PValue stack | PListOpen stack | PListNext _ stack => ends_dict stack
  | PDictOpen stack | PKey _ stack | PColon _ _ stack | PDictNext _ stack =>
      stack = [] \/ ends_dict stack
  | PDone v => is_object v
  end.

Lemma ends_dict_cons f stack : stack = [] \/ ends_dict stack ->
  (stack = [] -> exists e k, f = InDict e k) -> ends_dict (f :: stack).
Proof.
  intros [->|(pre & e & k & ->)] H.
  - destruct (H eq_refl) as (e & k & ->). exists [], e, k. reflexivity.
  - exists (f :: pre), e, k. reflexivity.
Qed.

Lemma ends_dict_tail f stack :
  ends_dict (f :: stack) -> stack = [] \/ ends_dict stack.
Proof.
  intros (pre & e & k & E). destruct pre as [|g pre]; simpl in E.
  - inversion E. left. reflexivity.
  - inversion E. right. exists pre, e, k. reflexivity.
Qed.

Lemma ends_dict_list_tail items stack :
  ends_dict (InList items :: stack) -> ends_dict stack.
Proof.
  intros (pre & e & k & E). destruct pre as [|g pre]; simpl in E.
  - discriminate E.
  - inversion E. exists pre, e, k. reflexivity.
Qed.

Lemma reduce_rooted v stack : ends_dict stack -> rooted (reduce v stack).
Proof.
  intros H. destruct stack as [|[items|entries key] stack]; simpl.
  - destruct H as ([|? ?] & e & k & E); discriminate E.
  - apply ends_dict_list_tail in H. exact H.
  - apply ends_dict_tail in H. exact H.
Qed.

Lemma reduce_dict_rooted entries stack :
  stack = [] \/ ends_dict stack -> rooted (reduce (VDict entries) stack).
Proof.
  intros [->|H]; [exists entries; reflexivity|apply reduce_rooted, H].
Qed.

Lemma start_value_rooted stack t st :
  ends_dict stack -> start_value stack t = Some st -> rooted st.
Proof.
  intros H E. destruct t; simpl in E; inversion E; subst; simpl.
  - right. exact H.
  - exact H.
  - apply reduce_rooted, H.
Qed.

Lemma step_rooted st t st' : rooted st -> step st t = Some st' -> rooted st'.
Proof.
  intros R E. destruct st as [stack|stack|stack|entries stack|entries key stack
                              |items stack|entries stack|v]; simpl in R.
  - simpl in E. eapply start_value_rooted; eassumption.
  - assert (K : ends_dict (InList [] :: stack)).
    { apply ends_dict_cons; [right; exact R|].
      intros ->. destruct R as ([|? ?] & e & k & E0); discriminate E0. }
    destruct t; try (eapply start_value_rooted; [exact K|exact E]).
    simpl in E. inversion E; subst. apply reduce_rooted, R.
  - destruct t; simpl in E; try discriminate E.
    + inversion E; subst. apply reduce_dict_rooted, R.
    + destruct v; try discriminate E. inversion E; subst. exact R.
  - destruct t; simpl in E; try discriminate E.
    destruct v; try discriminate E. inversion E; subst. exact R.
  - destruct t; simpl in E; try discriminate E. inversion E; subst. simpl.
    apply ends_dict_cons; [exact R|]. intros _. eauto.
  - destruct t; simpl in E; try discriminate E.
    + inversion E; subst. apply reduce_rooted, R.
    + inversion E; subst. simpl. apply ends_dict_cons; [right; exact R|].
      intros ->. destruct R as ([|? ?] & e & k & E0); discriminate E0.
  - destruct t; simpl in E; try discriminate E.
    + inversion E; subst. apply reduce_dict_rooted, R.
    + inversion E; subst. exact R.
  - destruct t; discriminate E.
Qed.

Lemma run_rooted ts : forall st st', rooted st -> run st ts = Some st' -> rooted st'.
Proof.
  induction ts as [|t ts IH]; intros st st' R H; simpl in H.
  - inversion H; subst. exact R.
  - destruct (step st t) as [st1|] eqn:E; [|discriminate].
    apply (IH st1 st'); [eapply step_rooted; eassumption|exact H].
Qed.

(** What [json.loads] makes of a text that starts with a brace is a
    dict. *)
Lemma json_loads_brace s v : json_loads (lit "{" ++ s) = Ok v -> is_object v.
Proof.
  unfold json_loads. change (lit "{" ++ s) with (123%N :: s).
  rewrite tokenize_token by reflexivity.
  change (lex1 (123%N :: s)) with (Some (TLBrace, s)). cbv beta iota.
  destruct (tokenize s) as [ts|]; [|intros H; discriminate H].
  unfold parse_tokens. cbn [run step start_value].
  destruct (run (PDictOpen []) ts) as [st|] eqn:R; [|intros H; discriminate H].
  intros H. apply (run_rooted ts (PDictOpen []) st) in R; [|left; reflexivity].
  destruct st; try discriminate H. inversion H; subst. exact R.
Qed.

(** *** What the repair returns *)

(** A text of one character at least, without a quote. *)
Definition plain_field (t : str) : Prop := t <> [] /\ no_quote t.

(** A text that has no comma and no quote at either end. *)
Definition text_item (v : value) : Prop :=
  exists t, v = VStr t /\ ~ In 44%N t
            /\ (forall c r, t = c :: r -> c <> dquote)
            /\ (forall r c, t = r ++ [c] -> c <> dquote).

(** A section found in the input and stored by the loop of the repair. *)
Definition repaired_entry (kv : str * value) : Prop :=
  In (fst kv) Refinement.repaired_sections /\ is_object (snd kv).

Module RepairFacts.
Import Refinement.


Lemma span_no_quote_spec s : no_quote (fst (span_no_quote s)).
Proof.
  induction s as [|c r IH]; simpl; [constructor|].
  destruct (N.eqb c dquote) eqn:E; [constructor|].
  destruct (span_no_quote r) as [g rest]. simpl in *.
  constructor; [apply N.eqb_neq; exact E|exact IH].
Qed.

Lemma quoted_plain s g rest : quoted s = Some (g, rest) -> plain_field g.
Proof.
  unfold quoted. intros H.
  destruct (strip_prefix q s) as [r|]; [|discriminate H].
  pose proof (span_no_quote_spec r) as N.
  destruct (span_no_quote r) as [[|c g0] [|d rest0]]; try discriminate H.
  inversion H; subst. split; [intros E; discriminate E|exact N].
Qed.

Lemma search_some {A} (pattern : str -> option A) s a :
  search pattern s = Some a -> exists suffix, pattern suffix = Some a.
Proof.
  induction s as [|c r IH]; simpl; intros H.
  - destruct (pattern []) eqn:E; [|discriminate H].
    inversion H; subst. eauto.
  - destruct (pattern (c :: r)) eqn:E.
    + inversion H; subst. eauto.
    + exact (IH H).
Qed.

Lemma lazy_until_some {A} (tail : str -> option A) s g a :
  lazy_until tail s = Some (g, a) -> exists rest, tail rest = Some a.
Proof.
  revert g. induction s as [|c r IH]; intros g H; simpl in H.
  - destruct (tail []) eqn:E; [|discriminate H].
    inversion H; subst. eauto.
  - destruct (tail (c :: r)) eqn:E.
    + inversion H; subst. eauto.
    + destruct (N.eqb c newline); [discriminate H|].
      destruct (lazy_until tail r) as [[g0 a0]|]; [|discriminate H].
      inversion H; subst. apply (IH g0 eq_refl).
Qed.

Lemma match_story_plain s title desc ac add_info :
  match_story s = Some (title, desc, ac, add_info) ->
  plain_field title /\ plain_field desc /\ plain_field add_info.
Proof.
  unfold match_story. intros H.
  repeat match type of H with
         | match text_spaces ?p ?x with _ => _ end = _ =>
             destruct (text_spaces p x); [|discriminate H]
         | match strip_prefix ?p ?x with _ => _ end = _ =>
             destruct (strip_prefix p x); [|discriminate H]
         | match quoted ?x with _ => _ end = _ =>
             let E := fresh "Q" in
             destruct (quoted x) as [[? ?]|] eqn:E; [|discriminate H];
             apply quoted_plain in E
         end.
  destruct (lazy_until story_tail _) as [[g a]|] eqn:L; [|discriminate H].
  inversion H; subst.
  apply lazy_until_some in L as (rest & T). unfold story_tail in T.
  repeat match type of T with
         | match text_spaces ?p ?x with _ => _ end = _ =>
             destruct (text_spaces p x); [|discriminate T]
         end.
  destruct (quoted _) as [[ai r]|] eqn:Qa; [|discriminate T].
  inversion T; subst. apply quoted_plain in Qa. auto.
Qed.

Lemma split_comma_spec s :
  split_comma s <> [] /\ Forall (fun item => ~ In 44%N item) (split_comma s).
Proof.
  induction s as [|c r [IH1 IH2]]; simpl.
  - split; [discriminate|]. constructor; [intros []|constructor].
  - destruct (N.eqb c 44) eqn:E.
    + split; [discriminate|]. constructor; [intros []|exact IH2].
    + destruct (split_comma r) as [|item items]; [congruence|].
      split; [discriminate|]. inversion IH2; subst.
      constructor; [|assumption].
      intros [Hc|H]; [subst c; discriminate E|contradiction].
Qed.

Lemma lstrip_quotes_suffix s : exists p, s = p ++ lstrip_quotes s.
Proof.
  induction s as [|c r (p & IH)]; [exists []; reflexivity|].
  simpl. destruct (N.eqb c dquote).
  - exists (c :: p). simpl. rewrite <- IH. reflexivity.
  - exists []. reflexivity.
Qed.

Lemma lstrip_quotes_head s c r : lstrip_quotes s = c :: r -> c <> dquote.
Proof.
  induction s as [|x s IH]; simpl; [discriminate|].
  destruct (N.eqb x dquote) eqn:E; [exact IH|].
  intros H. inversion H; subst. apply N.eqb_neq. exact E.
Qed.

Lemma strip_quotes_ends s :
  (forall c r, strip_quotes s = c :: r -> c <> dquote)
  /\ (forall r c, strip_quotes s = r ++ [c] -> c <> dquote).
Proof.
  unfold strip_quotes.
  destruct (lstrip_quotes_suffix (rev (lstrip_quotes s))) as (p & E).
  set (v := lstrip_quotes (rev (lstrip_quotes s))) in *.
  assert (U : lstrip_quotes s = rev v ++ rev p).
  { rewrite <- (rev_involutive (lstrip_quotes s)), E, rev_app_distr.
    reflexivity. }
  split.
  - intros c r H. rewrite H in U. simpl in U.
    apply (lstrip_quotes_head _ _ _ U).
  - intros r c H. apply (f_equal (@rev char)) in H.
    rewrite rev_involutive, rev_app_distr in H. simpl in H.
    apply (lstrip_quotes_head _ _ _ H).
Qed.

Lemma strip_quotes_keeps (P : char -> Prop) s :
  Forall P s -> Forall P (strip_quotes s).
Proof.
  assert (K : forall t, Forall P t -> Forall P (lstrip_quotes t)).
  { induction 1 as [|c t Hc Ht IH]; [constructor|].
    simpl. destruct (N.eqb c dquote); [exact IH|constructor; assumption]. }
  intros H. unfold strip_quotes. apply Forall_rev, K, Forall_rev, K, H.
Qed.

Lemma acceptance_items ac :
  let items := map (fun item => VStr (strip_quotes (strip item)))
                   (split_comma ac) in
  items <> [] /\ Forall text_item items.
Proof.
  destruct (split_comma_spec ac) as [N F]. split.
  - destruct (split_comma ac); [congruence|discriminate].
  - apply Forall_map. revert F. apply Forall_impl. intros item Hi.
    exists (strip_quotes (strip item)). split; [reflexivity|].
    split; [|apply strip_quotes_ends].
    assert (G : Forall (fun c => c <> 44%N) (strip_quotes (strip item))).
    { apply strip_quotes_keeps, strip_keeps. apply Forall_forall.
      intros c Hc ->. exact (Hi Hc). }
    rewrite Forall_forall in G. intros Hin. exact (G _ Hin eq_refl).
Qed.

Lemma dict_set_entries (P : str * value -> Prop) d k v :
  Forall P d -> (forall k', str_eqb k' k = true -> P (k', v)) ->
  Forall P (dict_set d k v).
Proof.
  intros F H. induction F as [|[k' v'] d Hkv F IH]; simpl.
  - constructor; [apply H, str_eqb_refl|constructor].
  - destruct (str_eqb k' k) eqn:E.
    + constructor; [apply H, E|exact F].
    + constructor; assumption.
Qed.

Lemma repair_loop cleaned story names :
  incl names repaired_sections ->
  forall rest v,
    Forall repaired_entry rest ->
    for_each names (repair_section cleaned)
      (VDict ((lit "UserStory", story) :: rest)) = Ok v ->
    exists rest', v = VDict ((lit "UserStory", story) :: rest')
                  /\ Forall repaired_entry rest'.
Proof.
  induction names as [|x names IH]; intros Hin rest v F H; simpl in H.
  - inversion H; subst. eauto.
  - apply bind_ok in H as (r1 & H1 & H).
    assert (Hx : In x repaired_sections) by (apply Hin; left; reflexivity).
    assert (K : exists rest1, r1 = VDict ((lit "UserStory", story) :: rest1)
                              /\ Forall repaired_entry rest1).
    { unfold repair_section in H1.
      destruct (search (match_section x) cleaned) as [g|];
        [|inversion H1; subst; eauto].
      apply bind_ok in H1 as (sec & Hsec & H1).
      apply json_loads_brace in Hsec.
      cbn [py_setitem dict_set] in H1.
      assert (E : str_eqb (lit "UserStory") x = false).
      { apply str_eqb_neq. intros <-. simpl in Hx.
        repeat (destruct Hx as [Hx|Hx]; [discriminate Hx|]). exact Hx. }
      rewrite E in H1. inversion H1; subst.
      eexists. split; [reflexivity|].
      apply dict_set_entries; [exact F|].
      intros k' Hk. apply str_eqb_eq in Hk. subst k'. split; assumption. }
    destruct K as (rest1 & -> & F1).
    apply (IH (fun y Hy => Hin y (or_intror Hy)) rest1 v F1 H).
Qed.

End RepairFacts.

(** X15.  What the baseline [preprocess_input] returns for an input that
    is not valid JSON, when it returns: an object whose first entry is the
    [UserStory] with its four fields in order; the title, the description
    and the additional information are texts of one character at least
    without a quote; the acceptance criteria are a list of one text at
    least, each without a comma and without a quote at either end; and the
    other entries are sections among the six criteria and [overall], each
    of them an object. *)
Theorem baseline_preprocess_input_repaired :
  forall user_input e0 v,
    json_loads user_input = Raise e0 ->
    Refinement.preprocess_input user_input = Ok v ->
    exists title desc items add_info rest,
      v = VDict ((lit "UserStory",
                  VDict [(lit "Title", VStr title);
                         (lit "Description", VStr desc);
                         (lit "AcceptanceCriteria", VList items);
                         (lit "AdditionalInformation", VStr add_info)])
                 :: rest)
      /\ plain_field title /\ plain_field desc /\ plain_field add_info
      /\ items <> [] /\ Forall text_item items
      /\ Forall repaired_entry rest.
Proof.
  intros s e0 v Hj H. unfold Refinement.preprocess_input in H. rewrite Hj in H.
  cbv zeta in H.
  destruct (_ && _)%bool; [|discriminate H].
  destruct (Refinement.repair _) as [[fixed|]|e1] eqn:R; try discriminate H.
  inversion H; subst fixed. clear H.
  unfold Refinement.repair in R.
  destruct (Refinement.search Refinement.match_story _) as [[[[title desc] ac] add_info]|] eqn:S;
    [|discriminate R].
  cbv zeta in R. apply bind_ok in R as (fixed & Hloop & R).
  inversion R; subst fixed. clear R.
  apply RepairFacts.search_some in S as (suffix & S).
  apply RepairFacts.match_story_plain in S as (Pt & Pd & Pa).
  apply RepairFacts.repair_loop in Hloop as (rest & -> & F);
    [|apply incl_refl|constructor].
  destruct (RepairFacts.acceptance_items ac) as [N I].
  exists title, desc,
    (map (fun item => VStr (Refinement.strip_quotes (strip item)))
       (Refinement.split_comma ac)),
    add_info, rest.
  repeat (split; [reflexivity || assumption|]). exact F.
Qed.

(** An input in which the braces of the story are missing. *)
Definition input_without_braces : str :=
  json_text
    "'UserStory': 'Title': 'Login', 'Description': 'sign in', 'AcceptanceCriteria': ['a b', 'c' , d], 'AdditionalInformation': 'none', 'Independent': {'score': 3, 'explanation': 'x'}, 'overall':   {'score': 12}".

Definition repaired_input : value :=
  VDict [(lit "UserStory",
          VDict [(lit "Title", VStr (lit "Login"));
                 (lit "Description", VStr (lit "sign in"));
                 (lit "AcceptanceCriteria",
                  VList [VStr (lit "a b"); VStr (lit "c"); VStr (lit "d")]);
                 (lit "AdditionalInformation", VStr (lit "none"))]);
         (lit "Independent",
          VDict [(lit "score", VInt 3); (lit "explanation", VStr (lit "x"))]);
         (lit "overall", VDict [(lit "score", VInt 12)])].

Lemma baseline_preprocess_input_repaired_witness :
  Refinement.preprocess_input input_without_braces = Ok repaired_input
  /\ exists title desc items add_info rest,
       repaired_input
       = VDict ((lit "UserStory",
                 VDict [(lit "Title", VStr title);
                        (lit "Description", VStr desc);
                        (lit "AcceptanceCriteria", VList items);
                        (lit "AdditionalInformation", VStr add_info)])
                :: rest)
       /\ plain_field title /\ plain_field desc /\ plain_field add_info
       /\ items <> [] /\ Forall text_item items
       /\ Forall repaired_entry rest.
Proof.
  assert (P : Refinement.preprocess_input input_without_braces = Ok repaired_input)
    by (vm_compute; reflexivity).
  split; [exact P|].
  assert (J : exists e0, json_loads input_without_braces = Raise e0)
    by (vm_compute; eexists; reflexivity).
  destruct J as (e0 & J).
  exact (baseline_preprocess_input_repaired input_without_braces e0
           repaired_input J P).
Defined.

(** ** A response without the overall section *)

(** A field stored in a section that is known. *)
Lemma set_field_section r s f v r' sd :
  set_field r s f v = Ok r' -> py_getitem r s = Ok (VDict sd) ->
  py_getitem r' s = Ok (VDict (dict_set sd f v)).
Proof.
  intros H E. apply set_field_inv in H as (d & sd0 & -> & E0 & ->).
  simpl in E. rewrite E0 in E. inversion E; subst sd0.
  simpl. rewrite dict_get_set_same. reflexivity.
Qed.

Lemma section_lookup r s sd f :
  py_getitem r s = Ok (VDict sd) -> lookup r s f = dict_get sd f.
Proof. intros E. unfold lookup. rewrite E. reflexivity. Qed.

(** X16.  What a normal result has for [overall] when the response, a JSON
    object, has no such section.  The guided analyzer returns the caller's
    score, clamped into 0 to 30, as [input_score], the sum of the six
    improved scores as [improved_score], an empty [summary], and as
    [refinement_summary] the sentence made of these two numbers, or the
    empty text when the sum is 0.  The baseline analyzer returns the sum of
    the six scores as [score], 0 as [improved_score] and two empty texts. *)
Theorem missing_overall_is_made_up :
  forall json_dumps chat_model user_story aspects_to_enhance additional_context
         input_score content d,
    json_loads (sanitize_json_string (strip content)) = Ok (VDict d) ->
    dict_mem d (lit "overall") = false ->
    (chat_model (create_analysis_prompt json_dumps user_story aspects_to_enhance
                   additional_context input_score) = Replied content ->
     forall r,
       analysis_body json_dumps chat_model user_story aspects_to_enhance
         additional_context input_score = Ok r ->
       exists ns,
         scores_of r (lit "improved_score") ns
         /\ py_getitem r (lit "overall")
            = Ok (VDict
                    [(lit "input_score", VInt (Z.max 0 (Z.min 30 input_score)));
                     (lit "improved_score", VInt (total ns));
                     (lit "summary", VStr []);
                     (lit "refinement_summary",
                      VStr (if Z.eqb (total ns) 0 then []
                            else score_sentence
                                   (Z.max 0 (Z.min 30 input_score))
                                   (total ns)))]))
    /\ (chat_model (Refinement.create_analysis_prompt json_dumps user_story)
        = Replied content ->
        forall r,
          Refinement.analysis_body json_dumps chat_model user_story = Ok r ->
          exists ns,
            scores_of r (lit "score") ns
            /\ py_getitem r (lit "overall")
               = Ok (VDict [(lit "score", VInt (total ns));
                            (lit "improved_score", VInt 0);
                            (lit "summary", VStr []);
                            (lit "refinement_summary", VStr [])])).
Proof.
  intros jd cm us a ctx n content d Hparse0 Hm.
  assert (Hreq : In (lit "overall") required_sections)
    by (simpl; tauto).
  split; intros Hreply0 r Hbody.
  - pose proof (GuidedFacts.analysis_body_run _ _ _ _ _ _ _ Hbody) as R.
    destruct (GuidedFacts.run_summary _ _ _ _ _ _ _ R)
      as (ns1 & ns & k1 & _ & F & G & _ & _).
    exists ns. split; [exact F|].
    destruct R.
    rewrite Hreply0 in Hreply. inversion Hreply; subst content0. clear Hreply.
    rewrite Hparse0 in Hparse. inversion Hparse; subst parsed. clear Hparse.
    destruct (guided_fill_missing _ _ _ _ Hfill Hreq Hm) as (v & Ev & E1).
    inversion Ev; subst v. clear Ev.
    pose proof (validate_loop_keeps _ _ _ Hvalid overall_not_criterion) as E2.
    rewrite E1 in E2.
    (* the input score *)
    rewrite (missing_or_not_number_lookup r2 _ _ (VInt n)) in Hbad1
      by (rewrite (section_lookup _ _ _ _ E2); reflexivity).
    inversion Hbad1; subst bad1. cbn [is_number negb] in Hin0.
    inversion Hin0; subst r3. clear Hin0 Hbad1.
    unfold get_field in Hn1. rewrite E2 in Hn1. cbn in Hn1.
    inversion Hn1; subst n1. clear Hn1.
    pose proof (set_field_section _ _ _ _ _ _ Hin E2) as E4.
    (* the improved score *)
    rewrite (missing_or_not_number_lookup r4 _ _ (VInt 0)) in Hbad2
      by (rewrite (section_lookup _ _ _ _ E4); reflexivity).
    inversion Hbad2; subst bad2. cbn [is_number negb] in Himp0.
    inversion Himp0; subst r5. clear Himp0 Hbad2.
    unfold get_field in Hn2. rewrite E4 in Hn2. cbn in Hn2.
    inversion Hn2; subst n2. clear Hn2.
    pose proof (set_field_section _ _ _ _ _ _ Himp E4) as E6.
    unfold GuidedFacts.clamp in *.
    change (Z.max 0 (Z.min 30 0)) with 0%Z in *.
    destruct (Z.eqb 0 calculated) eqn:Eq.
    + subst r. apply Z.eqb_eq in Eq. subst calculated.
      rewrite (get_set_field_same _ _ _ _ _ Himp) in G.
      inversion G as [G0]. try rewrite <- G0. rewrite E6. reflexivity.
    + destruct Hend as (r7 & current & updated & H7 & Hcur & Hupd & Hr).
      pose proof (set_field_section _ _ _ _ _ _ H7 E6) as E7.
      rewrite E7 in Hcur. cbn in Hcur. inversion Hcur; subst current.
      cbn in Hupd. rewrite sub_score_equation_1 in Hupd.
      inversion Hupd; subst updated.
      rewrite (get_set_field_other_field _ _ _ _ _ (lit "improved_score") Hr)
        in G by neq_lit.
      rewrite (get_set_field_same _ _ _ _ _ H7) in G. inversion G as [G0].
      try subst calculated.
      rewrite (set_field_section _ _ _ _ _ _ Hr E7).
      rewrite Z.eqb_sym in Eq. rewrite Eq. reflexivity.
  - pose proof (BaselineFacts.baseline_body_run _ _ _ _ Hbody) as R.
    destruct (BaselineFacts.baseline_summary _ _ _ _ R)
      as (ns & k & F & _ & G & _ & _).
    exists ns. split; [exact F|].
    destruct R.
    rewrite Hreply0 in Hreply. inversion Hreply; subst content0. clear Hreply.
    rewrite Hparse0 in Hparse. inversion Hparse; subst parsed. clear Hparse.
    destruct (baseline_fill_missing _ _ _ Hfill Hreq Hm) as (v & Ev & E1).
    inversion Ev; subst v. clear Ev.
    destruct (for_each_once Refinement.validate_criterion criteria
                (fun r0 x r0' H y Hy => baseline_validate_frame r0 x r0' y H Hy)
                criteria_nodup _ _ Hvalid) as [Frame _].
    pose proof (Frame _ overall_not_criterion) as E2. rewrite E1 in E2.
    pose proof (set_field_section _ _ _ _ _ _ Hscore E2) as E3.
    rewrite E3 in Hn. cbn in Hn. inversion Hn; subst n0. clear Hn.
    rewrite (get_set_field_other_field _ _ _ _ _ (lit "score") Himp) in G
      by neq_lit.
    rewrite (get_set_field_same _ _ _ _ _ Hscore) in G. inversion G as [G0].
    try subst sum.
    rewrite (set_field_section _ _ _ _ _ _ Himp E3). reflexivity.
Qed.

(** A response with the six criteria and nothing else. *)
Definition response_criteria_only : str :=
  json_text
    "{'Independent': {'score': 3, 'improved_score': 4, 'explanation': 'e', 'recommendation': 'r'},
      'Negotiable': {'score': 3, 'improved_score': 4, 'explanation': 'e', 'recommendation': 'r'},
      'Valuable': {'score': 3, 'improved_score': 4, 'explanation': 'e', 'recommendation': 'r'},
      'Estimable': {'score': 3, 'improved_score': 4, 'explanation': 'e', 'recommendation': 'r'},
      'Small': {'score': 3, 'improved_score': 4, 'explanation': 'e', 'recommendation': 'r'},
      'Testable': {'score': 3, 'improved_score': 4, 'explanation': 'e', 'recommendation': 'r'}}".

Lemma missing_overall_is_made_up_witness :
  py_getitem
    (analyze_user_story no_dumps (answering response_criteria_only)
       sample_story [] [] 40) (lit "overall")
  = Ok (VDict [(lit "input_score", VInt 30); (lit "improved_score", VInt 24);
               (lit "summary", VStr []);
               (lit "refinement_summary",
                VStr (lit "INVEST Score improved from 30/30 to 24/30"))]).
Proof.
  assert (P : exists d,
             parsed_response response_criteria_only = VDict d
             /\ dict_mem d (lit "overall") = false)
    by (vm_compute; eexists; split; reflexivity).
  destruct P as (d & Ed & Hm).
  destruct (missing_overall_is_made_up no_dumps
              (answering response_criteria_only) sample_story [] [] 40
              response_criteria_only d) as [G _].
  - rewrite <- Ed. vm_compute. reflexivity.
  - exact Hm.
  - destruct (G eq_refl
                (analyze_user_story no_dumps
                   (answering response_criteria_only) sample_story [] [] 40))
      as (ns & F & E); [vm_compute; reflexivity|].
    vm_compute. reflexivity.
Defined.


(** ** Sanitizing, then parsing *)

Lemma scan_string_closing rest : scan_string (dquote :: rest) = Some ([], rest).
Proof.
  funelim (scan_string (dquote :: rest));
    match goal with
    | E : scan_char _ = _ |- _ => cbn in E; inversion E; subst
    end.
  reflexivity.
Qed.

Lemma scan_string_char s x rest :
  scan_char s = Char x rest -> scan_string s = consed x (scan_string rest).
Proof.
  intros H. funelim (scan_string s); congruence.
Qed.

(** The body of a string value as this property takes it: no quote, no
    backslash, and no character that the first pass of the sanitizer
    removes; newlines and carriage returns are allowed. *)
Definition raw_body (body : str) : Prop :=
  Forall (fun c => c <> dquote /\ c <> backslash /\ is_control c = false) body.

Lemma raw_body_char c :
  c <> dquote /\ c <> backslash /\ is_control c = false ->
  N.eqb c dquote = false /\ N.eqb c backslash = false
  /\ N.eqb c tab = false
  /\ ((32 <= c)%N \/ c = newline \/ c = creturn).
Proof.
  intros (Q & B & C). split; [apply N.eqb_neq; exact Q|].
  split; [apply N.eqb_neq; exact B|].
  unfold is_control, between in C.
  repeat (apply orb_false_elim in C as [C ?]).
  repeat match goal with
         | H : (_ && _)%bool = false |- _ => apply andb_false_iff in H
         | H : N.eqb _ _ = false |- _ => apply N.eqb_neq in H
         end.
  split; [apply N.eqb_neq; unfold tab|unfold newline, creturn];
    repeat match goal with
           | H : _ \/ _ |- _ => destruct H
           | H : N.leb _ _ = false |- _ => apply N.leb_gt in H
           end; lia.
Qed.

(** The escapes of the sanitizer, read back by the parser. *)
Lemma scan_string_escaped body tail :
  raw_body body ->
  scan_string (escaped body ++ dquote :: tail) = Some (body, tail).
Proof.
  induction 1 as [|c body Hc _ IH]; [apply scan_string_closing|].
  apply raw_body_char in Hc as (Q & B & T & R).
  rewrite escaped_cons. unfold escaped_char.
  destruct (N.eqb c newline) eqn:En.
  { apply N.eqb_eq in En. subst c.
    rewrite (scan_string_char _ newline (escaped body ++ dquote :: tail))
      by reflexivity.
    rewrite IH. reflexivity. }
  rewrite T.
  destruct (N.eqb c creturn) eqn:Er.
  { apply N.eqb_eq in Er. subst c.
    rewrite (scan_string_char _ creturn (escaped body ++ dquote :: tail))
      by reflexivity.
    rewrite IH. reflexivity. }
  rewrite (scan_string_char _ c (escaped body ++ dquote :: tail)).
  - rewrite IH. reflexivity.
  - cbn [app scan_char]. rewrite Q, B. reflexivity.
Qed.

Lemma raw_string_escaped body tail :
  raw_body body ->
  raw_string (escaped body ++ dquote :: tail) = Some (escaped body, tail).
Proof.
  induction 1 as [|c body Hc _ IH]; [reflexivity|].
  apply raw_body_char in Hc as (Q & B & T & R).
  rewrite escaped_cons. unfold escaped_char.
  destruct (N.eqb c newline) eqn:En.
  { exact (f_equal (fun o => consed backslash (consed 110%N o)) IH). }
  rewrite T.
  destruct (N.eqb c creturn) eqn:Er.
  { exact (f_equal (fun o => consed backslash (consed 114%N o)) IH). }
  cbn [app raw_string]. rewrite Q, B, IH. reflexivity.
Qed.

Lemma escaped_raw_body_chars body x :
  raw_body body -> In x (escaped body) -> (32 <= x)%N.
Proof.
  induction 1 as [|c body Hc _ IH]; [intros []|].
  apply raw_body_char in Hc as (Q & B & T & R).
  rewrite escaped_cons. intros Hin. apply in_app_or in Hin as [Hin|Hin];
    [|exact (IH Hin)].
  unfold escaped_char in Hin.
  destruct (N.eqb c newline) eqn:En.
  { destruct Hin as [<-|[<-|[]]]; discriminate. }
  rewrite T in Hin. destruct (N.eqb c creturn) eqn:Er.
  { destruct Hin as [<-|[<-|[]]]; discriminate. }
  destruct Hin as [<-|[]]. apply N.eqb_neq in En, Er.
  destruct R as [R|[R|R]]; [exact R| |]; contradiction.
Qed.

Lemma escaped_raw_body_printable body :
  raw_body body -> existsb (fun c => N.ltb c 32) (escaped body) = false.
Proof.
  intros H. destruct (existsb (fun c : char => N.ltb c 32) (escaped body)) eqn:E; [exfalso|exact E].
  apply existsb_exists in E as (x & Hin & Hx).
  apply (escaped_raw_body_chars body x H) in Hin.
  apply N.ltb_lt in Hx. lia.
Qed.

Lemma raw_body_well_escaped body : raw_body body -> well_escaped body = true.
Proof.
  induction 1 as [|c body Hc _ IH]; [reflexivity|].
  apply raw_body_char in Hc as (Q & B & _). cbn [well_escaped].
  rewrite Q, B. exact IH.
Qed.

Lemma raw_body_raw_string body tail :
  raw_body body -> raw_string (body ++ dquote :: tail) = Some (body, tail).
Proof.
  induction 1 as [|c body Hc _ IH]; [reflexivity|].
  apply raw_body_char in Hc as (Q & B & _). cbn [app raw_string].
  rewrite Q, B, IH. reflexivity.
Qed.

(** X17.  Why the sanitizer is there.  Take a text that is one string
    literal whose body has newlines or carriage returns as they are (and no
    quote, no backslash and none of the characters that the first pass
    removes).  [json.loads] refuses it; after [sanitize_json_string] it
    accepts it, and the value is the body, character for character: the
    escapes that the sanitizer writes are read back as the characters they
    stand for. *)
Theorem sanitize_then_loads_round_trip :
  forall body,
    raw_body body ->
    json_loads (sanitize_json_string (q ++ body ++ q)) = Ok (VStr body)
    /\ (In newline body \/ In creturn body ->
        exists e, json_loads (q ++ body ++ q) = Raise e).
Proof.
  intros body H. split.
  - unfold sanitize_json_string.
    rewrite remove_control_free.
    2:{ unfold control_free. apply Forall_app. split; [repeat constructor|].
        apply Forall_app. split; [|repeat constructor].
        revert H. apply Forall_impl. tauto. }
    change (q ++ body ++ q) with (dquote :: body ++ dquote :: []).
    rewrite (sub_literals_match dquote _ body [])
      by (simpl; apply literal_body_well_escaped, raw_body_well_escaped, H).
    rewrite clean_string_value_escaped.
    change (sub_literals []) with (@nil char). rewrite app_nil_r.
    unfold json_loads. rewrite tokenize_token by reflexivity.
    unfold lex1. change (N.eqb dquote dquote) with true. cbv iota.
    unfold string_token. rewrite (raw_string_escaped body [] H).
    unfold decode_string. rewrite (escaped_raw_body_printable body H).
    rewrite (scan_string_escaped body [] H). reflexivity.
  - intros Hin. unfold json_loads.
    change (q ++ body ++ q) with (dquote :: body ++ dquote :: []).
    rewrite tokenize_token by reflexivity.
    unfold lex1. change (N.eqb dquote dquote) with true. cbv iota.
    unfold string_token. rewrite (raw_body_raw_string body [] H).
    unfold decode_string.
    assert (E : existsb (fun c => N.ltb c 32) body = true).
    { apply existsb_exists.
      destruct Hin as [Hin|Hin]; eexists; (split; [exact Hin|reflexivity]). }
    rewrite E. eexists. reflexivity.
Qed.

Definition two_lines : str := lit "first line" ++ [newline] ++ lit "second line".

Lemma sanitize_then_loads_round_trip_witness :
  json_loads (sanitize_json_string (q ++ two_lines ++ q)) = Ok (VStr two_lines)
  /\ exists e, json_loads (q ++ two_lines ++ q) = Raise e.
Proof.
  destruct (sanitize_then_loads_round_trip two_lines) as [A B].
  - apply Forall_forall. intros c Hc. vm_compute in Hc.
    repeat (destruct Hc as [<-|Hc];
            [split; [discriminate|split; [discriminate|reflexivity]]|]).
    destruct Hc.
  - split; [exact A|]. apply B. left. vm_compute. tauto.
Defined.
